(** * Payment-System: the weekly payment board and its settlement handlers

    A shallow embedding of [src/pages/Dashboard.tsx],
    [src/pages/Trabalhos.tsx] and [src/pages/Pessoas.tsx] together with the
    four tables of the migration [20251027165703_...sql], followed by the
    properties of the slot board, the backlog queue, the settlement
    handlers and the people page.

    Conventions of the embedding.
    - A UUID is the [string] the client sees.
    - Amounts are [DECIMAL(10,2)] columns; a stored amount is represented
      exactly, as an integer number of centavos ([Z]).  The client holds
      amounts as JavaScript numbers, that is, binary64 floats: where a
      handler computes with them ([+], [>=]) the computation is done on
      floats, and a computed number that is written is rounded to two
      places by the database, which refuses it when it does not fit the
      column.  An amount that is only passed on, from a row to a row, comes
      back as the amount it was: the float nearest to it is off by far less
      than half a centavo.  Sums that are only displayed through
      [toFixed(2)] are taken in centavos.
    - A table is the list of its rows.  Columns filled by a database default
      that no handler ever reads ([created_at], [data_pagamento], the [id] of
      a history row) are left out.
    - Every [await supabase...] is one storage call.  supabase-js resolves a
      failed call with [{ data: null, error }], so a call yields
      [Some data] or [None]; an [await] can also throw (the promise
      rejects).  What happens to each call is read from a script of
      outcomes carried by the world.
    - A React state variable is a field of the world, its setter a write.
    - The fields of a row keep their column names behind a prefix for the
      table ([t_] trabalhos, [s_] pagamentos_semanais, [h_]
      historico_pagamentos, [p_] pessoas).
    - Dashboard.tsx holds two versions of [handleApprove]: the one of the
      page as it stands (lines 259-284) is [Dashboard.handleApprove], the
      one that settles row by row from the client (lines 373-433) is
      [DashboardPerRow.handleApprove].
    - [console.error] and rendering are not modelled; the values already
      in the store are taken to fit their columns. *)

From stdpp Require Import base list strings numbers sorting.
From Stdlib Require Import ZArith Lia.
From Stdlib Require Floats.

Local Open Scope string_scope.
Local Open Scope Z_scope.

(** ** Rows *)

Definition uuid := string.
Definition money := Z.

(** [public.pessoas] *)
Record Pessoa := mkPessoa {
  p_id : uuid;
  p_nome : string;
  p_funcao : string
}.

(** [public.trabalhos] *)
Record Trabalho := mkTrabalho {
  t_id : uuid;
  t_pessoa_id : uuid;
  t_descricao : string;
  t_valor_total : money;
  t_valor_pago : money;
  t_concluido : bool;
  t_prioridade : Z
}.

(** [public.pagamentos_semanais], the type [PagamentoSemanal] of the page *)
Record PagamentoSemanal := mkPagamentoSemanal {
  s_id : uuid;
  s_trabalho_id : uuid;
  s_pessoa_nome : string;
  s_pessoa_funcao : string;
  s_descricao_trabalho : string;
  s_valor : money;
  s_posicao : Z
}.

(** [public.historico_pagamentos] *)
Record HistoricoPagamento := mkHistoricoPagamento {
  h_pessoa_id : uuid;
  h_trabalho_id : uuid;
  h_pessoa_nome : string;
  h_pessoa_funcao : string;
  h_descricao_trabalho : string;
  h_valor : money
}.

Record DB := mkDB {
  pessoas : list Pessoa;
  trabalhos : list Trabalho;
  pagamentos_semanais : list PagamentoSemanal;
  historico_pagamentos : list HistoricoPagamento
}.

Definition set_trabalhos (ts : list Trabalho) (d : DB) : DB :=
  mkDB (pessoas d) ts (pagamentos_semanais d) (historico_pagamentos d).
Definition set_pagamentos_semanais (ss : list PagamentoSemanal) (d : DB) : DB :=
  mkDB (pessoas d) (trabalhos d) ss (historico_pagamentos d).
Definition set_historico_pagamentos (hs : list HistoricoPagamento) (d : DB) : DB :=
  mkDB (pessoas d) (trabalhos d) (pagamentos_semanais d) hs.

(** ** The board view of [loadSlots] (Dashboard.tsx 139-144)

    [const newSlots = Array(10).fill(null);
     data?.forEach((item) => {
       if (item.posicao >= 0 && item.posicao < 10) newSlots[item.posicao] = item; });] *)

Abbreviation Board := (list (option PagamentoSemanal)).

Definition empty_board : Board := replicate 10 None.

Definition place (newSlots : Board) (item : PagamentoSemanal) : Board :=
  if (0 <=? s_posicao item) && (s_posicao item <? 10)
  then <[Z.to_nat (s_posicao item) := Some item]> newSlots
  else newSlots.

Definition build_board (data : list PagamentoSemanal) : Board :=
  foldl place empty_board data.

(** [.order("posicao", { ascending: true })]: the rows by ascending
    position.  The order among rows of equal position is whatever the sort
    leaves; no statement below depends on it. *)
Definition posicao_le (a b : PagamentoSemanal) : Prop := s_posicao a <= s_posicao b.

#[global] Instance posicao_le_dec : RelDecision posicao_le.
Proof. intros a b. unfold posicao_le. apply _. Defined.

Definition order_by_posicao (rows : list PagamentoSemanal) : list PagamentoSemanal :=
  merge_sort posicao_le rows.

(** The occupied entries of a board, [slots.filter((s) => s !== null)]. *)
Definition filled (b : Board) : list PagamentoSemanal := omap id b.

(** The board a reader of the store is shown. *)
Definition listSlots (d : DB) : Board :=
  build_board (order_by_posicao (pagamentos_semanais d)).

(** ** The world: store, transport script and component state *)

Inductive toast :=
  | toast_success (msg : string)
  | toast_error (msg : string)
  | toast_info (msg : string).

(** What the transport does to a storage call: it [reaches] the database;
    it [errors], that is, resolves with an error; or it [rejects], so
    that the [await] throws.  In the last two cases the store is left
    alone. *)
Inductive outcome :=
  | reaches
  | errors
  | rejects.

Record World := mkWorld {
  db : DB;
  (** outcome of each storage call to come, in order; past the end of the
      script every call reaches the database *)
  script : list outcome;
  (** Dashboard: [slots], [loading], [approving] *)
  slots : Board;
  loading : bool;
  approving : bool;
  (** Trabalhos: [trabalhos], [loading] *)
  fila : list Trabalho;
  fila_loading : bool;
  (** what [toast.*] has shown, oldest first *)
  toasts : list toast;
  (** number of [setTimeout(() => fillEmptySlots(), 500)] still pending *)
  timers : nat
}.

Definition with_db (d : DB) (w : World) : World :=
  mkWorld d (script w) (slots w) (loading w) (approving w) (fila w)
          (fila_loading w) (toasts w) (timers w).
Definition with_script (sc : list outcome) (w : World) : World :=
  mkWorld (db w) sc (slots w) (loading w) (approving w) (fila w)
          (fila_loading w) (toasts w) (timers w).
Definition with_slots (b : Board) (w : World) : World :=
  mkWorld (db w) (script w) b (loading w) (approving w) (fila w)
          (fila_loading w) (toasts w) (timers w).
Definition with_loading (x : bool) (w : World) : World :=
  mkWorld (db w) (script w) (slots w) x (approving w) (fila w)
          (fila_loading w) (toasts w) (timers w).
Definition with_approving (x : bool) (w : World) : World :=
  mkWorld (db w) (script w) (slots w) (loading w) x (fila w)
          (fila_loading w) (toasts w) (timers w).
Definition with_fila (l : list Trabalho) (w : World) : World :=
  mkWorld (db w) (script w) (slots w) (loading w) (approving w) l
          (fila_loading w) (toasts w) (timers w).
Definition with_fila_loading (x : bool) (w : World) : World :=
  mkWorld (db w) (script w) (slots w) (loading w) (approving w) (fila w)
          x (toasts w) (timers w).
Definition with_toasts (l : list toast) (w : World) : World :=
  mkWorld (db w) (script w) (slots w) (loading w) (approving w) (fila w)
          (fila_loading w) l (timers w).
Definition with_timers (n : nat) (w : World) : World :=
  mkWorld (db w) (script w) (slots w) (loading w) (approving w) (fila w)
          (fila_loading w) (toasts w) n.

(** ** A state monad with exceptions for the [async] handlers *)

Inductive result (A : Type) :=
  | Val (a : A)
  | Throw.
Arguments Val {A} a.
Arguments Throw {A}.

Definition M (A : Type) : Type := World -> result A * World.

Definition ret {A} (a : A) : M A := fun w => (Val a, w).
Definition throw {A} : M A := fun w => (Throw, w).
Definition bind {A B} (c : M A) (k : A -> M B) : M B :=
  fun w => match c w with
           | (Val a, w1) => k a w1
           | (Throw, w1) => (Throw, w1)
           end.

Notation "'let!' x ':=' c 'in' k" := (bind c (fun x => k))
  (at level 10, x pattern, c at level 100, k at level 200).
Notation "c ';;' k" := (bind c (fun _ => k))
  (at level 100, k at level 200, right associativity).

(** [try { body } catch { handler }] *)
Definition try_catch {A} (body handler : M A) : M A :=
  fun w => match body w with
           | (Val a, w1) => (Val a, w1)
           | (Throw, w1) => handler w1
           end.

(** [... finally { fin }]; [fin] never throws in the handlers below *)
Definition finally {A} (body : M A) (fin : M unit) : M A :=
  fun w => match body w with
           | (r, w1) => (r, snd (fin w1))
           end.

Definition modify (f : World -> World) : M unit := fun w => (Val tt, f w).
Definition gets {A} (f : World -> A) : M A := fun w => (Val (f w), w).

Definition setSlots (b : Board) : M unit := modify (with_slots b).
Definition setLoading (x : bool) : M unit := modify (with_loading x).
Definition setApproving (x : bool) : M unit := modify (with_approving x).
Definition setTrabalhos (l : list Trabalho) : M unit := modify (with_fila l).
Definition setFilaLoading (x : bool) : M unit := modify (with_fila_loading x).
Definition show (t : toast) : M unit :=
  modify (fun w => with_toasts (toasts w ++ [t]) w).
Definition setTimeout_fillEmptySlots : M unit :=
  modify (fun w => with_timers (S (timers w)) w).

(** The final world of a handler. *)
Definition exec {A} (c : M A) (w : World) : World := snd (c w).

(** ** Amounts on the client

    [to_js c] is the JavaScript number the client gets for the stored
    amount [c]: the float nearest to [c / 100].  [to_db x] is the amount
    the database stores for the number [x] written to a [DECIMAL(10,2)]
    column: [x] rounded to two places, half away from zero, or nothing when
    the result has more than eight digits before the point (error 22003)
    or [x] is no finite number.

    The number travels as the shortest decimal text that reads back as
    [x], and it is this text the database rounds.  The numbers written
    here are sums of two amounts: below the range of the column such a sum
    is within a millionth of a multiple of 0.01, far from the half
    centavos where the text and the number could round apart, so [to_db]
    rounds the number itself. *)

Definition Z2F (z : Z) : PrimFloat.float :=
  FloatOps.SF2Prim (SpecFloat.binary_normalize FloatOps.prec FloatOps.emax z 0 false).

Definition to_js (c : Z) : PrimFloat.float := PrimFloat.div (Z2F c) (Z2F 100).

(** The float of sign [s], mantissa [m] and exponent [e], in centavos *)
Definition centavos (s : bool) (m : positive) (e : Z) : Z :=
  let n := 100 * Z.pos m in
  let v := if 0 <=? e then n * 2 ^ e else (2 * n + 2 ^ (- e)) / (2 * 2 ^ (- e)) in
  if s then - v else v.

Definition to_db (x : PrimFloat.float) : option Z :=
  match FloatOps.Prim2SF x with
  | SpecFloat.S754_zero _ => Some 0
  | SpecFloat.S754_finite s m e =>
      let c := centavos s m e in
      if bool_decide (Z.abs c < 10 ^ 10) then Some c else None
  | _ => None
  end.

(** ** Storage calls

    A statement [q] reads the store and answers [Some (data, store')], or
    [None] when the database rejects it.  [call q] is [await] of that
    statement: the next entry of the script decides whether it reaches the
    database at all. *)

Definition call {A} (q : DB -> option (A * DB)) : M (option A) :=
  fun w =>
    match script w with
    | errors :: rest => (Val None, with_script rest w)
    | rejects :: rest => (Throw, with_script rest w)
    | sc =>
        match q (db w) with
        | Some (a, d') => (Val (Some a), with_db d' (with_script (tail sc) w))
        | None => (Val None, with_script (tail sc) w)
        end
    end.

(** [.from("pagamentos_semanais").select("*").order("posicao", ...)] *)
Definition select_slots : DB -> option (list PagamentoSemanal * DB) :=
  fun d => Some (order_by_posicao (pagamentos_semanais d), d).

(** [.from("trabalhos").select(...).eq("id", x).single()]: an error unless
    exactly one row matches. *)
Definition select_trabalho (x : uuid) : DB -> option (Trabalho * DB) :=
  fun d =>
    match filter (fun t => t_id t = x) (trabalhos d) with
    | [t] => Some (t, d)
    | _ => None
    end.

(** [.from("historico_pagamentos").insert({ pessoa_id, trabalho_id, ... })]
    with the fields of the slot.  [pessoa_id] may be [undefined]; the
    columns are [NOT NULL] and reference [pessoas] and [trabalhos]. *)
Definition historico_of (pid : uuid) (slot : PagamentoSemanal) : HistoricoPagamento :=
  mkHistoricoPagamento pid (s_trabalho_id slot) (s_pessoa_nome slot)
    (s_pessoa_funcao slot) (s_descricao_trabalho slot) (s_valor slot).

Definition insert_historico (pessoa_id : option uuid) (slot : PagamentoSemanal)
  : DB -> option (unit * DB) :=
  fun d =>
    match pessoa_id with
    | None => None
    | Some pid =>
        if bool_decide (pid ∈ map p_id (pessoas d))
           && bool_decide (s_trabalho_id slot ∈ map t_id (trabalhos d))
        then Some (tt, set_historico_pagamentos
                         (historico_pagamentos d ++ [historico_of pid slot]) d)
        else None
    end.

(** [.from("trabalhos").update({ valor_pago, concluido }).eq("id", x)];
    [valor_pago] is the number the client computed. *)
Definition pay (valor_pago : money) (concluido : bool) (t : Trabalho) : Trabalho :=
  mkTrabalho (t_id t) (t_pessoa_id t) (t_descricao t) (t_valor_total t)
             valor_pago concluido (t_prioridade t).

Definition update_trabalho (x : uuid) (valor_pago : PrimFloat.float) (concluido : bool)
  : DB -> option (unit * DB) :=
  fun d =>
    match to_db valor_pago with
    | Some novo =>
        Some (tt, set_trabalhos
                    (map (fun t => if bool_decide (t_id t = x)
                                   then pay novo concluido t else t)
                         (trabalhos d)) d)
    | None => None
    end.

(** [.from("pagamentos_semanais").delete().eq("id", x)] *)
Definition delete_slot (x : uuid) : DB -> option (unit * DB) :=
  fun d =>
    Some (tt, set_pagamentos_semanais
                (filter (fun s => s_id s ≠ x) (pagamentos_semanais d)) d).

(** [.from("pagamentos_semanais").delete().neq("id", "00000000-...")] *)
Definition nil_uuid : uuid := "00000000-0000-0000-0000-000000000000".

Definition delete_all_slots : DB -> option (unit * DB) :=
  fun d =>
    Some (tt, set_pagamentos_semanais
                (filter (fun s => s_id s = nil_uuid) (pagamentos_semanais d)) d).

(** [.from(table).upsert(updates)] with rows of the shape [{ id, column }]
    is [INSERT ... ON CONFLICT (id) DO UPDATE].  The page expects it to
    update the one column of the rows with these primary keys ("O upsert
    funciona com um subconjunto de propriedades").  The database, though,
    first forms the row to insert, with the defaults of the columns that
    are left out, and checks it against [NOT NULL] before it looks at the
    conflict on [id]: [pessoa_id], [descricao] and [valor_total] of
    [trabalhos], and [trabalho_id], [pessoa_nome], [pessoa_funcao],
    [descricao_trabalho] and [valor] of [pagamentos_semanais], are
    [NOT NULL] and have no default.  So a statement with a row is refused
    (error 23502), whether its keys are in the table or not, and nothing
    is written; a statement without a row has nothing to write. *)
Definition upsert_posicao (updates : list (uuid * Z)) : DB -> option (unit * DB) :=
  fun d =>
    match updates with
    | [] => Some (tt, d)
    | _ :: _ => None
    end.

Definition upsert_prioridade (updates : list (uuid * Z)) : DB -> option (unit * DB) :=
  fun d =>
    match updates with
    | [] => Some (tt, d)
    | _ :: _ => None
    end.

(** A slot on another position, a work item with another rank *)
Definition set_posicao (x : Z) (s : PagamentoSemanal) : PagamentoSemanal :=
  mkPagamentoSemanal (s_id s) (s_trabalho_id s) (s_pessoa_nome s)
    (s_pessoa_funcao s) (s_descricao_trabalho s) (s_valor s) x.

Definition set_prioridade (x : Z) (t : Trabalho) : Trabalho :=
  mkTrabalho (t_id t) (t_pessoa_id t) (t_descricao t) (t_valor_total t)
             (t_valor_pago t) (t_concluido t) x.

(** [.from("trabalhos").select(...).eq("concluido", false)
      .order("prioridade", { ascending: true })] *)
Definition prioridade_le (a b : Trabalho) : Prop := t_prioridade a <= t_prioridade b.

#[global] Instance prioridade_le_dec : RelDecision prioridade_le.
Proof. intros a b. unfold prioridade_le. apply _. Defined.

Definition pendentes (d : DB) : list Trabalho :=
  filter (fun t => t_concluido t = false) (trabalhos d).

Definition select_fila : DB -> option (list Trabalho * DB) :=
  fun d => Some (merge_sort prioridade_le (pendentes d), d).

(** [.from("pessoas").select("*").order("nome", ...)]; the rows are only
    displayed, so their order is not modelled. *)
Definition select_pessoas : DB -> option (list Pessoa * DB) :=
  fun d => Some (pessoas d, d).

(** ** Database functions called through [supabase.rpc]

    The migration under [supabase/migrations] creates the four tables only
    and [Database.public.Functions] of [types.ts] is empty: the bodies of
    the three functions the page calls are not part of the sources.  Their
    arithmetic is the database's, on decimals, and what they compute is
    taken to fit its column. *)

(** Modelled from the spec: the body of the database function
    [atualizar_valor_pago(p_trabalho_id, p_valor_pago)] is missing.  §4.4,
    step 3: "Increase the WorkItem's paid amount by the slot amount; if
    paid >= total, mark completed". *)
Definition atualizar_valor_pago (p_trabalho_id : uuid) (p_valor_pago : money)
  : DB -> option (unit * DB) :=
  fun d =>
    Some (tt, set_trabalhos
                (map (fun t =>
                        if bool_decide (t_id t = p_trabalho_id)
                        then let novo := t_valor_pago t + p_valor_pago in
                             pay novo (if novo >=? t_valor_total t
                                       then true else t_concluido t) t
                        else t)
                     (trabalhos d)) d).

(** Modelled from the spec: the body of the database function
    [aprovar_pagamentos_semanais()] is missing.  §4.4: "For every occupied
    slot, performs the same three effects as manual settlement (history
    append, balance increase, completion check) for each, then clears all
    slots from the board.  The entire operation [...] is one atomic unit";
    "any failure ([...] referential inconsistency such as a slot pointing
    at a deleted WorkItem) aborts the whole atomic unit". *)
Definition settle_row (slot : PagamentoSemanal) (d : DB) : option DB :=
  match select_trabalho (s_trabalho_id slot) d with
  | Some (t, _) =>
      match insert_historico (Some (t_pessoa_id t)) slot d with
      | Some (_, d1) => snd <$> atualizar_valor_pago (s_trabalho_id slot) (s_valor slot) d1
      | None => None
      end
  | None => None
  end.

Fixpoint settle_rows (rows : list PagamentoSemanal) (d : DB) : option DB :=
  match rows with
  | [] => Some d
  | slot :: rest =>
      match settle_row slot d with
      | Some d1 => settle_rows rest d1
      | None => None
      end
  end.

Definition aprovar_pagamentos_semanais : DB -> option (unit * DB) :=
  fun d =>
    match settle_rows (order_by_posicao (pagamentos_semanais d)) d with
    | Some d1 => Some (tt, set_pagamentos_semanais [] d1)
    | None => None
    end.

(** Modelled from the spec: the body of the database function
    [preencher_slots_pagamento()] is missing.  §4.3: "pull WorkItems from
    the Backlog Queue (highest priority — lowest rank — first) and create a
    BoardSlot for each, until either the board is full (10 occupied) or the
    backlog is exhausted.  The settlement amount snapshotted into each new
    slot is the work item's full remaining balance (total - paid) at fill
    time.  A WorkItem already bound to an existing slot must never be
    pulled again"; §3: the display fields are "captured at fill time".
    [gen k] is the [k]-th value [gen_random_uuid()] hands out. *)
Definition posicoes_livres (d : DB) : list Z :=
  filter (fun p => p ∉ map s_posicao (pagamentos_semanais d)) (seqZ 0 10).

Definition candidatos (d : DB) : list Trabalho :=
  merge_sort prioridade_le
    (filter (fun t => t_id t ∉ map s_trabalho_id (pagamentos_semanais d))
            (pendentes d)).

Definition novo_slot (gen : nat -> uuid) (d : DB) (k : nat) (pt : Z * Trabalho)
  : PagamentoSemanal :=
  let t := pt.2 in
  let dono := head (filter (fun p => p_id p = t_pessoa_id t) (pessoas d)) in
  mkPagamentoSemanal (gen k) (t_id t)
    (from_option p_nome "" dono) (from_option p_funcao "" dono)
    (t_descricao t) (t_valor_total t - t_valor_pago t) pt.1.

Definition novos_slots (gen : nat -> uuid) (d : DB) : list PagamentoSemanal :=
  imap (novo_slot gen d) (zip (posicoes_livres d) (candidatos d)).

Definition preencher_slots_pagamento (gen : nat -> uuid) : DB -> option (unit * DB) :=
  fun d =>
    Some (tt, set_pagamentos_semanais (pagamentos_semanais d ++ novos_slots gen d) d).

(** Whether the next storage call reaches the database. *)
Definition goes_through (w : World) : bool :=
  match script w with
  | errors :: _ | rejects :: _ => false
  | _ => true
  end.

(** Whether the next storage call throws. *)
Definition next_rejects (w : World) : bool :=
  match script w with
  | rejects :: _ => true
  | _ => false
  end.

(** ** Helpers of the pages *)

(** [for (const x of l) { await body(x) }] *)
Fixpoint forM {A} (l : list A) (body : A -> M unit) : M unit :=
  match l with
  | [] => ret tt
  | x :: rest => body x ;; forM rest body
  end.

(** [await Promise.all([c1, c2])]: both calls are made; the [await] throws
    when one of them does. *)
Definition promise_all {A B} (c1 : M A) (c2 : M B) : M (A * B) :=
  fun w =>
    match c1 w with
    | (r1, w1) =>
        match c2 w1 with
        | (r2, w2) =>
            match r1, r2 with
            | Val a, Val b => (Val (a, b), w2)
            | _, _ => (Throw, w2)
            end
        end
    end.

(** [array.findIndex(P)], with [None] for [-1] *)
Definition findIndex {A} (P : A -> Prop) `{forall x, Decision (P x)} (l : list A)
  : option nat :=
  fst <$> list_find P l.

(** [arrayMove(array, from, to)] of [@dnd-kit/sortable]:
    [newArray.splice(to, 0, newArray.splice(from, 1)[0])] on a copy, for
    [0 <= to].  The handlers only pass indices that [findIndex] found; for
    a [from] outside the array the copy is returned as it is. *)
Definition arrayMove {A} (array : list A) (from to : nat) : list A :=
  match array !! from with
  | Some x => let rest := delete from array in take to rest ++ x :: drop to rest
  | None => array
  end.

Module Dashboard.

(** Dashboard.tsx 130-152 *)
Definition loadSlots : M unit :=
  finally
    (try_catch
       (let! r := call select_slots in
        match r with
        | None => throw
        | Some data => setSlots (build_board data)
        end)
       (show (toast_error "Erro ao carregar pagamentos")))
    (setLoading false).

(** Dashboard.tsx 154-167 *)
Definition fillEmptySlots (gen : nat -> uuid) : M unit :=
  try_catch
    (let! r := call (preencher_slots_pagamento gen) in
     match r with
     | None => throw
     | Some _ =>
         loadSlots ;;
         show (toast_success "Slots preenchidos automaticamente!")
     end)
    (show (toast_error "Erro ao preencher slots automaticamente")).

(** [reorderedSlots.map((slot, index) => slot ? { id, posicao: index } : null)
      .filter(Boolean)] *)
Definition updates_of (reorderedSlots : Board) : list (uuid * Z) :=
  omap id (imap (fun index slot => (fun x => (s_id x, Z.of_nat index)) <$> slot)
                reorderedSlots).

(** Dashboard.tsx 169-204; [active] is [active.id], [over] is [over?.id] *)
Definition handleDragEnd (active : uuid) (over : option uuid) : M unit :=
  match over with
  | None => ret tt
  | Some over_id =>
      if bool_decide (active = over_id) then ret tt
      else
        let! sl := gets slots in
        match findIndex (fun s => s_id <$> s = Some active) sl,
              findIndex (fun s => s_id <$> s = Some over_id) sl with
        | Some oldIndex, Some newIndex =>
            let reorderedSlots := arrayMove sl oldIndex newIndex in
            setSlots reorderedSlots ;;
            try_catch
              (let! r := call (upsert_posicao (updates_of reorderedSlots)) in
               match r with
               | None => throw
               | Some _ => show (toast_success "Ordem atualizada!")
               end)
              (show (toast_error "Erro ao reordenar slots") ;;
               loadSlots)
        | _, _ => ret tt
        end
  end.

(** Dashboard.tsx 206-218 *)
Definition handleRemove (id : uuid) : M unit :=
  try_catch
    (let! r := call (delete_slot id) in
     match r with
     | None => throw
     | Some _ => loadSlots ;; show (toast_success "Slot removido!")
     end)
    (show (toast_error "Erro ao remover slot")).

(** Dashboard.tsx 220-257; [confirmed] is the answer to [window.confirm] *)
Definition handlePayManually (confirmed : bool) (slot : PagamentoSemanal) : M unit :=
  if negb confirmed then ret tt
  else
    setApproving true ;;
    finally
      (try_catch
         (let! trabalho := call (select_trabalho (s_trabalho_id slot)) in
          match trabalho with
          | None => throw
          | Some t =>
              call (insert_historico (Some (t_pessoa_id t)) slot) ;;
              let! rpc := call (atualizar_valor_pago (s_trabalho_id slot) (s_valor slot)) in
              match rpc with
              | None => throw
              | Some _ =>
                  handleRemove (s_id slot) ;;
                  show (toast_success "Pagamento manual realizado com sucesso!")
              end
          end)
         (show (toast_error "Erro ao realizar pagamento manual.")))
      (setApproving false).

(** Dashboard.tsx 259-284 *)
Definition handleApprove : M unit :=
  setApproving true ;;
  finally
    (try_catch
       (let! sl := gets slots in
        let filledSlots := filled sl in
        if bool_decide (length filledSlots = 0%nat)
        then show (toast_info "Nenhum pagamento para aprovar.")
        else
          let! r := call aprovar_pagamentos_semanais in
          match r with
          | None => throw
          | Some _ =>
              loadSlots ;;
              show (toast_success "Pagamentos aprovados com sucesso!") ;;
              setTimeout_fillEmptySlots
          end)
       (show (toast_error "Erro ao aprovar pagamentos")))
    (setApproving false).

End Dashboard.

(** The second [handleApprove] of Dashboard.tsx (lines 373-433), which
    settles the slots of the page one by one from the client. *)
Module DashboardPerRow.

(** Dashboard.tsx 384-417, the body of the loop *)
Definition approve_slot (slot : PagamentoSemanal) : M unit :=
  let! dono := call (select_trabalho (s_trabalho_id slot)) in
  call (insert_historico (t_pessoa_id <$> dono) slot) ;;
  let! trabalho := call (select_trabalho (s_trabalho_id slot)) in
  match trabalho with
  | Some t =>
      let novoValorPago := PrimFloat.add (to_js (t_valor_pago t)) (to_js (s_valor slot)) in
      let concluido := PrimFloat.leb (to_js (t_valor_total t)) novoValorPago in
      call (update_trabalho (s_trabalho_id slot) novoValorPago concluido) ;;
      ret tt
  | None => ret tt
  end.

(** Dashboard.tsx 373-433 *)
Definition handleApprove : M unit :=
  setApproving true ;;
  finally
    (try_catch
       (let! sl := gets slots in
        let filledSlots := filled sl in
        if bool_decide (length filledSlots = 0%nat)
        then show (toast_error "Nenhum pagamento para aprovar")
        else
          forM filledSlots approve_slot ;;
          call delete_all_slots ;;
          Dashboard.loadSlots ;;
          show (toast_success "Pagamentos aprovados com sucesso!") ;;
          setTimeout_fillEmptySlots)
       (show (toast_error "Erro ao aprovar pagamentos")))
    (setApproving false).

End DashboardPerRow.

Module Trabalhos.

(** Trabalhos.tsx 114-146.  The list of people only feeds the form. *)
Definition loadData : M unit :=
  finally
    (try_catch
       (let! res := promise_all (call select_pessoas) (call select_fila) in
        match res with
        | (Some _, Some ts) => setTrabalhos ts
        | _ => throw
        end)
       (show (toast_error "Erro ao carregar dados")))
    (setFilaLoading false).

(** [reordered.map((trabalho, index) => ({ id, prioridade: index }))] *)
Definition updates_of (reordered : list Trabalho) : list (uuid * Z) :=
  imap (fun index trabalho => (t_id trabalho, Z.of_nat index)) reordered.

(** Trabalhos.tsx 182-215 *)
Definition handleDragEnd (active : uuid) (over : option uuid) : M unit :=
  match over with
  | None => ret tt
  | Some over_id =>
      if bool_decide (active = over_id) then ret tt
      else
        let! ts := gets fila in
        match findIndex (fun t => t_id t = active) ts,
              findIndex (fun t => t_id t = over_id) ts with
        | Some oldIndex, Some newIndex =>
            let reordered := arrayMove ts oldIndex newIndex in
            setTrabalhos reordered ;;
            try_catch
              (let! r := call (upsert_prioridade (updates_of reordered)) in
               match r with
               | None => throw
               | Some _ => show (toast_success "Prioridade atualizada!")
               end)
              (show (toast_error "Erro ao reordenar trabalhos") ;;
               loadData)
        | _, _ => ret tt
        end
  end.

End Trabalhos.

(** ** The rest of the pages

    The handlers below belong to components whose state is not part of
    [World]; they take that state as an argument and return it as it is
    when the handler ends.  The store, the transport script and the toasts
    stay in the world. *)


(** [.from("trabalhos").insert({ pessoa_id, descricao, valor_total,
    prioridade })].  The id comes from [gen_random_uuid()] and is the
    primary key; [valor_pago] and [concluido] take their defaults 0 and
    false; [valor_total] is [NOT NULL] ([None] stands for a text that is
    no number) and [DECIMAL(10,2)], [prioridade] is [INTEGER], and a value
    that does not fit its column is refused (error 22003); [pessoa_id]
    references [pessoas]. *)
Definition insert_trabalho (new_id pessoa_id descricao : string)
  (valor_total : option money) (prioridade : Z) : DB -> option (unit * DB) :=
  fun d =>
    match valor_total with
    | None => None
    | Some total =>
        if bool_decide (Z.abs total < 10 ^ 10)
           && bool_decide (- 2 ^ 31 <= prioridade < 2 ^ 31)
           && bool_decide (pessoa_id ∈ map p_id (pessoas d))
           && bool_decide (new_id ∉ map t_id (trabalhos d))
        then Some (tt, set_trabalhos
                         (trabalhos d
                          ++ [mkTrabalho new_id pessoa_id descricao total 0 false prioridade])
                         d)
        else None
    end.

(** [.from("pessoas").insert({ nome, funcao })] *)
Definition insert_pessoa (new_id nome funcao : string) : DB -> option (unit * DB) :=
  fun d =>
    if bool_decide (new_id ∉ map p_id (pessoas d))
    then Some (tt, mkDB (pessoas d ++ [mkPessoa new_id nome funcao]) (trabalhos d)
                        (pagamentos_semanais d) (historico_pagamentos d))
    else None.

(** [.from("pessoas").delete().eq("id", x)] with the [ON DELETE CASCADE]
    of the migration: the work items of the person go, the slots and the
    history rows that reference one of these work items go, and the
    history rows that reference the person go. *)
Definition trabalhos_de (x : uuid) (d : DB) : list Trabalho :=
  filter (fun t => t_pessoa_id t = x) (trabalhos d).

Definition delete_pessoa (x : uuid) : DB -> option (unit * DB) :=
  fun d =>
    let gone := map t_id (trabalhos_de x d) in
    Some (tt, mkDB
                (filter (fun p => p_id p ≠ x) (pessoas d))
                (filter (fun t => t_pessoa_id t ≠ x) (trabalhos d))
                (filter (fun s => s_trabalho_id s ∉ gone) (pagamentos_semanais d))
                (filter (fun h => h_pessoa_id h ≠ x ∧ h_trabalho_id h ∉ gone)
                        (historico_pagamentos d))).

(** [.from("trabalhos").select("valor_total, valor_pago")
      .eq("pessoa_id", x).eq("concluido", false)] *)
Definition select_abertos (x : uuid) : DB -> option (list Trabalho * DB) :=
  fun d =>
    Some (filter (fun t => t_pessoa_id t = x ∧ t_concluido t = false) (trabalhos d), d).

(** [.from("historico_pagamentos").select("id, descricao_trabalho, valor,
    data_pagamento").eq("pessoa_id", x).order("data_pagamento",
    { ascending: false })].  [data_pagamento] is the time of the insert, so
    the newest row is the last of the table. *)
Definition select_historico (x : uuid) : DB -> option (list HistoricoPagamento * DB) :=
  fun d =>
    Some (reverse (filter (fun h => h_pessoa_id h = x) (historico_pagamentos d)), d).

(** [!s] for a string *)
Definition vazio (s : string) : bool := bool_decide (s = "").

Module TrabalhosForm.

(** The form of Trabalhos.tsx: [pessoaId], [descricao], [valorTotal],
    [submitting] *)
Record Form := mkForm {
  pessoaId : string;
  descricao : string;
  valorTotal : string;
  submitting : bool
}.

(** [trabalhos.length > 0 ? Math.max(...trabalhos.map((t) => t.prioridade)) : -1] *)
Definition maxPrioridade (trabalhos : list Trabalho) : Z :=
  match trabalhos with
  | [] => -1
  | t :: rest => foldl Z.max (t_prioridade t) (map t_prioridade rest)
  end.

(** Trabalhos.tsx 148-180.  [parseFloat] is the amount, to the centavo,
    of the number [parseFloat] reads from the text of the field, if it
    reads one; [new_id] is what [gen_random_uuid()] hands out. *)
Definition handleSubmit (parseFloat : string -> option money) (new_id : uuid)
  (form : Form) : M Form :=
  if vazio (pessoaId form) || vazio (descricao form) || vazio (valorTotal form)
  then show (toast_error "Preencha todos os campos") ;; ret form
  else
    let sending := mkForm (pessoaId form) (descricao form) (valorTotal form) true in
    let! form' :=
      try_catch
        (let! ts := gets fila in
         let! r := call (insert_trabalho new_id (pessoaId form) (descricao form)
                           (parseFloat (valorTotal form)) (maxPrioridade ts + 1)) in
         match r with
         | None => throw
         | Some _ =>
             Trabalhos.loadData ;;
             show (toast_success "Trabalho lançado com sucesso!") ;;
             ret (mkForm "" "" "" true)
         end)
        (show (toast_error "Erro ao lançar trabalho") ;; ret sending) in
    ret (mkForm (pessoaId form') (descricao form') (valorTotal form') false).

End TrabalhosForm.

Module Pessoas.

(** [PessoaDetalhes] of Pessoas.tsx *)
Record PessoaDetalhes := mkPessoaDetalhes {
  totalAPagar : money;
  totalPago : money;
  historico : list HistoricoPagamento
}.

(** The state of the page: [pessoas], [loading], [submitting],
    [pessoaSelecionada], [detalhes], [loadingDetalhes], [nome], [funcao] *)
Record Page := mkPage {
  lista : list Pessoa;
  loading : bool;
  submitting : bool;
  pessoaSelecionada : option Pessoa;
  detalhes : option PessoaDetalhes;
  loadingDetalhes : bool;
  nome : string;
  funcao : string
}.

Definition with_lista (l : list Pessoa) (pg : Page) : Page :=
  mkPage l (loading pg) (submitting pg) (pessoaSelecionada pg) (detalhes pg)
         (loadingDetalhes pg) (nome pg) (funcao pg).
Definition with_loading (x : bool) (pg : Page) : Page :=
  mkPage (lista pg) x (submitting pg) (pessoaSelecionada pg) (detalhes pg)
         (loadingDetalhes pg) (nome pg) (funcao pg).
Definition with_submitting (x : bool) (pg : Page) : Page :=
  mkPage (lista pg) (loading pg) x (pessoaSelecionada pg) (detalhes pg)
         (loadingDetalhes pg) (nome pg) (funcao pg).
Definition with_pessoaSelecionada (x : option Pessoa) (pg : Page) : Page :=
  mkPage (lista pg) (loading pg) (submitting pg) x (detalhes pg)
         (loadingDetalhes pg) (nome pg) (funcao pg).
Definition with_detalhes (x : option PessoaDetalhes) (pg : Page) : Page :=
  mkPage (lista pg) (loading pg) (submitting pg) (pessoaSelecionada pg) x
         (loadingDetalhes pg) (nome pg) (funcao pg).
Definition with_loadingDetalhes (x : bool) (pg : Page) : Page :=
  mkPage (lista pg) (loading pg) (submitting pg) (pessoaSelecionada pg) (detalhes pg)
         x (nome pg) (funcao pg).
Definition with_campos (n f : string) (pg : Page) : Page :=
  mkPage (lista pg) (loading pg) (submitting pg) (pessoaSelecionada pg) (detalhes pg)
         (loadingDetalhes pg) n f.

(** Pessoas.tsx 48-60 *)
Definition loadPessoas (pg : Page) : M Page :=
  let! pg' :=
    try_catch
      (let! r := call select_pessoas in
       match r with
       | None => throw
       | Some data => ret (with_lista data pg)
       end)
      (show (toast_error "Erro ao carregar pessoas") ;; ret pg) in
  ret (with_loading false pg').

(** [data.reduce((sum, t) => sum + (Number(t.valor_total) - Number(t.valor_pago)), 0)]
    and [data.reduce((sum, h) => sum + Number(h.valor), 0)] *)
Definition soma_a_pagar (ts : list Trabalho) : money :=
  foldl (fun sum t => sum + (t_valor_total t - t_valor_pago t)) 0 ts.

Definition soma_pago (hs : list HistoricoPagamento) : money :=
  foldl (fun sum h => sum + h_valor h) 0 hs.

(** Pessoas.tsx 62-95 *)
Definition loadDetalhes (pessoaId : uuid) (pg : Page) : M Page :=
  let carregando := with_loadingDetalhes true pg in
  let! pg' :=
    try_catch
      (let! res := promise_all (call (select_abertos pessoaId))
                               (call (select_historico pessoaId)) in
       match res with
       | (Some ts, Some hs) =>
           ret (with_detalhes
                  (Some (mkPessoaDetalhes (soma_a_pagar ts) (soma_pago hs) hs))
                  carregando)
       | _ => throw
       end)
      (show (toast_error "Erro ao carregar detalhes da pessoa") ;; ret carregando) in
  ret (with_loadingDetalhes false pg').

(** Pessoas.tsx 97-121 *)
Definition handleSubmit (new_id : uuid) (pg : Page) : M Page :=
  if vazio (nome pg) || vazio (funcao pg)
  then show (toast_error "Preencha todos os campos") ;; ret pg
  else
    let enviando := with_submitting true pg in
    let! pg' :=
      try_catch
        (let! r := call (insert_pessoa new_id (nome pg) (funcao pg)) in
         match r with
         | None => throw
         | Some _ =>
             let! pg1 := loadPessoas (with_campos "" "" enviando) in
             show (toast_success "Pessoa cadastrada com sucesso!") ;;
             ret pg1
         end)
        (show (toast_error "Erro ao cadastrar pessoa") ;; ret enviando) in
    ret (with_submitting false pg').

(** Pessoas.tsx 123-146; [confirmed] is the answer to [window.confirm] *)
Definition handleRemovePessoa (confirmed : bool) (pessoaId : uuid) (pg : Page) : M Page :=
  if negb confirmed then ret pg
  else
    let enviando := with_submitting true pg in
    let! pg' :=
      try_catch
        (let! r := call (delete_pessoa pessoaId) in
         match r with
         | None => throw
         | Some _ =>
             show (toast_success "Pessoa removida com sucesso!") ;;
             loadPessoas (with_pessoaSelecionada None enviando)
         end)
        (show (toast_error "Erro ao remover pessoa. Verifique se não há pagamentos semanais pendentes para esta pessoa.") ;;
         ret enviando) in
    ret (with_submitting false pg').

(** Pessoas.tsx 148-151 *)
Definition handlePessoaClick (pessoa : Pessoa) (pg : Page) : M Page :=
  loadDetalhes (p_id pessoa) (with_pessoaSelecionada (Some pessoa) pg).

End Pessoas.

(** The history rows of a work item name the person of that work item. *)
Definition historico_coerente (d : DB) : Prop :=
  Forall (fun h => Forall (fun t => t_id t = h_trabalho_id h ->
                                    t_pessoa_id t = h_pessoa_id h) (trabalhos d))
         (historico_pagamentos d).

#[global] Instance historico_coerente_dec d : Decision (historico_coerente d).
Proof. unfold historico_coerente. apply _. Defined.

(** ** The operations of the Dashboard and the states it reaches *)

Inductive operation :=
  | OpLoadSlots
  | OpFillEmptySlots (gen : nat -> uuid)
  | OpDragEnd (active : uuid) (over : option uuid)
  | OpRemove (id : uuid)
  | OpPayManually (confirmed : bool) (slot : PagamentoSemanal)
  | OpApprove
  | OpApprovePerRow.

Definition run (o : operation) : M unit :=
  match o with
  | OpLoadSlots => Dashboard.loadSlots
  | OpFillEmptySlots gen => Dashboard.fillEmptySlots gen
  | OpDragEnd active over => Dashboard.handleDragEnd active over
  | OpRemove id => Dashboard.handleRemove id
  | OpPayManually confirmed slot => Dashboard.handlePayManually confirmed slot
  | OpApprove => Dashboard.handleApprove
  | OpApprovePerRow => DashboardPerRow.handleApprove
  end.

(** The Dashboard when it mounts: [useState(Array(10).fill(null))],
    [useState(true)], [useState(false)]. *)
Definition mount (d : DB) (sc : list outcome) : World :=
  mkWorld d sc empty_board true false [] true [] 0.

(** The worlds the page can be in: it mounts, it runs its operations, and
    between two of them other clients may write the store and the
    transport may do as it pleases. *)
Inductive reachable : World -> Prop :=
  | reach_mount d sc : reachable (mount d sc)
  | reach_run o w : reachable w -> reachable (exec (run o) w)
  | reach_env d sc w : reachable w -> reachable (with_db d (with_script sc w)).

(** ** Assertions on handlers *)

(** A property of the world that a computation never breaks. *)
Definition maintains {A} (I : World -> Prop) (c : M A) : Prop :=
  forall w, I w -> I (snd (c w)).

(** Triples: from a world where [P] holds, [c] returns [a] in a world where
    [Q a] holds, or throws in a world where [E] holds. *)
Definition hoare {A} (P : World -> Prop) (c : M A)
  (Q : A -> World -> Prop) (E : World -> Prop) : Prop :=
  forall w, P w ->
    match c w with
    | (Val a, w') => Q a w'
    | (Throw, w') => E w'
    end.

(** A property of the board of the page, or of the store, as a property
    of the world. *)
Definition on_slots (P : Board -> Prop) (w : World) : Prop := P (slots w).
Definition on_db (P : DB -> Prop) (w : World) : Prop := P (db w).

(** ** Predicates of the specification *)

(** Capacity (§8): ten entries, at most ten occupied, the positions the
    slots name within 0..9 and distinct. *)
Definition posicoes_ocupadas (b : Board) : list Z := s_posicao <$> filled b.

Definition board_ok (b : Board) : Prop :=
  length b = 10%nat
  ∧ (length (filled b) ≤ 10)%nat
  ∧ Forall (fun p => 0 <= p < 10) (posicoes_ocupadas b)
  ∧ NoDup (posicoes_ocupadas b).

#[global] Instance board_ok_dec (b : Board) : Decision (board_ok b).
Proof. unfold board_ok. apply _. Defined.

(** The positions of a list of stored slots lie in 0..9 and no two of the
    slots share one.  The table has no constraint on [posicao]; this is
    what the writes of the page keep. *)
Definition posicoes_unicas (l : list PagamentoSemanal) : Prop :=
  Forall (fun p => 0 <= p < 10) (s_posicao <$> l) ∧ NoDup (s_posicao <$> l).

#[global] Instance posicoes_unicas_dec l : Decision (posicoes_unicas l).
Proof. unfold posicoes_unicas. apply _. Defined.

(** Priority contiguity (§8): the ranks of the pending work items are
    0..N-1, each once. *)
Definition ranks_contiguous (d : DB) : Prop :=
  t_prioridade <$> pendentes d ≡ₚ seqZ 0 (Z.of_nat (length (pendentes d))).

(** Money conservation (§8): the paid amount of every work item is the sum
    of the history rows that reference it. *)
Definition paid_in_history (d : DB) (trabalho_id : uuid) : money :=
  foldr Z.add 0
    (h_valor <$> filter (fun h => h_trabalho_id h = trabalho_id) (historico_pagamentos d)).

Definition conservation (d : DB) : Prop :=
  Forall (fun t => t_valor_pago t = paid_in_history d (t_id t)) (trabalhos d).

#[global] Instance conservation_dec (d : DB) : Decision (conservation d).
Proof. unfold conservation. apply _. Defined.

(** The invariant of a work item (§3). *)
Definition item_ok (t : Trabalho) : Prop :=
  0 <= t_valor_pago t <= t_valor_total t
  ∧ t_concluido t = (t_valor_pago t >=? t_valor_total t).

#[global] Instance item_ok_dec (t : Trabalho) : Decision (item_ok t).
Proof. unfold item_ok. apply _. Defined.

Definition items_ok (d : DB) : Prop := Forall item_ok (trabalhos d).

#[global] Instance items_ok_dec d : Decision (items_ok d).
Proof. unfold items_ok. apply _. Defined.

(** What the slots of a list are to pay to one work item. *)
Definition due (trabalho_id : uuid) (l : list PagamentoSemanal) : money :=
  foldr Z.add 0 (s_valor <$> filter (fun s => s_trabalho_id s = trabalho_id) l).

(** The row update of one settlement, as [approve_slot] computes it. *)
Definition settle (slot : PagamentoSemanal) (t : Trabalho) : Trabalho :=
  if bool_decide (t_id t = s_trabalho_id slot)
  then pay (t_valor_pago t + s_valor slot)
           (t_valor_pago t + s_valor slot >=? t_valor_total t) t
  else t.

(** Every work item is sound and stays within its total once the slots of
    [l] are paid to it; no slot of [l] has a negative amount. *)
Definition covers (l : list PagamentoSemanal) (T : list Trabalho) : Prop :=
  Forall (fun s => 0 <= s_valor s) l
  ∧ Forall (fun t => item_ok t ∧ t_valor_pago t + due (t_id t) l <= t_valor_total t) T.

#[global] Instance covers_dec l T : Decision (covers l T).
Proof. unfold covers. apply _. Defined.

(** The sum and the comparison of one turn of the per-row loop, done by
    the client on floats, are the decimal ones, and the sum fits the
    column: the float sum of [pago] and [valor] is stored as
    [pago + valor], and it compares with [total] as [pago + valor] does. *)
Definition exato (pago valor total : money) : Prop :=
  to_db (PrimFloat.add (to_js pago) (to_js valor)) = Some (pago + valor)
  ∧ PrimFloat.leb (to_js total) (PrimFloat.add (to_js pago) (to_js valor))
    = (pago + valor >=? total).

#[global] Instance exato_dec pago valor total : Decision (exato pago valor total).
Proof. unfold exato. apply _. Defined.

(** [exato] for the work item a slot names. *)
Definition exato_em (s : PagamentoSemanal) (T : list Trabalho) : Prop :=
  Forall (fun t => t_id t = s_trabalho_id s ->
                   exato (t_valor_pago t) (s_valor s) (t_valor_total t)) T.

#[global] Instance exato_em_dec s T : Decision (exato_em s T).
Proof. unfold exato_em. apply _. Defined.

(** [exato] for every turn of the loop over [l], whichever of the earlier
    turns took effect. *)
Fixpoint exatos (l : list PagamentoSemanal) (T : list Trabalho) : Prop :=
  match l with
  | [] => True
  | s :: rest => exato_em s T ∧ exatos rest T ∧ exatos rest (settle s <$> T)
  end.

#[global] Instance exatos_dec l T : Decision (exatos l T).
Proof. revert T. induction l as [|s l IH]; intros T; simpl; apply _. Defined.

(** The foreign key of [trabalhos.pessoa_id]. *)
Definition fk_ok (d : DB) : Prop :=
  Forall (fun t => t_pessoa_id t ∈ p_id <$> pessoas d) (trabalhos d).

#[global] Instance fk_ok_dec d : Decision (fk_ok d).
Proof. unfold fk_ok. apply _. Defined.

(** The store after one turn of the per-row loop in which every call
    reached the database, for the slot of the work item [t]. *)
Definition settled (slot : PagamentoSemanal) (t : Trabalho) (d : DB) : DB :=
  set_trabalhos (settle slot <$> trabalhos d)
    (set_historico_pagamentos
       (historico_pagamentos d ++ [historico_of (t_pessoa_id t) slot]) d).

(** No fault to come, and a store that is consistent. *)
Definition sound_and_quiet (w : World) : Prop :=
  script w = [] ∧ fk_ok (db w) ∧ conservation (db w).

(** What an operation of the Dashboard needs for the work items to stay
    sound.  A manual settlement pays its slot to the work item; the bulk
    approval of the page as it stands pays the stored slots; the per-row
    approval pays the slots the page holds, and computes each new paid
    amount and its comparison with the total on floats.  The other
    operations write no work item. *)
Definition pode (o : operation) (w : World) : Prop :=
  match o with
  | OpPayManually confirmed slot =>
      confirmed = true -> covers [slot] (trabalhos (db w))
  | OpApprove =>
      covers (order_by_posicao (pagamentos_semanais (db w))) (trabalhos (db w))
  | OpApprovePerRow =>
      covers (filled (slots w)) (trabalhos (db w))
      ∧ exatos (filled (slots w)) (trabalhos (db w))
  | _ => True
  end.

#[global] Instance pode_dec o w : Decision (pode o w).
Proof. destruct o; simpl; apply _. Defined.


Fixpoint podem (os : list operation) (w : World) : Prop :=
  match os with
  | [] => True
  | o :: rest => pode o w ∧ podem rest (exec (run o) w)
  end.

#[global] Instance podem_dec os w : Decision (podem os w).
Proof. revert w. induction os as [|o os IH]; intros w; simpl; apply _. Defined.

(** ** Consistency of the store and faults of the transport *)

#[global] Instance outcome_eq_dec : EqDecision outcome.
Proof. solve_decision. Defined.

(** Whether the next [n] storage calls all reach the database. *)
Definition all_reach (n : nat) (w : World) : bool :=
  bool_decide (Forall (eq reaches) (take n (script w))).

(** The foreign keys of the migration: [trabalhos.pessoa_id],
    [pagamentos_semanais.trabalho_id], [historico_pagamentos.pessoa_id] and
    [historico_pagamentos.trabalho_id]. *)
Definition integridade (d : DB) : Prop :=
  fk_ok d
  ∧ Forall (fun s => s_trabalho_id s ∈ t_id <$> trabalhos d) (pagamentos_semanais d)
  ∧ Forall (fun h => h_pessoa_id h ∈ p_id <$> pessoas d
                     ∧ h_trabalho_id h ∈ t_id <$> trabalhos d)
           (historico_pagamentos d).

#[global] Instance integridade_dec d : Decision (integridade d).
Proof. unfold integridade. apply _. Defined.


(** ** Sample states *)

Definition ana : Pessoa := mkPessoa "p1" "Ana" "Dev".

Definition site : Trabalho := mkTrabalho "t1" "p1" "site" 10000 0 false 0.
Definition app : Trabalho := mkTrabalho "t2" "p1" "app" 5000 0 false 1.
Definition logo : Trabalho := mkTrabalho "t3" "p1" "logo" 2000 0 false 2.

Definition slot_site : PagamentoSemanal :=
  mkPagamentoSemanal "s1" "t1" "Ana" "Dev" "site" 10000 0.
Definition slot_app : PagamentoSemanal :=
  mkPagamentoSemanal "s2" "t2" "Ana" "Dev" "app" 5000 1.

(** Two work items, each on the board with its full balance. *)
Definition two_slots : DB := mkDB [ana] [site; app] [slot_site; slot_app] [].

(** One work item on the board. *)
Definition one_slot : DB := mkDB [ana] [site] [slot_site] [].

(** The backlog after the item of rank 1 was paid in full: the pending
    ranks are 0 and 2. *)
Definition backlog_with_gap : DB :=
  mkDB [ana] [site; mkTrabalho "t2" "p1" "app" 5000 5000 true 1; logo] []
       [mkHistoricoPagamento "p1" "t2" "Ana" "Dev" "app" 5000].

(** A work item of 0.80 of which 0.70 are paid, on the board with its
    remaining 0.10. *)
Definition quase_pago : DB :=
  mkDB [ana] [mkTrabalho "t1" "p1" "site" 80 70 false 0]
       [mkPagamentoSemanal "s1" "t1" "Ana" "Dev" "site" 10 0]
       [mkHistoricoPagamento "p1" "t1" "Ana" "Dev" "site" 70].

(** Three pending items with ranks 0, 1, 2 and nothing on the board. *)
Definition backlog_of_three : DB := mkDB [ana] [site; app; logo] [] [].

(** Twelve pending items A..L with ranks 0..11 and an empty board. *)
Definition item (k : nat) : Trabalho :=
  mkTrabalho (String (Ascii.ascii_of_nat (65 + k)) EmptyString) "p1" "item"
             1000 0 false (Z.of_nat k).

Definition backlog_of_twelve : DB := mkDB [ana] (item <$> seq 0 12) [] [].

(** A page that has loaded the store [d], with the transport script [sc]. *)
Definition page (d : DB) (sc : list outcome) : World :=
  mkWorld d sc (listSlots d) false false
          (merge_sort prioridade_le (pendentes d)) false [] 0.

(** * Properties *)

(** ** The monad *)

Section Maintains.
Context (I : World -> Prop).

Lemma maintains_ret {A} (a : A) : maintains I (ret a).
Proof. by intros w Hw. Qed.

Lemma maintains_throw {A} : maintains I (@throw A).
Proof. by intros w Hw. Qed.

Lemma maintains_bind {A B} (c : M A) (k : A -> M B) :
  maintains I c -> (forall a, maintains I (k a)) -> maintains I (bind c k).
Proof.
  intros Hc Hk w Hw. unfold bind. specialize (Hc w Hw).
  destruct (c w) as [[a|] w1]; simpl in *; [by apply Hk | done].
Qed.

Lemma maintains_try_catch {A} (body handler : M A) :
  maintains I body -> maintains I handler -> maintains I (try_catch body handler).
Proof.
  intros Hb Hh w Hw. unfold try_catch. specialize (Hb w Hw).
  destruct (body w) as [[a|] w1]; simpl in *; [done | by apply Hh].
Qed.

Lemma maintains_finally {A} (body : M A) (fin : M unit) :
  maintains I body -> maintains I fin -> maintains I (finally body fin).
Proof.
  intros Hb Hf w Hw. unfold finally. specialize (Hb w Hw).
  destruct (body w) as [r w1]; simpl in *. by apply Hf.
Qed.

Lemma maintains_modify (f : World -> World) :
  (forall w, I w -> I (f w)) -> maintains I (modify f).
Proof. intros Hf w Hw. by apply Hf. Qed.

Lemma maintains_gets {A B} (f : World -> A) (k : A -> M B) :
  (forall w, I w -> I (snd (k (f w) w))) -> maintains I (bind (gets f) k).
Proof. intros Hk w Hw. unfold bind, gets. by apply Hk. Qed.

Lemma maintains_call {A} (q : DB -> option (A * DB)) :
  (forall w sc, I w -> I (with_script sc w)) ->
  (forall w sc a d, I w -> q (db w) = Some (a, d) -> I (with_db d (with_script sc w))) ->
  maintains I (call q).
Proof.
  intros Hsc Hdb w Hw. unfold call.
  destruct (script w) as [|[] rest]; simpl.
  - destruct (q (db w)) as [[a d]|] eqn:E; simpl; eauto.
  - destruct (q (db w)) as [[a d]|] eqn:E; simpl; eauto.
  - eauto.
  - eauto.
Qed.

Lemma maintains_forM {A} (l : list A) (body : A -> M unit) :
  (forall x, maintains I (body x)) -> maintains I (forM l body).
Proof.
  intros Hb. induction l as [|x l IH]; simpl.
  - apply maintains_ret.
  - apply maintains_bind; [apply Hb | intros _; apply IH].
Qed.
End Maintains.

(** ** Storage calls, equationally *)

Lemma call_eq {A} (q : DB -> option (A * DB)) (w : World) :
  call q w =
    if next_rejects w then (Throw, with_script (tail (script w)) w)
    else
      match (if goes_through w then q (db w) else None) with
      | Some (a, d) => (Val (Some a), with_db d (with_script (tail (script w)) w))
      | None => (Val None, with_script (tail (script w)) w)
      end.
Proof.
  unfold call, goes_through, next_rejects.
  destruct (script w) as [|[] rest]; simpl; try done.
Qed.

Lemma goes_through_not_rejects (w : World) :
  goes_through w = true -> next_rejects w = false.
Proof.
  unfold goes_through, next_rejects. by destruct (script w) as [|[] rest].
Qed.

Section Hoare.
Context {A : Type}.
Implicit Types (P : World -> Prop) (E : World -> Prop).

Lemma hoare_ret (a : A) P (Q : A -> World -> Prop) E :
  (forall w, P w -> Q a w) -> hoare P (ret a) Q E.
Proof. intros HQ w Hw. by apply HQ. Qed.

Lemma hoare_throw P (Q : A -> World -> Prop) E :
  (forall w, P w -> E w) -> hoare P (@throw A) Q E.
Proof. intros HE w Hw. by apply HE. Qed.

Lemma hoare_bind {B} (c : M B) (k : B -> M A) P (R : B -> World -> Prop)
  (Q : A -> World -> Prop) E :
  hoare P c R E -> (forall b, hoare (R b) (k b) Q E) -> hoare P (bind c k) Q E.
Proof.
  intros Hc Hk w Hw. unfold bind. specialize (Hc w Hw).
  destruct (c w) as [[b|] w1]; [by apply Hk | done].
Qed.

Lemma hoare_conseq P P' (Q Q' : A -> World -> Prop) E E' (c : M A) :
  hoare P c Q E ->
  (forall w, P' w -> P w) -> (forall a w, Q a w -> Q' a w) -> (forall w, E w -> E' w) ->
  hoare P' c Q' E'.
Proof.
  intros Hc HP HQ HE w Hw. specialize (Hc w (HP w Hw)).
  destruct (c w) as [[a|] w1]; auto.
Qed.

Lemma hoare_try_catch (body handler : M A) P (Q : A -> World -> Prop) E E' :
  hoare P body Q E' -> hoare E' handler Q E -> hoare P (try_catch body handler) Q E.
Proof.
  intros Hb Hh w Hw. unfold try_catch. specialize (Hb w Hw).
  destruct (body w) as [[a|] w1]; [done | by apply Hh].
Qed.

Lemma hoare_finally (body : M A) (fin : M unit) P (Q Q' : A -> World -> Prop) E E' :
  hoare P body Q E ->
  (forall a w, Q a w -> Q' a (snd (fin w))) ->
  (forall w, E w -> E' (snd (fin w))) ->
  hoare P (finally body fin) Q' E'.
Proof.
  intros Hb HQ HE w Hw. unfold finally. specialize (Hb w Hw).
  destruct (body w) as [[a|] w1]; auto.
Qed.

Lemma hoare_gets {B} (f : World -> B) (k : B -> M A) P (Q : A -> World -> Prop) E :
  (forall b, hoare (fun w => P w ∧ f w = b) (k b) Q E) -> hoare P (bind (gets f) k) Q E.
Proof. intros Hk w Hw. unfold bind, gets. by apply (Hk (f w) w). Qed.
End Hoare.

Lemma hoare_modify (f : World -> World) (P : World -> Prop)
  (Q : unit -> World -> Prop) (E : World -> Prop) :
  (forall w, P w -> Q tt (f w)) -> hoare P (modify f) Q E.
Proof. intros Hf w Hw. by apply Hf. Qed.


(** A loop whose invariant is indexed by the elements still to come. *)
Lemma hoare_forM {A} (body : A -> M unit) (J : list A -> World -> Prop)
  (E : World -> Prop) (l : list A) :
  (forall x rest, hoare (J (x :: rest)) (body x) (fun _ => J rest) E) ->
  hoare (J l) (forM l body) (fun _ => J []) E.
Proof.
  intros Hbody. induction l as [|x l IH]; simpl.
  - by apply hoare_ret.
  - eapply hoare_bind; [apply Hbody | intros ?; apply IH].
Qed.

Lemma maintains_hoare {A} (I : World -> Prop) (c : M A) :
  maintains I c -> hoare I c (fun _ => I) I.
Proof.
  intros Hc w Hw. specialize (Hc w Hw). by destruct (c w) as [[a|] w1].
Qed.

(** ** The board view *)

Lemma place_length (acc : Board) (item : PagamentoSemanal) :
  length (place acc item) = length acc.
Proof. unfold place. case_match; [apply length_insert | done]. Qed.

Lemma foldl_place_length (data : list PagamentoSemanal) (acc : Board) :
  length (foldl place acc data) = length acc.
Proof.
  revert acc. induction data as [|a data IH]; intros acc; simpl; [done|].
  by rewrite IH, place_length.
Qed.

Lemma build_board_length (data : list PagamentoSemanal) :
  length (build_board data) = 10%nat.
Proof. unfold build_board. by rewrite foldl_place_length. Qed.

(** The last row of [data] whose position is [i]. *)
Lemma foldl_place_lookup (data : list PagamentoSemanal) (acc : Board) (i : nat) :
  (i < length acc)%nat -> length acc = 10%nat ->
  foldl place acc data !! i =
    match last (filter (fun r => s_posicao r = Z.of_nat i) data) with
    | Some r => Some (Some r)
    | None => acc !! i
    end.
Proof.
  revert acc. induction data as [|a data IH]; intros acc Hi Hlen; simpl; [done|].
  rewrite IH by (by rewrite place_length).
  rewrite filter_cons. destruct (decide (s_posicao a = Z.of_nat i)) as [Heq|Hne].
  - rewrite last_cons. destruct (last _) as [r|]; [done|].
    unfold place. rewrite Heq.
    replace (0 <=? Z.of_nat i) with true by (symmetry; apply Z.leb_le; lia).
    replace (Z.of_nat i <? 10) with true by (symmetry; apply Z.ltb_lt; lia).
    simpl. rewrite Nat2Z.id. by apply list_lookup_insert_eq.
  - destruct (last _) as [r|]; [done|].
    unfold place. case_match; [|done].
    apply list_lookup_insert_ne. intros <-.
    apply andb_true_iff in H as [H1 H2]. apply Z.leb_le in H1. lia.
Qed.

Lemma build_board_lookup (data : list PagamentoSemanal) (i : nat) :
  (i < 10)%nat ->
  build_board data !! i = Some (last (filter (fun r => s_posicao r = Z.of_nat i) data)).
Proof.
  intros Hi. unfold build_board.
  rewrite foldl_place_lookup by (by rewrite ?length_replicate).
  destruct (last _); [done|]. unfold empty_board. by rewrite lookup_replicate_2.
Qed.

Lemma build_board_elem (data : list PagamentoSemanal) (i : nat) (r : PagamentoSemanal) :
  build_board data !! i = Some (Some r) ->
  (i < 10)%nat ∧ s_posicao r = Z.of_nat i ∧ r ∈ data.
Proof.
  intros H. assert (i < 10)%nat as Hi.
  { apply lookup_lt_Some in H. by rewrite build_board_length in H. }
  split; [done|]. rewrite build_board_lookup in H by done.
  injection H as H. apply last_Some_elem_of in H.
  apply list_elem_of_filter in H. done.
Qed.

Lemma build_board_shape (data : list PagamentoSemanal) :
  length (build_board data) = 10%nat
  ∧ (forall i : nat, (i < 10)%nat ->
       build_board data !! i
       = Some (last (filter (fun r => s_posicao r = Z.of_nat i) data)))
  ∧ (forall r, Some r ∈ build_board data -> 0 <= s_posicao r < 10 ∧ r ∈ data)
  ∧ (forall r, r ∈ data -> ¬ (0 <= s_posicao r < 10) -> Some r ∉ build_board data).
Proof.
  split; [apply build_board_length|].
  split; [intros i Hi; by apply build_board_lookup|].
  assert (forall r, Some r ∈ build_board data -> 0 <= s_posicao r < 10 ∧ r ∈ data) as Hin.
  { intros r Hr. apply list_elem_of_lookup in Hr as [i Hi].
    apply build_board_elem in Hi as (Hlt & Hpos & Hdata). split; [lia | done]. }
  split; [done|].
  intros r _ Hout Hr. apply Hin in Hr as [Hr _]. lia.
Qed.

#[global] Instance posicao_le_total : Total posicao_le.
Proof. intros a b. unfold posicao_le. lia. Qed.

Lemma loadSlots_slots (w : World) :
  slots (exec Dashboard.loadSlots w)
  = if goes_through w then listSlots (db w) else slots w.
Proof.
  unfold exec, Dashboard.loadSlots, finally, try_catch, bind.
  rewrite call_eq. unfold select_slots.
  destruct (goes_through w) eqn:Hgo;
    [by rewrite (goes_through_not_rejects w Hgo) | by destruct (next_rejects w)].
Qed.

(** C10: [loadSlots] iterates over the stored rows by ascending position
    and, whatever these rows are, shows a board of exactly ten entries.
    The entry at position [i] is the last row of the iteration whose
    [posicao] is [i], and empty when there is none: of two rows with the
    same position only the later one is shown.  A row whose position is
    outside 0..9 is on no entry of the board. *)
Theorem loadSlots_board_shape (w : World) :
  let data := order_by_posicao (pagamentos_semanais (db w)) in
  let board := build_board data in
  slots (exec Dashboard.loadSlots w) = (if goes_through w then board else slots w)
  ∧ data ≡ₚ pagamentos_semanais (db w)
  ∧ Sorted posicao_le data
  ∧ length board = 10%nat
  ∧ (forall i : nat, (i < 10)%nat ->
       board !! i = Some (last (filter (fun r => s_posicao r = Z.of_nat i) data)))
  ∧ (forall r, Some r ∈ board -> 0 <= s_posicao r < 10 ∧ r ∈ data)
  ∧ (forall r, r ∈ data -> ¬ (0 <= s_posicao r < 10) -> Some r ∉ board).
Proof.
  intros data board.
  split; [apply loadSlots_slots|].
  split; [apply merge_sort_Permutation|].
  split; [apply Sorted_merge_sort; apply _|].
  apply build_board_shape.
Qed.

Lemma filled_length (b : Board) : (length (filled b) ≤ length b)%nat.
Proof.
  unfold filled. induction b as [|[r|] b IH]; cbn in *; lia.
Qed.

(** A board whose occupied entries sit at the index their row names, read
    from offset [k]: the positions are distinct and within the board. *)
Lemma aligned_positions (b : Board) (k : nat) :
  (forall i r, b !! i = Some (Some r) -> s_posicao r = Z.of_nat (k + i)) ->
  NoDup (posicoes_ocupadas b)
  ∧ Forall (fun p => Z.of_nat k <= p < Z.of_nat (k + length b)) (posicoes_ocupadas b).
Proof.
  revert k. unfold posicoes_ocupadas, filled.
  induction b as [|x b IH]; intros k Hal; simpl.
  - split; constructor.
  - destruct (IH (S k)) as [Hnd Hall].
    { intros i r Hi. rewrite (Hal (S i) r Hi). lia. }
    assert (Forall (fun p => Z.of_nat k <= p < Z.of_nat (k + S (length b)))
                   (s_posicao <$> omap id b)) as Hall'.
    { eapply Forall_impl; [exact Hall|]. simpl. intros p Hp. lia. }
    destruct x as [r|]; simpl; [|done].
    pose proof (Hal 0%nat r eq_refl) as Hr. split.
    + constructor; [|done]. intros Hin.
      rewrite Forall_forall in Hall. apply Hall in Hin. lia.
    + constructor; [lia | done].
Qed.

Lemma build_board_ok (data : list PagamentoSemanal) : board_ok (build_board data).
Proof.
  pose proof (build_board_length data) as Hlen.
  destruct (aligned_positions (build_board data) 0) as [Hnd Hall].
  { intros i r Hi. by apply build_board_elem in Hi as (_ & -> & _). }
  unfold board_ok. rewrite Hlen in Hall.
  pose proof (filled_length (build_board data)). repeat split; [done | lia | | done].
  eapply Forall_impl; [exact Hall|]. simpl. intros p Hp. lia.
Qed.

Lemma listSlots_ok (d : DB) : board_ok (listSlots d).
Proof. apply build_board_ok. Qed.

(** ** [arrayMove] *)

Lemma arrayMove_Permutation {A} (l : list A) (from to : nat) :
  arrayMove l from to ≡ₚ l.
Proof.
  unfold arrayMove. destruct (l !! from) as [x|] eqn:E; [|done].
  rewrite <- Permutation_middle, take_drop. symmetry. by apply delete_Permutation.
Qed.

Lemma arrayMove_length {A} (l : list A) (from to : nat) :
  length (arrayMove l from to) = length l.
Proof. by rewrite arrayMove_Permutation. Qed.

Lemma arrayMove_board_ok (b : Board) (from to : nat) :
  board_ok b -> board_ok (arrayMove b from to).
Proof.
  unfold board_ok, posicoes_ocupadas, filled.
  rewrite arrayMove_length. by rewrite (arrayMove_Permutation b from to).
Qed.

(** ** What the operations do to the board of the page *)

Ltac maintain_step :=
  lazymatch goal with
  | |- maintains _ (ret _) => apply maintains_ret
  | |- maintains _ throw => apply maintains_throw
  | |- maintains _ (bind (gets _) _) => fail
  | |- maintains _ (bind _ _) => apply maintains_bind; [|intros ?]
  | |- maintains _ (try_catch _ _) => apply maintains_try_catch
  | |- maintains _ (finally _ _) => apply maintains_finally
  | |- maintains _ (forM _ _) => apply maintains_forM; intros ?
  | |- maintains _ (call _) => apply maintains_call; [by intros | try by intros]
  | |- maintains _ (modify _) => apply maintains_modify; try by intros
  | |- maintains _ (match ?x with _ => _ end) => destruct x
  end.

Ltac maintain := repeat maintain_step.

Section BoardInvariant.
Context (P : Board -> Prop).
Hypothesis P_build : forall data, P (build_board data).
Hypothesis P_move : forall b from to, P b -> P (arrayMove b from to).

Local Abbreviation I := (on_slots P).

Lemma gets_slots_maintains {B} (k : Board -> M B) :
  (forall sl, P sl -> maintains I (k sl)) -> maintains I (bind (gets slots) k).
Proof. intros Hk. apply maintains_gets. intros w Hw. by apply (Hk (slots w) Hw w Hw). Qed.

Lemma loadSlots_maintains : maintains I Dashboard.loadSlots.
Proof.
  unfold Dashboard.loadSlots, setSlots, setLoading, show. maintain.
  intros w _. apply P_build.
Qed.

Lemma handleRemove_maintains id : maintains I (Dashboard.handleRemove id).
Proof.
  unfold Dashboard.handleRemove, show. maintain. apply loadSlots_maintains.
Qed.

Lemma run_maintains (o : operation) : maintains I (run o).
Proof.
  destruct o as [|gen|active over|id|confirmed slot| |]; simpl.
  - apply loadSlots_maintains.
  - unfold Dashboard.fillEmptySlots, show. maintain. apply loadSlots_maintains.
  - unfold Dashboard.handleDragEnd. destruct over as [over_id|]; [|maintain].
    case_bool_decide; [maintain|]. apply gets_slots_maintains. intros sl Hsl.
    unfold setSlots, show. maintain.
    + intros w _. by apply P_move.
    + apply loadSlots_maintains.
  - apply handleRemove_maintains.
  - unfold Dashboard.handlePayManually, setApproving, show.
    destruct confirmed; simpl; maintain. apply handleRemove_maintains.
  - unfold Dashboard.handleApprove, setApproving, show, setTimeout_fillEmptySlots.
    maintain. apply gets_slots_maintains. intros sl Hsl.
    case_bool_decide; maintain. apply loadSlots_maintains.
  - unfold DashboardPerRow.handleApprove, DashboardPerRow.approve_slot,
      setApproving, show, setTimeout_fillEmptySlots.
    maintain. apply gets_slots_maintains. intros sl Hsl.
    case_bool_decide; maintain. apply loadSlots_maintains.
Qed.
End BoardInvariant.

Lemma empty_board_ok : board_ok empty_board.
Proof. apply (build_board_ok []). Qed.

Lemma loadSlots_db (w : World) : db (exec Dashboard.loadSlots w) = db w.
Proof.
  unfold exec, Dashboard.loadSlots, finally, try_catch, bind.
  rewrite call_eq. unfold select_slots.
  by destruct (next_rejects w), (goes_through w).
Qed.

(** ** Removing a slot *)

Lemma handleRemove_db (id : uuid) (w : World) :
  db (exec (Dashboard.handleRemove id) w) =
    if goes_through w
    then set_pagamentos_semanais
           (filter (fun s => s_id s ≠ id) (pagamentos_semanais (db w))) (db w)
    else db w.
Proof.
  unfold exec, Dashboard.handleRemove, try_catch, bind at 1.
  rewrite call_eq. unfold delete_slot.
  destruct (goes_through w) eqn:Hgo;
    [rewrite (goes_through_not_rejects w Hgo) | by destruct (next_rejects w)].
  unfold bind.
  match goal with
  | |- context [Dashboard.loadSlots ?w1] =>
      pose proof (loadSlots_db w1) as H; unfold exec in H;
      destruct (Dashboard.loadSlots w1) as [[[]|] w2]
  end; simpl in *; done.
Qed.

(** C9: [handleRemove] touches the slot table only.  The work items (their
    paid amounts and completion flags with them), the history and the
    people are what they were; the slots with another id are exactly the
    ones there were; and when the delete reaches the database no slot with
    the removed id is left. *)
Theorem handleRemove_deletes_only_the_slot (id : uuid) (w : World) :
  let w' := exec (Dashboard.handleRemove id) w in
  trabalhos (db w') = trabalhos (db w)
  ∧ historico_pagamentos (db w') = historico_pagamentos (db w)
  ∧ pessoas (db w') = pessoas (db w)
  ∧ filter (fun s => s_id s ≠ id) (pagamentos_semanais (db w'))
    = filter (fun s => s_id s ≠ id) (pagamentos_semanais (db w))
  ∧ (if goes_through w
     then pagamentos_semanais (db w')
          = filter (fun s => s_id s ≠ id) (pagamentos_semanais (db w))
     else pagamentos_semanais (db w') = pagamentos_semanais (db w)).
Proof.
  intros w'. subst w'. rewrite handleRemove_db.
  destruct (goes_through w); simpl; repeat split; try done.
  by rewrite list_filter_filter_l.
Qed.

(** ** Approving an empty board *)

(** C5: with no occupied slot on the board of the page, [handleApprove]
    (either version) makes no storage call: the store and the transport
    script are untouched, the board is untouched, no refill is scheduled,
    and the one thing that happens is the report "Nenhum pagamento para
    aprovar" shown to the operator before the handler returns. *)
Theorem handleApprove_empty_board (w : World) :
  filled (slots w) = [] ->
  exec Dashboard.handleApprove w
  = with_approving false
      (with_toasts (toasts w ++ [toast_info "Nenhum pagamento para aprovar."]) w)
  ∧ exec DashboardPerRow.handleApprove w
    = with_approving false
        (with_toasts (toasts w ++ [toast_error "Nenhum pagamento para aprovar"]) w)
  ∧ db (exec Dashboard.handleApprove w) = db w
  ∧ db (exec DashboardPerRow.handleApprove w) = db w.
Proof.
  intros Hempty.
  assert (exec Dashboard.handleApprove w
          = with_approving false
              (with_toasts (toasts w ++ [toast_info "Nenhum pagamento para aprovar."]) w)) as H1.
  { unfold exec, Dashboard.handleApprove, finally, try_catch, bind, gets,
      setApproving, modify. simpl. rewrite Hempty. reflexivity. }
  assert (exec DashboardPerRow.handleApprove w
          = with_approving false
              (with_toasts (toasts w ++ [toast_error "Nenhum pagamento para aprovar"]) w)) as H2.
  { unfold exec, DashboardPerRow.handleApprove, finally, try_catch, bind, gets,
      setApproving, modify. simpl. rewrite Hempty. reflexivity. }
  rewrite H1, H2. done.
Qed.

Lemma handleApprove_empty_board_witness :
  filled (slots (page backlog_of_three [])) = []
  ∧ (exec Dashboard.handleApprove (page backlog_of_three [])
     = with_approving false
         (with_toasts (toasts (page backlog_of_three [])
                       ++ [toast_info "Nenhum pagamento para aprovar."])
                      (page backlog_of_three []))
     ∧ exec DashboardPerRow.handleApprove (page backlog_of_three [])
       = with_approving false
           (with_toasts (toasts (page backlog_of_three [])
                         ++ [toast_error "Nenhum pagamento para aprovar"])
                        (page backlog_of_three []))
     ∧ db (exec Dashboard.handleApprove (page backlog_of_three [])) = backlog_of_three
     ∧ db (exec DashboardPerRow.handleApprove (page backlog_of_three [])) = backlog_of_three).
Proof.
  split; [reflexivity|].
  apply (handleApprove_empty_board (page backlog_of_three [])). reflexivity.
Defined.

(** ** Reordering the backlog *)

Lemma findIndex_Some {A} (P : A -> Prop) `{forall x, Decision (P x)} (l : list A) (i : nat) :
  findIndex P l = Some i -> exists x, l !! i = Some x ∧ P x.
Proof.
  unfold findIndex. intros Hfind.
  destruct (list_find P l) as [[j x]|] eqn:E; [|done].
  simpl in Hfind. injection Hfind as ->.
  apply list_find_Some in E as (Hx & HP & _). eauto.
Qed.

(** C8: the claim fails of the code.  [handleDragEnd] sends the new ranks
    as rows of the shape [{ id, prioridade }] through [upsert]; the
    database refuses such rows, the handler shows its error toast and
    reloads.  With every call reaching the database, a drag of the last of
    three pending items onto the first leaves the store as it was: the
    reloaded list is in the old order, the moved item is not at index 0 and
    no rank was written.  Where the pending ranks have a gap (0 and 2, the
    item of rank 1 was paid in full) the same drag leaves the gap. *)
Theorem reorderBacklog_write_refused :
  let w := page backlog_of_three [] in
  let w' := exec (Trabalhos.handleDragEnd "t3" (Some "t1")) w in
  let g := page backlog_with_gap [] in
  let g' := exec (Trabalhos.handleDragEnd "t3" (Some "t1")) g in
  (findIndex (fun t => t_id t = "t3") (fila w) = Some 2%nat
   ∧ findIndex (fun t => t_id t = "t1") (fila w) = Some 0%nat
   ∧ db w' = db w
   ∧ t_id <$> fila w' = ["t1"; "t2"; "t3"]
   ∧ (fun t => (t_id t, t_prioridade t)) <$> trabalhos (db w')
     = [("t1", 0); ("t2", 1); ("t3", 2)]
   ∧ toasts w' = [toast_error "Erro ao reordenar trabalhos"])
  ∧ (db g' = db g
     ∧ t_id <$> fila g' = ["t1"; "t3"]
     ∧ t_prioridade <$> pendentes (db g') = [0; 2]
     ∧ ¬ ranks_contiguous (db g')
     ∧ toasts g' = [toast_error "Erro ao reordenar trabalhos"]).
Proof.
  repeat split; try reflexivity.
  unfold ranks_contiguous. vm_compute. intros Hperm.
  assert (2 ∈ [0; 1]) as Hin by (rewrite <- Hperm, !elem_of_cons; auto).
  rewrite !elem_of_cons, elem_of_nil in Hin. lia.
Qed.

(** Dropping a pending item onto itself is a reorder to the index it
    already has, and [handleDragEnd] returns before it sends anything:
    with the pending ranks 0 and 2 the ranks stay 0 and 2. *)
Lemma reorder_onto_itself_keeps_gap :
  let w := page backlog_with_gap [] in
  let w' := exec (Trabalhos.handleDragEnd "t1" (Some "t1")) w in
  findIndex (fun t => t_id t = "t1") (fila w) = Some 0%nat
  ∧ w' = w
  ∧ t_prioridade <$> pendentes (db w') = [0; 2]
  ∧ ¬ ranks_contiguous (db w').
Proof.
  repeat split; try reflexivity.
  unfold ranks_contiguous. vm_compute. intros Hperm.
  assert (2 ∈ [0; 1]) as Hin by (rewrite <- Hperm, !elem_of_cons; auto).
  rewrite !elem_of_cons, elem_of_nil in Hin. lia.
Qed.

(** ** Settlement under storage faults *)

(** C1, at a failing input: two occupied slots, and the eighth storage
    call of the per-row [handleApprove] (the balance update of the second
    slot) fails.  When the call resolves with an error, both history rows
    are written, only the first work item is paid, the board is cleared
    all the same and the operator is told the payments were approved.
    When the call throws, both history rows are written, only the first
    work item is paid and both slots stay.  Either way the final store is
    neither the store before the call nor the store of the run without
    fault. *)
Theorem handleApprove_per_row_partial_failure :
  let before := page two_slots [] in
  let w1 := exec DashboardPerRow.handleApprove
              (page two_slots [reaches; reaches; reaches; reaches;
                               reaches; reaches; reaches; errors]) in
  let w2 := exec DashboardPerRow.handleApprove
              (page two_slots [reaches; reaches; reaches; reaches;
                               reaches; reaches; reaches; rejects]) in
  let done := exec DashboardPerRow.handleApprove before in
  (historico_pagamentos (db w1) = [historico_of "p1" slot_site; historico_of "p1" slot_app]
   ∧ t_valor_pago <$> trabalhos (db w1) = [10000; 0]
   ∧ pagamentos_semanais (db w1) = []
   ∧ toasts w1 = [toast_success "Pagamentos aprovados com sucesso!"]
   ∧ db w1 ≠ db before ∧ db w1 ≠ db done)
  ∧ (historico_pagamentos (db w2) = [historico_of "p1" slot_site; historico_of "p1" slot_app]
     ∧ t_valor_pago <$> trabalhos (db w2) = [10000; 0]
     ∧ pagamentos_semanais (db w2) = [slot_site; slot_app]
     ∧ toasts w2 = [toast_error "Erro ao aprovar pagamentos"]
     ∧ db w2 ≠ db before ∧ db w2 ≠ db done).
Proof.
  repeat split; try reflexivity; vm_compute; intros H; discriminate H.
Qed.

(** The [handleApprove] of the page as it stands asks the database to do
    the whole approval in one call; its store afterwards is the store
    before or the one that call answers. *)
Lemma handleApprove_db (w : World) :
  db (exec Dashboard.handleApprove w)
  = if bool_decide (length (filled (slots w)) = 0%nat) then db w
    else if goes_through w
         then from_option snd (db w) (aprovar_pagamentos_semanais (db w))
         else db w.
Proof.
  unfold exec, Dashboard.handleApprove, bind at 1, setApproving, modify, finally,
    try_catch, bind at 1, gets.
  change (slots (with_approving true w)) with (slots w).
  case_bool_decide; [done|].
  unfold bind at 1. rewrite call_eq.
  change (next_rejects (with_approving true w)) with (next_rejects w).
  change (goes_through (with_approving true w)) with (goes_through w).
  change (db (with_approving true w)) with (db w).
  destruct (goes_through w) eqn:Hgo;
    [rewrite (goes_through_not_rejects w Hgo) | by destruct (next_rejects w)].
  destruct (aprovar_pagamentos_semanais (db w)) as [[[] d]|]; [|done].
  unfold bind.
  match goal with
  | |- context [Dashboard.loadSlots ?w1] =>
      pose proof (loadSlots_db w1) as Hdb; unfold exec in Hdb;
      destruct (Dashboard.loadSlots w1) as [[[]|] w2]
  end; simpl in *; done.
Qed.

(** C2, at a failing input: the lookup and the history insert of
    [handlePayManually] go through and the call of [atualizar_valor_pago]
    fails, with an error or with an exception.  The history row stays in
    the store although no balance was updated; the slot is not deleted. *)
Theorem handlePayManually_orphan_history :
  let before := page two_slots [] in
  let w1 := exec (Dashboard.handlePayManually true slot_site)
                 (page two_slots [reaches; reaches; errors]) in
  let w2 := exec (Dashboard.handlePayManually true slot_site)
                 (page two_slots [reaches; reaches; rejects]) in
  (historico_pagamentos (db w1) = [historico_of "p1" slot_site]
   ∧ trabalhos (db w1) = trabalhos (db before)
   ∧ pagamentos_semanais (db w1) = pagamentos_semanais (db before)
   ∧ toasts w1 = [toast_error "Erro ao realizar pagamento manual."])
  ∧ db w2 = db w1
  ∧ toasts w2 = toasts w1.
Proof. repeat split; reflexivity. Qed.

(** C3, at two failing inputs: conservation holds in the store the page
    starts from and is lost by one manual settlement, either way round.
    When the balance update fails after the history insert, the history
    holds 100.00 for a work item with nothing paid; when the history
    insert fails (its result is not looked at) and the balance update goes
    through, 100.00 is paid with no history row. *)
Theorem handlePayManually_breaks_conservation :
  let w1 := exec (Dashboard.handlePayManually true slot_site)
                 (page two_slots [reaches; reaches; errors]) in
  let w2 := exec (Dashboard.handlePayManually true slot_site)
                 (page two_slots [reaches; errors; reaches]) in
  conservation two_slots
  ∧ ¬ conservation (db w1)
  ∧ (t_valor_pago <$> trabalhos (db w1), paid_in_history (db w1) "t1") = ([0; 0], 10000)
  ∧ ¬ conservation (db w2)
  ∧ (t_valor_pago <$> trabalhos (db w2), paid_in_history (db w2) "t1") = ([10000; 0], 0).
Proof.
  repeat split; try reflexivity.
  - by apply (bool_decide_unpack _).
  - apply (bool_decide_eq_false_1 _). by vm_compute.
  - apply (bool_decide_eq_false_1 _). by vm_compute.
Qed.

(** ** What a settlement does to the work items *)

Lemma select_trabalho_Some (x : uuid) (d d' : DB) (t : Trabalho) :
  select_trabalho x d = Some (t, d') ->
  d' = d ∧ filter (fun t => t_id t = x) (trabalhos d) = [t].
Proof.
  unfold select_trabalho. intros H.
  destruct (filter _ (trabalhos d)) as [|t0 [|? ?]]; try done.
  by injection H as -> ->.
Qed.

Lemma insert_historico_Some (pessoa_id : option uuid) (slot : PagamentoSemanal)
  (d d' : DB) (u : unit) :
  insert_historico pessoa_id slot d = Some (u, d') ->
  exists pid, pessoa_id = Some pid
    ∧ d' = set_historico_pagamentos
             (historico_pagamentos d ++ [historico_of pid slot]) d.
Proof.
  unfold insert_historico. intros H. destruct pessoa_id as [pid|]; [|done].
  destruct (_ && _); [|done]. injection H as _ <-. by exists pid.
Qed.

Lemma single_elem (x : uuid) (T : list Trabalho) (t : Trabalho) :
  filter (fun t => t_id t = x) T = [t] -> t ∈ T ∧ t_id t = x.
Proof.
  intros Hsingle. assert (t ∈ [t]) as H by (by left).
  rewrite <- Hsingle in H. by apply list_elem_of_filter in H as [? ?].
Qed.

Lemma update_is_settle (slot : PagamentoSemanal) (t : Trabalho) (T : list Trabalho) :
  filter (fun t => t_id t = s_trabalho_id slot) T = [t] ->
  map (fun t' => if bool_decide (t_id t' = s_trabalho_id slot)
                 then pay (t_valor_pago t + s_valor slot)
                          (t_valor_pago t + s_valor slot >=? t_valor_total t) t'
                 else t') T
  = settle slot <$> T.
Proof.
  intros Hsingle. apply list_fmap_ext. intros i t' Hi. unfold settle.
  case_bool_decide as Hid; [|done].
  assert (t' ∈ filter (fun t => t_id t = s_trabalho_id slot) T) as Hin.
  { apply list_elem_of_filter. split; [done|]. by apply list_elem_of_lookup_2 in Hi. }
  rewrite Hsingle in Hin. apply list_elem_of_singleton in Hin. by subst t'.
Qed.








(** Statements that leave the work items alone. *)
Section TrabalhosFrame.
Context (R : list Trabalho -> Prop).
Local Abbreviation I := (on_db (fun d => R (trabalhos d))).


End TrabalhosFrame.

Lemma maintains_promise_all {A B} (I : World -> Prop) (c1 : M A) (c2 : M B) :
  maintains I c1 -> maintains I c2 -> maintains I (promise_all c1 c2).
Proof.
  intros H1 H2 w Hw. unfold promise_all.
  specialize (H1 w Hw). destruct (c1 w) as [r1 w1]. simpl in H1.
  specialize (H2 w1 H1). destruct (c2 w1) as [r2 w2]. simpl in H2.
  by destruct r1, r2.
Qed.

Lemma upsert_posicao_Some (updates : list (uuid * Z)) (d d' : DB) (u : unit) :
  upsert_posicao updates d = Some (u, d') -> updates = [] ∧ d' = d.
Proof. unfold upsert_posicao. destruct updates; [|done]. by intros [= _ <-]. Qed.

Lemma upsert_prioridade_Some (updates : list (uuid * Z)) (d d' : DB) (u : unit) :
  upsert_prioridade updates d = Some (u, d') -> updates = [] ∧ d' = d.
Proof. unfold upsert_prioridade. destruct updates; [|done]. by intros [= _ <-]. Qed.

(** What holds of the store holds of it after a load or a reordering. *)
Section StoreFrame.
Context (R : DB -> Prop).
Local Abbreviation I := (on_db R).

Lemma loadSlots_store : maintains I Dashboard.loadSlots.
Proof.
  unfold Dashboard.loadSlots, setSlots, setLoading, show. maintain.
  intros w sc a d Hw [= _ <-]. done.
Qed.

Lemma loadData_store : maintains I Trabalhos.loadData.
Proof.
  unfold Trabalhos.loadData, setTrabalhos, setFilaLoading, show. maintain.
  apply maintains_promise_all; maintain; intros w sc a d Hw [= _ <-]; done.
Qed.

Lemma handleDragEnd_store active over : maintains I (Dashboard.handleDragEnd active over).
Proof.
  unfold Dashboard.handleDragEnd. destruct over as [over_id|]; [|maintain].
  case_bool_decide; [maintain|].
  assert (forall b, maintains I
            (setSlots b ;;
             try_catch
               (let! r := call (upsert_posicao (Dashboard.updates_of b)) in
                match r with
                | None => throw
                | Some _ => show (toast_success "Ordem atualizada!")
                end)
               (show (toast_error "Erro ao reordenar slots") ;; Dashboard.loadSlots)))
    as Hbody.
  { intros b. unfold setSlots, show. maintain.
    - intros w1 sc x d Hw1 Hup. apply upsert_posicao_Some in Hup as [_ ->]. exact Hw1.
    - apply loadSlots_store. }
  apply maintains_gets. intros w0 Hw0.
  destruct (findIndex _ _); [|done].
  destruct (findIndex _ _); [|done].
  by apply Hbody.
Qed.

Lemma handleDragEnd_fila_store active over : maintains I (Trabalhos.handleDragEnd active over).
Proof.
  unfold Trabalhos.handleDragEnd. destruct over as [over_id|]; [|maintain].
  case_bool_decide; [maintain|].
  assert (forall l, maintains I
            (setTrabalhos l ;;
             try_catch
               (let! r := call (upsert_prioridade (Trabalhos.updates_of l)) in
                match r with
                | None => throw
                | Some _ => show (toast_success "Prioridade atualizada!")
                end)
               (show (toast_error "Erro ao reordenar trabalhos") ;; Trabalhos.loadData)))
    as Hbody.
  { intros l. unfold setTrabalhos, show. maintain.
    - intros w1 sc x d Hw1 Hup. apply upsert_prioridade_Some in Hup as [_ ->]. exact Hw1.
    - apply loadData_store. }
  apply maintains_gets. intros w0 Hw0.
  destruct (findIndex _ _); [|done].
  destruct (findIndex _ _); [|done].
  by apply Hbody.
Qed.
End StoreFrame.




(** ** Auto-Fill *)

#[global] Instance prioridade_le_total : Total prioridade_le.
Proof. intros a b. unfold prioridade_le. lia. Qed.

#[global] Instance prioridade_le_trans : Transitive prioridade_le.
Proof. intros a b c. unfold prioridade_le. lia. Qed.

Lemma zip_fst_take {A B} (l : list A) (k : list B) :
  (zip l k).*1 = take (length (zip l k)) l.
Proof.
  revert k. induction l as [|a l IH]; intros [|b k]; simpl; try done.
  by rewrite IH.
Qed.

Lemma zip_snd_take {A B} (l : list A) (k : list B) :
  (zip l k).*2 = take (length (zip l k)) k.
Proof.
  revert k. induction l as [|a l IH]; intros [|b k]; simpl; try done.
  by rewrite IH.
Qed.

Lemma filter_all {A} (P : A -> Prop) `{forall x, Decision (P x)} (l : list A) :
  Forall P l -> filter P l = l.
Proof.
  intros Hall. induction Hall as [|x l Hx Hall IH]; [done|].
  by rewrite filter_cons_True, IH.
Qed.

Lemma filter_none {A} (P : A -> Prop) `{forall x, Decision (P x)} (l : list A) :
  Forall (fun x => ¬ P x) l -> filter P l = [].
Proof.
  intros Hall. induction Hall as [|x l Hx Hall IH]; [done|].
  by rewrite filter_cons_False.
Qed.

Lemma filter_not_in_take {A} `{EqDecision A} (l : list A) (n : nat) :
  NoDup l -> filter (fun x => x ∉ take n l) l = drop n l.
Proof.
  intros Hnd. rewrite <- (take_drop n l) in Hnd.
  apply NoDup_app in Hnd as (_ & Hdisj & _).
  transitivity (filter (fun x => x ∉ take n l) (take n l ++ drop n l)%list);
    [by rewrite take_drop|].
  rewrite filter_app, filter_none, filter_all; [done| |].
  - apply Forall_forall. intros x Hx Hx'. by apply (Hdisj x Hx').
  - apply Forall_forall. intros x Hx Hx'. by apply Hx'.
Qed.

Lemma novos_slots_trabalho_id (gen : nat -> uuid) (d : DB) :
  s_trabalho_id <$> novos_slots gen d
  = t_id <$> take (length (novos_slots gen d)) (candidatos d).
Proof.
  unfold novos_slots. rewrite length_imap, fmap_imap.
  change (fun n => s_trabalho_id ∘ novo_slot gen d n)
    with (fun (_ : nat) (pt : Z * Trabalho) => t_id pt.2).
  rewrite (imap_const (fun pt : Z * Trabalho => t_id pt.2)).
  rewrite <- zip_snd_take, <- list_fmap_compose. done.
Qed.

Lemma novos_slots_posicao (gen : nat -> uuid) (d : DB) :
  s_posicao <$> novos_slots gen d
  = take (length (novos_slots gen d)) (posicoes_livres d).
Proof.
  unfold novos_slots. rewrite length_imap, fmap_imap.
  change (fun n => s_posicao ∘ novo_slot gen d n)
    with (fun (_ : nat) (pt : Z * Trabalho) => pt.1).
  rewrite (imap_const (fun pt : Z * Trabalho => pt.1)).
  by rewrite <- zip_fst_take.
Qed.

Lemma novos_slots_lookup (gen : nat -> uuid) (d : DB) (k : nat) (s : PagamentoSemanal) :
  novos_slots gen d !! k = Some s ->
  exists p t, posicoes_livres d !! k = Some p ∧ candidatos d !! k = Some t
              ∧ s = novo_slot gen d k (p, t).
Proof.
  unfold novos_slots. rewrite list_lookup_imap. intros H.
  destruct (zip _ _ !! k) as [[p t]|] eqn:E; [|done].
  apply lookup_zip_Some in E as [Hp Ht]. injection H as <-. eauto.
Qed.

Lemma candidatos_elem (d : DB) (t : Trabalho) :
  t ∈ candidatos d ->
  t ∈ pendentes d ∧ t_id t ∉ s_trabalho_id <$> pagamentos_semanais d.
Proof.
  unfold candidatos. rewrite merge_sort_Permutation.
  intros H. by apply list_elem_of_filter in H as [? ?].
Qed.

Lemma candidatos_NoDup (d : DB) :
  NoDup (t_id <$> trabalhos d) -> NoDup (t_id <$> candidatos d).
Proof.
  intros Hnd. unfold candidatos, pendentes. rewrite merge_sort_Permutation.
  eapply sublist_NoDup; [exact Hnd|]. apply fmap_sublist.
  etrans; apply sublist_filter.
Qed.

Lemma posicoes_livres_NoDup (d : DB) : NoDup (posicoes_livres d).
Proof. unfold posicoes_livres. apply NoDup_filter, NoDup_seqZ. Qed.

Lemma posicoes_livres_after (gen : nat -> uuid) (d : DB) :
  posicoes_livres
    (set_pagamentos_semanais (pagamentos_semanais d ++ novos_slots gen d) d)
  = drop (length (novos_slots gen d)) (posicoes_livres d).
Proof.
  rewrite <- (filter_not_in_take (posicoes_livres d)) by apply posicoes_livres_NoDup.
  rewrite <- novos_slots_posicao.
  unfold posicoes_livres. simpl. rewrite list_filter_filter.
  apply list_filter_iff. intros p. rewrite fmap_app, not_elem_of_app. tauto.
Qed.

Lemma fillEmptySlots_db (gen : nat -> uuid) (w : World) :
  db (exec (Dashboard.fillEmptySlots gen) w)
  = if goes_through w
    then set_pagamentos_semanais
           (pagamentos_semanais (db w) ++ novos_slots gen (db w)) (db w)
    else db w.
Proof.
  unfold exec, Dashboard.fillEmptySlots, try_catch, bind at 1.
  rewrite call_eq. unfold preencher_slots_pagamento.
  destruct (goes_through w) eqn:Hgo;
    [rewrite (goes_through_not_rejects w Hgo) | by destruct (next_rejects w)].
  unfold bind.
  match goal with
  | |- context [Dashboard.loadSlots ?w1] =>
      pose proof (loadSlots_db w1) as H; unfold exec in H;
      destruct (Dashboard.loadSlots w1) as [[[]|] w2]
  end; simpl in *; done.
Qed.

(** C7: what Auto-Fill adds to the store.  The new slots are as many as
    there are free positions or candidates, whichever is fewer, so that
    afterwards no position is free or no candidate is left; the work items
    pulled are the first candidates of the backlog sorted by ascending
    rank, one per free position in ascending order; a candidate is a
    pending work item that no existing slot is bound to; the amount of a
    new slot is total minus paid of its work item; and no work item is
    pulled twice.  [fillEmptySlots] leaves exactly this store when its
    call goes through. *)
Theorem auto_fill_by_priority (gen : nat -> uuid) (d : DB) :
  NoDup (t_id <$> trabalhos d) ->
  let novos := novos_slots gen d in
  let n := length novos in
  (forall sc, db (exec (Dashboard.fillEmptySlots gen) (page d (reaches :: sc)))
              = set_pagamentos_semanais (pagamentos_semanais d ++ novos) d)
  ∧ n = (length (posicoes_livres d) `min` length (candidatos d))%nat
  ∧ posicoes_livres (set_pagamentos_semanais (pagamentos_semanais d ++ novos) d)
    = drop n (posicoes_livres d)
  ∧ (posicoes_livres (set_pagamentos_semanais (pagamentos_semanais d ++ novos) d) = []
     ∨ n = length (candidatos d))
  ∧ StronglySorted prioridade_le (candidatos d)
  ∧ s_trabalho_id <$> novos = t_id <$> take n (candidatos d)
  ∧ s_posicao <$> novos = take n (posicoes_livres d)
  ∧ (forall k s, novos !! k = Some s ->
       exists t, candidatos d !! k = Some t
         ∧ t ∈ trabalhos d ∧ t_concluido t = false
         ∧ s_trabalho_id s = t_id t
         ∧ s_valor s = t_valor_total t - t_valor_pago t
         ∧ t_id t ∉ s_trabalho_id <$> pagamentos_semanais d)
  ∧ NoDup (s_trabalho_id <$> novos).
Proof.
  intros Hnd novos n. subst n novos.
  assert (length (novos_slots gen d)
          = (length (posicoes_livres d) `min` length (candidatos d))%nat) as Hn
    by (unfold novos_slots; by rewrite length_imap, length_zip).
  split; [by intros sc; rewrite fillEmptySlots_db|].
  split; [done|]. split; [apply posicoes_livres_after|].
  split.
  { rewrite posicoes_livres_after.
    destruct (decide (length (posicoes_livres d) ≤ length (candidatos d))%nat).
    - left. apply drop_ge. lia.
    - right. lia. }
  repeat split.
  - unfold candidatos. apply StronglySorted_merge_sort; apply _.
  - apply novos_slots_trabalho_id.
  - apply novos_slots_posicao.
  - intros k s Hs. apply novos_slots_lookup in Hs as (p & t & Hp & Ht & ->).
    exists t. split; [done|].
    assert (t ∈ candidatos d) as Hin by (by apply list_elem_of_lookup_2 in Ht).
    apply candidatos_elem in Hin as [Hpend Hfree].
    unfold pendentes in Hpend. apply list_elem_of_filter in Hpend as [Hc Hin].
    done.
  - rewrite novos_slots_trabalho_id, fmap_take.
    eapply sublist_NoDup; [by apply candidatos_NoDup | apply sublist_take].
Qed.

Lemma auto_fill_by_priority_witness :
  NoDup (t_id <$> trabalhos backlog_of_three)
  ∧ s_trabalho_id <$> novos_slots (fun _ => "novo") backlog_of_three = ["t1"; "t2"; "t3"]
  ∧ s_valor <$> novos_slots (fun _ => "novo") backlog_of_three = [10000; 5000; 2000]
  ∧ NoDup (s_trabalho_id <$> novos_slots (fun _ => "novo") backlog_of_three).
Proof.
  assert (NoDup (t_id <$> trabalhos backlog_of_three)) as Hnd
    by (apply (bool_decide_unpack _); vm_compute; exact I).
  split; [exact Hnd|]. split; [reflexivity|]. split; [reflexivity|].
  apply (auto_fill_by_priority (fun _ => "novo") backlog_of_three Hnd).
Defined.

(** ** The work items along a run of the page *)








(** The condition on the float sum is needed: 0.70 + 0.10 is
    0.7999999999999999 in floats, below 0.80.  The per-row approval of the
    slot of 0.10 stores a paid amount of 0.80, the total, for the number
    is rounded to two places, and a flag that says the item is pending. *)
Lemma float_sum_misses_completion :
  let w := page quase_pago [] in
  let w' := exec DashboardPerRow.handleApprove w in
  items_ok (db w)
  ∧ covers (filled (slots w)) (trabalhos (db w))
  ∧ PrimFloat.ltb (PrimFloat.add (to_js 70) (to_js 10)) (to_js 80) = true
  ∧ to_db (PrimFloat.add (to_js 70) (to_js 10)) = Some 80
  ∧ trabalhos (db w') = [mkTrabalho "t1" "p1" "site" 80 80 false 0]
  ∧ ¬ items_ok (db w').
Proof.
  split_and!; try reflexivity.
  - by apply (bool_decide_unpack _).
  - by apply (bool_decide_unpack _).
  - apply (bool_decide_eq_false_1 _). by vm_compute.
Qed.


(** ** The positions of the stored slots *)

Lemma last_all_eq {A} (l : list A) (y : A) :
  l ≠ [] -> Forall (eq y) l -> last l = Some y.
Proof.
  intros Hne Hall. destruct (last l) as [z|] eqn:E.
  - f_equal. symmetry. eapply (proj1 (Forall_forall _ _) Hall).
    apply last_Some in E as [l' ->]. apply elem_of_app. right. by left.
  - by apply last_None in E.
Qed.

Lemma same_key_same_row {R} `{EqDecision K} (key : R -> K) (l : list R) (a b : R) :
  NoDup (key <$> l) -> a ∈ l -> b ∈ l -> key a = key b -> a = b.
Proof.
  intros Hnd Ha Hb Hk.
  apply list_elem_of_lookup in Ha as [i Hi]. apply list_elem_of_lookup in Hb as [j Hj].
  assert (i = j) as ->; [|congruence].
  eapply NoDup_lookup; [exact Hnd| |]; rewrite list_lookup_fmap.
  - by rewrite Hi.
  - rewrite Hj. simpl. by rewrite Hk.
Qed.

Lemma posicoes_unicas_sublist (l l' : list PagamentoSemanal) :
  l' `sublist_of` l -> posicoes_unicas l -> posicoes_unicas l'.
Proof.
  intros Hsub [Hall Hnd].
  assert (s_posicao <$> l' `sublist_of` s_posicao <$> l) as Hsub' by (by apply fmap_sublist).
  split.
  - apply Forall_forall. intros p Hp. apply (proj1 (Forall_forall _ _) Hall).
    by apply (sublist_subseteq _ _ Hsub').
  - by eapply sublist_NoDup.
Qed.

(** With distinct positions within 0..9 the board shows every stored slot. *)
Lemma build_board_shows_all (data : list PagamentoSemanal) :
  posicoes_unicas data -> filled (build_board data) ≡ₚ data.
Proof.
  intros [Hall Hnd].
  destruct (build_board_ok data) as (_ & _ & _ & Hndb). unfold posicoes_ocupadas in Hndb.
  apply NoDup_Permutation.
  - by apply NoDup_fmap_1 in Hndb.
  - by apply NoDup_fmap_1 in Hnd.
  - intros r. unfold filled. rewrite list_elem_of_omap. split.
    + intros ([x|] & Hx & [= ->]). apply list_elem_of_lookup in Hx as [i Hi].
      by apply build_board_elem in Hi as (_ & _ & ?).
    + intros Hr. exists (Some r). split; [|done].
      assert (0 <= s_posicao r < 10) as Hp.
      { apply (proj1 (Forall_forall _ _) Hall). apply list_elem_of_fmap. eauto. }
      apply (list_elem_of_lookup_2 _ (Z.to_nat (s_posicao r))).
      rewrite build_board_lookup by lia. f_equal. apply last_all_eq.
      * intros E.
        assert (r ∈ filter (fun r' => s_posicao r' = Z.of_nat (Z.to_nat (s_posicao r))) data)
          as Hin by (apply list_elem_of_filter; split; [lia | done]).
        rewrite E in Hin. by apply elem_of_nil in Hin.
      * apply Forall_forall. intros r' Hr'. apply list_elem_of_filter in Hr' as [Hpos Hr'].
        apply (same_key_same_row s_posicao data); [done | done | done | lia].
Qed.

Lemma listSlots_shows_all (d : DB) :
  posicoes_unicas (pagamentos_semanais d) ->
  filled (listSlots d) ≡ₚ pagamentos_semanais d.
Proof.
  intros Hpu. unfold listSlots.
  assert (order_by_posicao (pagamentos_semanais d) ≡ₚ pagamentos_semanais d) as Hperm
    by apply merge_sort_Permutation.
  rewrite <- Hperm at 2. apply build_board_shows_all.
  unfold posicoes_unicas. by rewrite Hperm.
Qed.

Lemma novos_slots_posicoes (gen : nat -> uuid) (d : DB) :
  posicoes_unicas (pagamentos_semanais d) ->
  posicoes_unicas (pagamentos_semanais d ++ novos_slots gen d).
Proof.
  intros [Hall Hnd]. unfold posicoes_unicas.
  rewrite fmap_app, novos_slots_posicao.
  assert (forall p, p ∈ take (length (novos_slots gen d)) (posicoes_livres d) ->
            0 <= p < 10 ∧ p ∉ s_posicao <$> pagamentos_semanais d) as Hlivre.
  { intros p Hp. apply elem_of_take in Hp as (i & Hi & _).
    apply list_elem_of_lookup_2 in Hi. unfold posicoes_livres in Hi.
    apply list_elem_of_filter in Hi as [Hno Hin]. apply elem_of_seqZ in Hin.
    split; [lia | done]. }
  split.
  - apply Forall_app. split; [done|]. apply Forall_forall. intros p Hp.
    by apply Hlivre.
  - apply NoDup_app. split_and!; [done| |].
    + intros p Hp Hp'. by apply Hlivre in Hp' as [_ ?].
    + apply (sublist_NoDup _ (posicoes_livres d)); [apply posicoes_livres_NoDup|].
      apply sublist_take.
Qed.

Lemma maintains_gets_any {A B} (I : World -> Prop) (f : World -> A) (k : A -> M B) :
  (forall a, maintains I (k a)) -> maintains I (bind (gets f) k).
Proof. intros Hk. apply maintains_gets. intros w Hw. by apply Hk. Qed.

(** Statements that at most delete slots. *)
Section SlotsFrame.
Context (P : list PagamentoSemanal -> Prop).
Hypothesis P_sub : forall l l', l' `sublist_of` l -> P l -> P l'.
Local Abbreviation I := (on_db (fun d => P (pagamentos_semanais d))).

Lemma handleRemove_slots id : maintains I (Dashboard.handleRemove id).
Proof.
  unfold Dashboard.handleRemove, show. maintain.
  - intros w0 sc0 x0 d0 Hw [= _ <-]. unfold on_db. simpl.
    eapply P_sub; [|exact Hw]. apply sublist_filter.
  - apply (loadSlots_store (fun d => P (pagamentos_semanais d))).
Qed.

Lemma handlePayManually_slots confirmed slot :
  maintains I (Dashboard.handlePayManually confirmed slot).
Proof.
  unfold Dashboard.handlePayManually, setApproving, show.
  destruct confirmed; simpl; maintain.
  - intros w0 sc0 x0 d0 Hw Hq. by apply select_trabalho_Some in Hq as [-> _].
  - intros w0 sc0 x0 d0 Hw Hq. by apply insert_historico_Some in Hq as (pid & _ & ->).
  - intros w0 sc0 x0 d0 Hw [= _ <-]. exact Hw.
  - apply handleRemove_slots.
Qed.

Lemma approve_slot_slots slot : maintains I (DashboardPerRow.approve_slot slot).
Proof.
  unfold DashboardPerRow.approve_slot. maintain.
  - intros w0 sc0 x0 d0 Hw Hq. by apply select_trabalho_Some in Hq as [-> _].
  - intros w0 sc0 x0 d0 Hw Hq. by apply insert_historico_Some in Hq as (pid & _ & ->).
  - intros w0 sc0 x0 d0 Hw Hq. by apply select_trabalho_Some in Hq as [-> _].
  - intros w0 sc0 x0 d0 Hw Hq. unfold update_trabalho in Hq.
    destruct (to_db _); [|done]. by injection Hq as _ <-.
Qed.

Lemma handleApprove_per_row_slots : maintains I DashboardPerRow.handleApprove.
Proof.
  unfold DashboardPerRow.handleApprove, setApproving, show, setTimeout_fillEmptySlots.
  maintain. apply maintains_gets_any. intros sl.
  case_bool_decide; maintain.
  - apply approve_slot_slots.
  - intros w0 sc0 x0 d0 Hw [= _ <-]. unfold on_db. simpl.
    eapply P_sub; [|exact Hw]. apply sublist_filter.
  - apply (loadSlots_store (fun d => P (pagamentos_semanais d))).
Qed.
End SlotsFrame.

Lemma run_posicoes (o : operation) (w : World) :
  posicoes_unicas (pagamentos_semanais (db w)) ->
  posicoes_unicas (pagamentos_semanais (db (exec (run o) w))).
Proof.
  intros Hpu. destruct o as [|gen|active over|id|confirmed slot| |]; simpl.
  - by apply (loadSlots_store (fun d => posicoes_unicas (pagamentos_semanais d))).
  - rewrite fillEmptySlots_db. destruct (goes_through w); [|done].
    by apply novos_slots_posicoes.
  - by apply (handleDragEnd_store (fun d => posicoes_unicas (pagamentos_semanais d))).
  - by apply (handleRemove_slots posicoes_unicas posicoes_unicas_sublist).
  - by apply (handlePayManually_slots posicoes_unicas posicoes_unicas_sublist).
  - rewrite handleApprove_db. case_bool_decide; [done|].
    destruct (goes_through w); [|done]. unfold aprovar_pagamentos_semanais.
    destruct (settle_rows _ _); [|done]. simpl. split; constructor.
  - by apply (handleApprove_per_row_slots posicoes_unicas posicoes_unicas_sublist).
Qed.

(** C6: in every state the page can reach, the board of the page and the
    board a reader of the store is shown have ten entries, at most ten of
    them occupied, the positions of their slots lie in 0..9 and no two
    slots share one.  The states are those reached from the mounted page
    by the operations of the page, reordering included, in any order and
    under any behaviour of the store and the transport in between.  A
    reordering moves the slots on the board of the page and writes nothing
    to the store, for its upsert is refused.  And where the stored slots
    have distinct positions within 0..9 the board shows each of them, and
    after any operation of the page the stored slots have distinct
    positions within 0..9 again. *)
Theorem board_capacity_invariant (w : World) :
  reachable w ->
  board_ok (slots w)
  ∧ board_ok (listSlots (db w))
  ∧ (forall active over, db (exec (Dashboard.handleDragEnd active over) w) = db w)
  ∧ (posicoes_unicas (pagamentos_semanais (db w)) ->
     filled (listSlots (db w)) ≡ₚ pagamentos_semanais (db w)
     ∧ forall o, posicoes_unicas (pagamentos_semanais (db (exec (run o) w)))).
Proof.
  intros Hw. split_and!.
  - induction Hw as [d sc|o w Hw IH|d sc w Hw IH].
    + apply empty_board_ok.
    + by apply (run_maintains board_ok build_board_ok arrayMove_board_ok o w).
    + exact IH.
  - apply listSlots_ok.
  - intros active over.
    by apply (handleDragEnd_store (fun d => d = db w) active over w).
  - intros Hpu. split; [by apply listSlots_shows_all|].
    intros o. by apply run_posicoes.
Qed.

Lemma board_capacity_invariant_witness :
  let w := exec (run (OpDragEnd "s1" (Some "s2")))
             (exec (run OpLoadSlots) (mount two_slots [])) in
  s_id <$> filled (slots w) = ["s1"; "s2"]
  ∧ posicoes_unicas (pagamentos_semanais (db w))
  ∧ board_ok (slots w)
  ∧ board_ok (listSlots (db w))
  ∧ (forall active over, db (exec (Dashboard.handleDragEnd active over) w) = db w)
  ∧ (posicoes_unicas (pagamentos_semanais (db w)) ->
     filled (listSlots (db w)) ≡ₚ pagamentos_semanais (db w)
     ∧ forall o, posicoes_unicas (pagamentos_semanais (db (exec (run o) w)))).
Proof.
  split; [reflexivity|].
  split; [apply (bool_decide_unpack _); vm_compute; exact I|].
  apply (board_capacity_invariant
           (exec (run (OpDragEnd "s1" (Some "s2")))
              (exec (run OpLoadSlots) (mount two_slots [])))).
  apply reach_run, reach_run, reach_mount.
Defined.

(** ** Settlement when every call reaches the database *)

Lemma call_reached {A} (q : DB -> option (A * DB)) (w : World) :
  script w = [] ->
  call q w = match q (db w) with
             | Some (a, d) => (Val (Some a), with_db d w)
             | None => (Val None, w)
             end.
Proof.
  intros Hsc. unfold call. rewrite Hsc. simpl.
  destruct w as [d sc ? ? ? ? ? ? ?]. simpl in *. subst sc.
  by destruct (q d) as [[a d']|].
Qed.

Lemma hoare_call_reached {A} (q : DB -> option (A * DB)) (P : World -> Prop)
  (Q : option A -> World -> Prop) (E : World -> Prop) :
  (forall w, P w -> script w = []) ->
  (forall w, P w -> q (db w) = None -> Q None w) ->
  (forall w a d, P w -> q (db w) = Some (a, d) -> Q (Some a) (with_db d w)) ->
  hoare P (call q) Q E.
Proof.
  intros Hsc Hnone Hsome w Hw. rewrite call_reached by (by apply Hsc).
  destruct (q (db w)) as [[a d]|] eqn:Eq; [by apply Hsome | by apply Hnone].
Qed.

Lemma insert_historico_ok (slot : PagamentoSemanal) (t : Trabalho) (d : DB) :
  fk_ok d ->
  filter (fun t => t_id t = s_trabalho_id slot) (trabalhos d) = [t] ->
  insert_historico (Some (t_pessoa_id t)) slot d
  = Some (tt, set_historico_pagamentos
                (historico_pagamentos d ++ [historico_of (t_pessoa_id t) slot]) d).
Proof.
  intros Hfk Hsingle. apply single_elem in Hsingle as [Hin Hid].
  unfold insert_historico.
  rewrite bool_decide_eq_true_2.
  2:{ unfold fk_ok in Hfk. rewrite Forall_forall in Hfk. by apply Hfk. }
  rewrite bool_decide_eq_true_2; [done|].
  rewrite <- Hid. apply list_elem_of_fmap. by exists t.
Qed.

Lemma paid_in_history_snoc (d : DB) (h : HistoricoPagamento) (x : uuid)
  (P : list Pessoa) (T : list Trabalho) (S : list PagamentoSemanal) :
  paid_in_history (mkDB P T S (historico_pagamentos d ++ [h])) x
  = paid_in_history d x + (if bool_decide (h_trabalho_id h = x) then h_valor h else 0).
Proof.
  unfold paid_in_history. simpl. rewrite filter_app, fmap_app, foldr_app.
  rewrite filter_cons, filter_nil.
  assert (forall (l : list Z) (a : Z), foldr Z.add a l = foldr Z.add 0 l + a) as Hfold.
  { intros l a. induction l as [|y l IH]; simpl; lia. }
  rewrite Hfold. case_bool_decide; case_decide; try done; simpl; lia.
Qed.

(** A history row together with the matching increase of the paid amounts
    keeps conservation. *)
Lemma conservation_paid (d : DB) (h : HistoricoPagamento) (upd : Trabalho -> Trabalho)
  (S : list PagamentoSemanal) :
  (forall t, t_id (upd t) = t_id t) ->
  (forall t, t_valor_pago (upd t)
             = t_valor_pago t
               + (if bool_decide (h_trabalho_id h = t_id t) then h_valor h else 0)) ->
  conservation d ->
  conservation (mkDB (pessoas d) (upd <$> trabalhos d) S (historico_pagamentos d ++ [h])).
Proof.
  intros Hid Hpaid Hcons. unfold conservation in *. simpl.
  apply Forall_fmap. eapply Forall_impl; [exact Hcons|]. simpl.
  intros t Ht. rewrite paid_in_history_snoc, Hid, Hpaid. lia.
Qed.

Lemma settled_sound (slot : PagamentoSemanal) (t : Trabalho) (d : DB) :
  fk_ok d -> conservation d ->
  fk_ok (settled slot t d) ∧ conservation (settled slot t d).
Proof.
  intros Hfk Hcons. split.
  - unfold fk_ok, settled in *. simpl. apply Forall_fmap.
    eapply Forall_impl; [exact Hfk|]. simpl. intros t0 Ht0.
    unfold settle. by case_bool_decide.
  - apply (conservation_paid d (historico_of (t_pessoa_id t) slot) (settle slot)).
    + intros t0. unfold settle. by case_bool_decide.
    + intros t0. unfold settle. simpl.
      destruct (decide (t_id t0 = s_trabalho_id slot)) as [Heq|Hne].
      * rewrite !bool_decide_eq_true_2 by done. done.
      * rewrite !bool_decide_eq_false_2 by (intros ?; by apply Hne). simpl. lia.
    + done.
Qed.

Lemma approve_slot_reached (slot : PagamentoSemanal) (w : World) :
  script w = [] -> fk_ok (db w) -> exato_em slot (trabalhos (db w)) ->
  DashboardPerRow.approve_slot slot w
  = (Val tt,
     match filter (fun t => t_id t = s_trabalho_id slot) (trabalhos (db w)) with
     | [t] => with_db (settled slot t (db w)) w
     | _ => w
     end).
Proof.
  intros Hsc Hfk Hex. unfold DashboardPerRow.approve_slot.
  unfold bind at 1. rewrite call_reached by done.
  destruct (select_trabalho _ (db w)) as [[t d]|] eqn:Hsel.
  - apply select_trabalho_Some in Hsel as [-> Hsingle]. rewrite Hsingle.
    destruct (single_elem _ _ _ Hsingle) as [Hin Hid].
    destruct (proj1 (Forall_forall _ _) Hex t Hin Hid) as [Hsum Hcmp].
    replace (with_db (db w) w) with w by (by destruct w).
    unfold bind at 1. rewrite call_reached by done.
    change (t_pessoa_id <$> Some t) with (Some (t_pessoa_id t)).
    rewrite (insert_historico_ok slot t (db w)) by done.
    unfold bind at 1. rewrite call_reached by done.
    unfold select_trabalho at 1. simpl. rewrite Hsingle.
    unfold bind, ret. rewrite call_reached by done. unfold update_trabalho.
    rewrite Hsum, Hcmp. simpl.
    rewrite (update_is_settle slot t) by done.
    by destruct w.
  - assert (match filter (fun t => t_id t = s_trabalho_id slot) (trabalhos (db w)) with
            | [t] => with_db (settled slot t (db w)) w
            | _ => w
            end = w) as ->.
    { unfold select_trabalho in Hsel.
      by destruct (filter _ (trabalhos (db w))) as [|t0 [|? ?]]. }
    unfold bind at 1. rewrite call_reached by done. simpl.
    unfold bind at 1. rewrite call_reached by done. rewrite Hsel. done.
Qed.

Lemma approve_slot_sound (slot : PagamentoSemanal) (rest : list PagamentoSemanal) :
  hoare (fun w => sound_and_quiet w ∧ exatos (slot :: rest) (trabalhos (db w)))
        (DashboardPerRow.approve_slot slot)
        (fun _ w => sound_and_quiet w ∧ exatos rest (trabalhos (db w)))
        (fun _ => False).
Proof.
  intros w [(Hsc & Hfk & Hcons) (Hex & Hskip & Hdone)].
  rewrite approve_slot_reached by done.
  destruct (filter _ (trabalhos (db w))) as [|t [|? ?]]; try done.
  destruct (settled_sound slot t (db w) Hfk Hcons) as [Hfk' Hcons'].
  by repeat split.
Qed.

Lemma loadSlots_conservation : maintains (on_db conservation) Dashboard.loadSlots.
Proof.
  unfold Dashboard.loadSlots, setSlots, setLoading, show. maintain.
  intros w sc a d Hw [= _ <-]. exact Hw.
Qed.

Lemma handleRemove_conservation id :
  maintains (on_db conservation) (Dashboard.handleRemove id).
Proof.
  unfold Dashboard.handleRemove, show. maintain.
  - intros w sc a d Hw [= _ <-]. exact Hw.
  - apply loadSlots_conservation.
Qed.

Lemma handleApprove_per_row_sound :
  hoare (fun w => sound_and_quiet w ∧ exatos (filled (slots w)) (trabalhos (db w)))
        DashboardPerRow.handleApprove
        (fun _ => on_db conservation) (on_db conservation).
Proof.
  assert (forall w, sound_and_quiet w -> on_db conservation w) as Hsound
    by (by intros w (_ & _ & ?)).
  unfold DashboardPerRow.handleApprove.
  apply (hoare_bind _ _ _
           (fun _ w => sound_and_quiet w ∧ exatos (filled (slots w)) (trabalhos (db w))));
    [by apply hoare_modify|].
  intros ?.
  apply (hoare_finally _ _ _ (fun _ => on_db conservation) _ (on_db conservation));
    [|done|done].
  apply (hoare_try_catch _ _ _ _ _ (on_db conservation)).
  2:{ apply maintains_hoare. unfold show. maintain. }
  apply hoare_gets. intros sl. case_bool_decide as Hempty.
  - unfold show. apply hoare_modify. intros w [[Hw _] _]. by apply Hsound.
  - apply (hoare_bind _ _ _ (fun _ => on_db conservation)).
    { eapply hoare_conseq.
      - apply (hoare_forM DashboardPerRow.approve_slot
                 (fun l w => sound_and_quiet w ∧ exatos l (trabalhos (db w)))
                 (fun _ => False)).
        intros x rest. apply approve_slot_sound.
      - intros w [Hw <-]. exact Hw.
      - intros a w [Hw _]. by apply Hsound.
      - done. }
    intros ?. apply (maintains_hoare (on_db conservation)).
    unfold show, setTimeout_fillEmptySlots. maintain.
    + intros w sc a d Hw [= _ <-]. exact Hw.
    + apply loadSlots_conservation.
Qed.

Lemma atualizar_valor_pago_sound (slot : PagamentoSemanal) (pid : uuid) (d d' : DB) (u : unit) :
  conservation d ->
  atualizar_valor_pago (s_trabalho_id slot) (s_valor slot)
    (set_historico_pagamentos (historico_pagamentos d ++ [historico_of pid slot]) d)
  = Some (u, d') ->
  conservation d'.
Proof.
  intros Hcons [= <- <-]. unfold set_trabalhos. simpl.
  apply (conservation_paid d (historico_of pid slot)); [| |done].
  - intros t. by case_bool_decide.
  - intros t. simpl. destruct (decide (t_id t = s_trabalho_id slot)) as [Heq|Hne].
    + rewrite !bool_decide_eq_true_2 by done. done.
    + rewrite !bool_decide_eq_false_2 by (intros ?; by apply Hne). lia.
Qed.

Lemma handlePayManually_sound (confirmed : bool) (slot : PagamentoSemanal) :
  hoare sound_and_quiet (Dashboard.handlePayManually confirmed slot)
        (fun _ => on_db conservation) (on_db conservation).
Proof.
  assert (forall w, sound_and_quiet w -> on_db conservation w) as Hsound
    by (by intros w (_ & _ & ?)).
  unfold Dashboard.handlePayManually. destruct confirmed; simpl.
  2:{ by apply hoare_ret. }
  apply (hoare_bind _ _ _ (fun _ => sound_and_quiet)); [by apply hoare_modify|].
  intros ?.
  apply (hoare_finally _ _ _ (fun _ => on_db conservation) _ (on_db conservation));
    [|done|done].
  apply (hoare_try_catch _ _ _ _ _ (on_db conservation)).
  2:{ apply maintains_hoare. unfold show. maintain. }
  apply (hoare_bind _ _ _
    (fun r w => sound_and_quiet w
       ∧ forall t, r = Some t ->
           filter (fun t => t_id t = s_trabalho_id slot) (trabalhos (db w)) = [t])).
  { apply hoare_call_reached.
    - by intros w (? & _).
    - intros w Hw _. split; [done|]. by intros t.
    - intros w a d Hw Hq. apply select_trabalho_Some in Hq as [-> Hq].
      replace (with_db (db w) w) with w by (by destruct w).
      split; [done|]. by intros t [= ->]. }
  intros [t|]; [|apply hoare_throw; by intros w [Hw _]; apply Hsound].
  apply (hoare_bind _ _ _
    (fun _ w => script w = []
       ∧ exists d, conservation d
           ∧ db w = set_historico_pagamentos
                      (historico_pagamentos d ++ [historico_of (t_pessoa_id t) slot]) d)).
  { apply hoare_call_reached.
    - by intros w ((? & _) & _).
    - intros w ((Hsc & Hfk & Hcons) & Ht) Hq.
      by rewrite (insert_historico_ok slot t (db w)) in Hq by auto.
    - intros w a d ((Hsc & Hfk & Hcons) & Ht) Hq.
      rewrite (insert_historico_ok slot t (db w)) in Hq by auto.
      injection Hq as _ <-. split; [done|]. by exists (db w). }
  intros ?. apply (hoare_bind _ _ _ (fun _ => on_db conservation)).
  { apply hoare_call_reached.
    - by intros w (? & _).
    - by intros w _ Hq.
    - intros w a d (Hsc & d0 & Hcons & Hdb) Hq. rewrite Hdb in Hq.
      unfold on_db. simpl. by eapply atualizar_valor_pago_sound. }
  intros [?|]; [|by apply hoare_throw].
  apply (maintains_hoare (on_db conservation)). unfold show. maintain.
  apply handleRemove_conservation.
Qed.

(** Money conservation is kept by both settlements as long as every
    storage call reaches the database and, for the per-row approval, the
    float sums are stored as the decimal sums: what breaks it otherwise
    is a call that fails in the middle of a settlement. *)
Theorem settlements_conserve_when_calls_reach
  (confirmed : bool) (slot : PagamentoSemanal) (w : World) :
  script w = [] -> fk_ok (db w) -> conservation (db w) ->
  exatos (filled (slots w)) (trabalhos (db w)) ->
  conservation (db (exec DashboardPerRow.handleApprove w))
  ∧ conservation (db (exec (Dashboard.handlePayManually confirmed slot) w)).
Proof.
  intros Hsc Hfk Hcons Hex.
  assert (sound_and_quiet w) as Hw by done. split.
  - pose proof (handleApprove_per_row_sound w (conj Hw Hex)) as H. unfold exec.
    by destruct (DashboardPerRow.handleApprove w) as [[[]|] w'].
  - pose proof (handlePayManually_sound confirmed slot w Hw) as H. unfold exec.
    by destruct (Dashboard.handlePayManually confirmed slot w) as [[[]|] w'].
Qed.

(** ** The manual settlement when its balance update fails *)

Lemma call_next {A} (q : DB -> option (A * DB)) (w : World) (o : outcome)
  (rest : list outcome) :
  script w = o :: rest ->
  call q w =
    match o with
    | reaches =>
        match q (db w) with
        | Some (a, d) => (Val (Some a), with_db d (with_script rest w))
        | None => (Val None, with_script rest w)
        end
    | errors => (Val None, with_script rest w)
    | rejects => (Throw, with_script rest w)
    end.
Proof. intros Hsc. unfold call. rewrite Hsc. by destruct o. Qed.

(** Whenever the work item is found, the history insert is accepted and
    the third call does not reach the database, the store ends up with
    the history row and nothing else: the orphan entry of the sample run
    is what every such run leaves. *)
Lemma handlePayManually_rpc_fails
  (slot : PagamentoSemanal) (t : Trabalho) (w : World) (o : outcome)
  (rest : list outcome) :
  o ≠ reaches ->
  script w = reaches :: reaches :: o :: rest ->
  fk_ok (db w) ->
  filter (fun t => t_id t = s_trabalho_id slot) (trabalhos (db w)) = [t] ->
  db (exec (Dashboard.handlePayManually true slot) w)
  = set_historico_pagamentos
      (historico_pagamentos (db w) ++ [historico_of (t_pessoa_id t) slot]) (db w).
Proof.
  intros Ho Hsc Hfk Hsingle. destruct w as [d sc sl lo ap fi fl to ti].
  simpl in *. subst sc.
  unfold exec, Dashboard.handlePayManually. simpl.
  unfold bind at 1, setApproving, modify, finally, try_catch.
  unfold bind at 1. rewrite (call_next _ _ reaches (reaches :: o :: rest)) by done.
  cbn [db with_db with_script with_approving].
  unfold select_trabalho at 1. rewrite Hsingle.
  unfold bind at 1. rewrite (call_next _ _ reaches (o :: rest)) by done.
  cbn [db with_db with_script with_approving].
  rewrite (insert_historico_ok slot t d) by done.
  unfold bind at 1. rewrite (call_next _ _ o rest) by done.
  by destruct o.
Qed.

(** ** The scenarios of §8 on the sample states *)

(** Scenario 1: Auto-Fill places the one work item at position 0 with its
    full balance; the manual settlement writes the history row, pays the
    work item in full, marks it completed and removes the slot. *)
Example scenario_fill_then_settle :
  let d0 := mkDB [ana] [site] [] [] in
  let w1 := exec (Dashboard.fillEmptySlots (fun _ => "s1")) (page d0 []) in
  let w2 := exec (Dashboard.handlePayManually true slot_site) w1 in
  pagamentos_semanais (db w1) = [slot_site]
  ∧ slots w1 !! 0%nat = Some (Some slot_site)
  ∧ historico_pagamentos (db w2) = [historico_of "p1" slot_site]
  ∧ trabalhos (db w2) = [pay 10000 true site]
  ∧ pagamentos_semanais (db w2) = []
  ∧ filled (slots w2) = [].
Proof. repeat split; reflexivity. Qed.

(** Scenario 2, on two slots: both versions of the bulk approval write one
    history row per slot, pay both work items, empty the board and
    schedule the refill. *)
Example scenario_approve_board :
  let w1 := exec Dashboard.handleApprove (page two_slots []) in
  let w2 := exec DashboardPerRow.handleApprove (page two_slots []) in
  db w1 = db w2
  ∧ historico_pagamentos (db w1)
    = [historico_of "p1" slot_site; historico_of "p1" slot_app]
  ∧ trabalhos (db w1) = [pay 10000 true site; pay 5000 true app]
  ∧ pagamentos_semanais (db w1) = []
  ∧ filled (slots w1) = [] ∧ timers w1 = 1%nat ∧ timers w2 = 1%nat.
Proof. repeat split; reflexivity. Qed.

(** Scenario 3: of twelve pending items Auto-Fill slots the ten of lowest
    rank, and two candidates remain. *)
Example scenario_twelve_pending :
  let w := exec (Dashboard.fillEmptySlots (fun k => "n")) (page backlog_of_twelve []) in
  s_trabalho_id <$> filled (slots w) = ["A"; "B"; "C"; "D"; "E"; "F"; "G"; "H"; "I"; "J"]
  ∧ t_id <$> candidatos (db w) = ["K"; "L"]
  ∧ posicoes_livres (db w) = [].
Proof. repeat split; vm_compute; reflexivity. Qed.

(** Scenario 5: removing a slot leaves the work item as it was and the
    next Auto-Fill slots it again. *)
Example scenario_remove_then_fill :
  let w1 := exec (Dashboard.handleRemove "s1") (page one_slot []) in
  let w2 := exec (Dashboard.fillEmptySlots (fun _ => "s9")) w1 in
  trabalhos (db w1) = [site] ∧ pagamentos_semanais (db w1) = []
  ∧ s_trabalho_id <$> pagamentos_semanais (db w2) = ["t1"].
Proof. repeat split; reflexivity. Qed.

(** * Further properties of the handlers *)

Lemma findIndex_None {A} (P : A -> Prop) `{forall x, Decision (P x)} (l : list A) :
  Forall (fun x => ¬ P x) l -> findIndex P l = None.
Proof. intros Hl. unfold findIndex. by rewrite (proj2 (list_find_None P l) Hl). Qed.

(** X1 *)
(** X1: a drag on the board that ends nowhere, on the dragged slot itself,
    or whose [active] or [over] id is the id of no occupied slot of the
    page (an empty slot carries the id [empty-<index>]) does nothing: no
    storage call is made and the page is unchanged. *)
Theorem handleDragEnd_off_target (active : uuid) (over : option uuid) (w : World) :
  over = None ∨ over = Some active
  ∨ Forall (fun s => s_id <$> s ≠ Some active) (slots w)
  ∨ Forall (fun s => s_id <$> s ≠ over) (slots w) ->
  Dashboard.handleDragEnd active over w = (Val tt, w).
Proof.
  intros H. unfold Dashboard.handleDragEnd.
  destruct over as [over_id|]; [|done].
  destruct (decide (active = over_id)) as [->|Hne].
  { by rewrite bool_decide_eq_true_2. }
  rewrite bool_decide_eq_false_2 by done.
  unfold bind, gets.
  destruct H as [H|[H|[H|H]]]; [done | congruence | |].
  - by rewrite (findIndex_None _ _ H).
  - rewrite (findIndex_None (fun s => s_id <$> s = Some over_id) _ H).
    by destruct (findIndex _ _).
Qed.

Lemma handleDragEnd_off_target_witness :
  Dashboard.handleDragEnd "s1" (Some "empty-3") (page two_slots []) = (Val tt, page two_slots []).
Proof.
  apply handleDragEnd_off_target. right. right. right.
  apply (bool_decide_unpack _). vm_compute. exact I.
Defined.

(** X2: a drag in the queue that ends nowhere, on the dragged item itself,
    or whose [active] or [over] id is the id of no item of the list the
    page shows does nothing: no storage call is made and the page is
    unchanged. *)
Theorem handleDragEnd_fila_off_target (active : uuid) (over : option uuid) (w : World) :
  over = None ∨ over = Some active
  ∨ active ∉ t_id <$> fila w
  ∨ (exists over_id, over = Some over_id ∧ over_id ∉ t_id <$> fila w) ->
  Trabalhos.handleDragEnd active over w = (Val tt, w).
Proof.
  intros H. unfold Trabalhos.handleDragEnd.
  destruct over as [over_id|]; [|done].
  destruct (decide (active = over_id)) as [->|Hne].
  { by rewrite bool_decide_eq_true_2. }
  rewrite bool_decide_eq_false_2 by done.
  unfold bind, gets.
  assert (forall x, x ∉ t_id <$> fila w -> findIndex (fun t => t_id t = x) (fila w) = None) as Hnone.
  { intros x Hx. apply findIndex_None, Forall_forall. intros t Ht <-.
    apply Hx, list_elem_of_fmap. eauto. }
  destruct H as [H|[H|[H|(o & [= <-] & H)]]]; [done | congruence | |].
  - by rewrite (Hnone _ H).
  - rewrite (Hnone over_id H). by destruct (findIndex _ _).
Qed.

Lemma handleDragEnd_fila_off_target_witness :
  Trabalhos.handleDragEnd "t1" (Some "t9") (page backlog_of_three [])
  = (Val tt, page backlog_of_three []).
Proof.
  apply handleDragEnd_fila_off_target. right. right. right.
  exists "t9". split; [reflexivity|].
  apply (bool_decide_unpack _). vm_compute. exact I.
Defined.

(** ** Writes that do not reach the database *)

Lemma goes_through_false (w : World) :
  goes_through w = false ->
  exists o rest, script w = o :: rest ∧ o ≠ reaches.
Proof.
  unfold goes_through. destruct (script w) as [|[] rest]; try done; eauto.
Qed.

Lemma goes_through_true (w : World) :
  goes_through w = true ->
  script w = [] ∨ script w = reaches :: tail (script w).
Proof.
  unfold goes_through. destruct (script w) as [|[] rest]; try done; eauto.
Qed.

(** X3: when the one write of [fillEmptySlots], of [handleRemove] or of
    the current [handleApprove] does not reach the database, the handler
    shows its error toast and touches nothing else: the store and the board
    of the page are what they were, the board is not reloaded, and
    [handleApprove] schedules no auto-fill and resets [approving]. *)
Theorem failed_write_changes_nothing (gen : nat -> uuid) (id : uuid) (w : World) :
  goes_through w = false ->
  let rest := with_script (tail (script w)) w in
  exec (Dashboard.fillEmptySlots gen) w
  = with_toasts (toasts w ++ [toast_error "Erro ao preencher slots automaticamente"]) rest
  ∧ exec (Dashboard.handleRemove id) w
    = with_toasts (toasts w ++ [toast_error "Erro ao remover slot"]) rest
  ∧ (filled (slots w) ≠ [] ->
     exec Dashboard.handleApprove w
     = with_approving false
         (with_toasts (toasts w ++ [toast_error "Erro ao aprovar pagamentos"]) rest)).
Proof.
  intros Hgo rest. subst rest.
  destruct (goes_through_false w Hgo) as (o & sc & Hsc & Ho).
  unfold exec, Dashboard.fillEmptySlots, Dashboard.handleRemove, Dashboard.handleApprove,
    finally, try_catch, bind, gets, setApproving, modify, show.
  rewrite !(call_next _ w o sc Hsc).
  split_and!.
  - rewrite Hsc. destruct o; [by destruct Ho| |]; done.
  - rewrite Hsc. destruct o; [by destruct Ho| |]; done.
  - intros Hfilled.
    cbn [slots with_approving].
    rewrite bool_decide_eq_false_2 by (intros Hl; by apply Hfilled, nil_length_inv).
    rewrite (call_next _ (with_approving true w) o sc Hsc).
    rewrite Hsc. destruct o; [by destruct Ho| |]; done.
Qed.

Lemma failed_write_changes_nothing_witness :
  let w := page two_slots [rejects] in
  let rest := with_script (tail (script w)) w in
  exec (Dashboard.fillEmptySlots (fun _ => "s9")) w
  = with_toasts (toasts w ++ [toast_error "Erro ao preencher slots automaticamente"]) rest
  ∧ exec (Dashboard.handleRemove "s1") w
    = with_toasts (toasts w ++ [toast_error "Erro ao remover slot"]) rest
  ∧ (filled (slots w) ≠ [] ->
     exec Dashboard.handleApprove w
     = with_approving false
         (with_toasts (toasts w ++ [toast_error "Erro ao aprovar pagamentos"]) rest)).
Proof.
  apply (failed_write_changes_nothing (fun _ => "s9") "s1" (page two_slots [rejects])).
  reflexivity.
Defined.

(** ** The manual settlement of a slot whose work item is not found *)



(** ** What a reordering leaves alone *)

Lemma Forall_erased {A} (P : A -> Prop) (f : A -> A) (l l' : list A) :
  (forall x, P (f x) <-> P x) -> f <$> l' = f <$> l -> Forall P l -> Forall P l'.
Proof.
  intros HP Heq Hl.
  assert (Forall P (f <$> l')) as H.
  { rewrite Heq. rewrite Forall_fmap. eapply Forall_impl; [exact Hl|]. intros x. apply HP. }
  rewrite Forall_fmap in H. eapply Forall_impl; [exact H|]. intros x. apply HP.
Qed.

(** X5: whatever the transport does, a reordering of the queue changes
    nothing but the [prioridade] column of work items: people, slots and
    history are untouched, the work items are the same up to their rank,
    and so the soundness of the work items and money conservation
    survive it. *)
Theorem handleDragEnd_fila_ranks_only (active : uuid) (over : option uuid) (w : World) :
  let w' := exec (Trabalhos.handleDragEnd active over) w in
  pessoas (db w') = pessoas (db w)
  ∧ pagamentos_semanais (db w') = pagamentos_semanais (db w)
  ∧ historico_pagamentos (db w') = historico_pagamentos (db w)
  ∧ set_prioridade 0 <$> trabalhos (db w') = set_prioridade 0 <$> trabalhos (db w)
  ∧ (items_ok (db w) -> items_ok (db w'))
  ∧ (conservation (db w) -> conservation (db w')).
Proof.
  intros w'.
  set (R := fun d => pessoas d = pessoas (db w)
                     ∧ pagamentos_semanais d = pagamentos_semanais (db w)
                     ∧ historico_pagamentos d = historico_pagamentos (db w)
                     ∧ set_prioridade 0 <$> trabalhos d = set_prioridade 0 <$> trabalhos (db w)).
  pose proof (handleDragEnd_fila_store R active over) as Hm.
  specialize (Hm w). unfold on_db in Hm. fold (exec (Trabalhos.handleDragEnd active over) w) in Hm.
  fold w' in Hm. destruct Hm as (H1 & H2 & H3 & H4); [by unfold R|].
  split_and!; try done.
  - unfold items_ok. apply (Forall_erased _ (set_prioridade 0)); [done | exact H4].
  - unfold conservation, paid_in_history. rewrite H3.
    apply (Forall_erased _ (set_prioridade 0)); [done | exact H4].
Qed.

(** X6: whatever the transport does, a reordering of the board changes
    nothing but the [posicao] column of slots: people, work items and
    history are untouched and the slots are the same up to their
    position. *)
Theorem handleDragEnd_positions_only (active : uuid) (over : option uuid) (w : World) :
  let w' := exec (Dashboard.handleDragEnd active over) w in
  pessoas (db w') = pessoas (db w)
  ∧ trabalhos (db w') = trabalhos (db w)
  ∧ historico_pagamentos (db w') = historico_pagamentos (db w)
  ∧ set_posicao 0 <$> pagamentos_semanais (db w')
    = set_posicao 0 <$> pagamentos_semanais (db w).
Proof.
  intros w'.
  set (R := fun d => pessoas d = pessoas (db w)
                     ∧ trabalhos d = trabalhos (db w)
                     ∧ historico_pagamentos d = historico_pagamentos (db w)
                     ∧ set_posicao 0 <$> pagamentos_semanais d
                       = set_posicao 0 <$> pagamentos_semanais (db w)).
  pose proof (handleDragEnd_store R active over) as Hm.
  apply (Hm w). by unfold on_db, R.
Qed.

(** ** A reordering of the board whose write reaches the database *)

Lemma updates_of_board_elem (b : Board) (j : nat) (r : PagamentoSemanal) :
  b !! j = Some (Some r) -> (s_id r, Z.of_nat j) ∈ Dashboard.updates_of b.
Proof.
  intros Hj. unfold Dashboard.updates_of.
  apply list_elem_of_omap. exists (Some (s_id r, Z.of_nat j)). split; [|done].
  exact (elem_of_lookup_imap_2
           (fun index slot => (fun x => (s_id x, Z.of_nat index)) <$> slot) b (Some r) j Hj).
Qed.

Lemma filled_elem (b : Board) (r : PagamentoSemanal) :
  r ∈ filled b <-> exists j, b !! j = Some (Some r).
Proof.
  unfold filled. rewrite list_elem_of_omap. split.
  - intros ([x|] & Hx & [= ->]). by apply list_elem_of_lookup in Hx.
  - intros (j & Hj). exists (Some r). split; [|done]. by eapply list_elem_of_lookup_2.
Qed.

Lemma upsert_posicao_refused (updates : list (uuid * Z)) (d : DB) :
  updates ≠ [] -> upsert_posicao updates d = None.
Proof. unfold upsert_posicao. by destruct updates. Qed.

Lemma upsert_prioridade_refused (updates : list (uuid * Z)) (d : DB) :
  updates ≠ [] -> upsert_prioridade updates d = None.
Proof. unfold upsert_prioridade. by destruct updates. Qed.

Lemma updates_of_moved_board (active : uuid) (b : Board) (oldIndex newIndex : nat) :
  findIndex (fun s => s_id <$> s = Some active) b = Some oldIndex ->
  Dashboard.updates_of (arrayMove b oldIndex newIndex) ≠ [].
Proof.
  intros Hold. apply findIndex_Some in Hold as ([r|] & Hr & Hid); [|done].
  assert (Some r ∈ arrayMove b oldIndex newIndex) as Hin.
  { rewrite arrayMove_Permutation. by eapply list_elem_of_lookup_2. }
  apply list_elem_of_lookup in Hin as [j Hj].
  apply updates_of_board_elem in Hj. intros E. rewrite E in Hj.
  by apply elem_of_nil in Hj.
Qed.

(** X7: a board reordering whose write reaches the database is refused
    there, for the rows it sends lack the columns that are [NOT NULL]: the
    store is unchanged, the handler never shows "Ordem atualizada!" but
    its error toast, and reloads.  The page falls back to the stored
    board, unless the reload fails, in which case it keeps showing the
    moved board (and a second toast). *)
Theorem handleDragEnd_board_refused
  (active over_id : uuid) (oldIndex newIndex : nat) (w : World) :
  active ≠ over_id ->
  findIndex (fun s => s_id <$> s = Some active) (slots w) = Some oldIndex ->
  findIndex (fun s => s_id <$> s = Some over_id) (slots w) = Some newIndex ->
  goes_through w = true ->
  let w' := exec (Dashboard.handleDragEnd active (Some over_id)) w in
  let reload := goes_through (with_script (tail (script w)) w) in
  db w' = db w
  ∧ slots w' = (if reload then listSlots (db w)
                else arrayMove (slots w) oldIndex newIndex)
  ∧ toasts w' = (toasts w ++ toast_error "Erro ao reordenar slots"
                   :: (if reload then [] else [toast_error "Erro ao carregar pagamentos"]))%list
  ∧ loading w' = false.
Proof.
  intros Hne Hold Hnew Hgo w' reload.
  assert (w' = exec (show (toast_error "Erro ao reordenar slots") ;; Dashboard.loadSlots)
                    (with_script (tail (script w))
                       (with_slots (arrayMove (slots w) oldIndex newIndex) w)))
    as ->.
  { unfold w', exec, Dashboard.handleDragEnd.
    rewrite bool_decide_eq_false_2 by done.
    unfold bind at 1, gets. rewrite Hold, Hnew.
    unfold bind at 1, setSlots, modify, try_catch, bind at 1.
    rewrite call_eq.
    change (next_rejects (with_slots _ w)) with (next_rejects w).
    change (goes_through (with_slots _ w)) with (goes_through w).
    rewrite (goes_through_not_rejects w Hgo), Hgo.
    rewrite upsert_posicao_refused by (by eapply updates_of_moved_board).
    done. }
  subst reload. generalize (tail (script w)). intros sc.
  unfold goes_through. cbn [script with_script].
  unfold exec, Dashboard.loadSlots, show, bind, finally, try_catch, setLoading, modify,
    setSlots, call, select_slots.
  unfold listSlots.
  destruct sc as [|[] sc']; cbn; repeat split; rewrite <- ?(assoc_L (++)); reflexivity.
Qed.

Lemma handleDragEnd_board_refused_witness :
  let w := page two_slots [] in
  let w' := exec (Dashboard.handleDragEnd "s1" (Some "s2")) w in
  db w' = db w
  ∧ slots w' = listSlots (db w)
  ∧ toasts w' = [toast_error "Erro ao reordenar slots"]
  ∧ loading w' = false.
Proof.
  apply (handleDragEnd_board_refused "s1" "s2" 0 1 (page two_slots [])); done.
Defined.

(** ** A reordering that is not written *)

(** X8: when the write of a board reordering does not reach the database
    the store is unchanged and the handler shows its error toast and
    reloads: the page falls back to the stored board, unless the reload
    fails as well, in which case it keeps showing the moved board (and a
    second toast). *)
Theorem handleDragEnd_board_reverts
  (active over_id : uuid) (oldIndex newIndex : nat) (w : World) :
  active ≠ over_id ->
  findIndex (fun s => s_id <$> s = Some active) (slots w) = Some oldIndex ->
  findIndex (fun s => s_id <$> s = Some over_id) (slots w) = Some newIndex ->
  goes_through w = false ->
  let w' := exec (Dashboard.handleDragEnd active (Some over_id)) w in
  let reload := goes_through (with_script (tail (script w)) w) in
  db w' = db w
  ∧ slots w' = (if reload then listSlots (db w)
                else arrayMove (slots w) oldIndex newIndex)
  ∧ toasts w' = (toasts w ++ toast_error "Erro ao reordenar slots"
                   :: (if reload then [] else [toast_error "Erro ao carregar pagamentos"]))%list
  ∧ loading w' = false.
Proof.
  intros Hne Hold Hnew Hgo w' reload.
  destruct (goes_through_false w Hgo) as (o & sc & Hsc & Ho).
  assert (w' = exec (show (toast_error "Erro ao reordenar slots") ;; Dashboard.loadSlots)
                    (with_script sc (with_slots (arrayMove (slots w) oldIndex newIndex) w)))
    as ->.
  { unfold w', exec, Dashboard.handleDragEnd.
    rewrite bool_decide_eq_false_2 by done.
    unfold bind at 1, gets. rewrite Hold, Hnew.
    unfold bind at 1, setSlots, modify, try_catch, bind at 1.
    rewrite (call_next _ _ o sc) by exact Hsc.
    destruct o; [by destruct Ho| |]; done. }
  subst reload. rewrite Hsc. cbn [tail].
  unfold goes_through. cbn [script with_script].
  unfold exec, Dashboard.loadSlots, show, bind, finally, try_catch, setLoading, modify,
    setSlots, call, select_slots.
  unfold listSlots.
  destruct sc as [|[] sc']; cbn; repeat split; rewrite <- ?(assoc_L (++)); reflexivity.
Qed.

Lemma handleDragEnd_board_reverts_witness :
  let w := page two_slots [errors] in
  let w' := exec (Dashboard.handleDragEnd "s1" (Some "s2")) w in
  db w' = db w
  ∧ slots w' = listSlots (db w)
  ∧ toasts w' = [toast_error "Erro ao reordenar slots"]
  ∧ loading w' = false.
Proof.
  apply (handleDragEnd_board_reverts "s1" "s2" 0 1 (page two_slots [errors])); done.
Defined.

(** X9: when the write of a queue reordering does not reach the database
    the store is unchanged and the handler shows its error toast and
    reloads: the page falls back to the stored queue, unless one of the two
    reads of the reload fails, in which case it keeps showing the moved
    list (and a second toast). *)
Theorem handleDragEnd_fila_reverts
  (active over_id : uuid) (oldIndex newIndex : nat) (w : World) :
  active ≠ over_id ->
  findIndex (fun t => t_id t = active) (fila w) = Some oldIndex ->
  findIndex (fun t => t_id t = over_id) (fila w) = Some newIndex ->
  goes_through w = false ->
  let w' := exec (Trabalhos.handleDragEnd active (Some over_id)) w in
  let reload := all_reach 2 (with_script (tail (script w)) w) in
  db w' = db w
  ∧ fila w' = (if reload then merge_sort prioridade_le (pendentes (db w))
               else arrayMove (fila w) oldIndex newIndex)
  ∧ toasts w' = (toasts w ++ toast_error "Erro ao reordenar trabalhos"
                   :: (if reload then [] else [toast_error "Erro ao carregar dados"]))%list.
Proof.
  intros Hne Hold Hnew Hgo w' reload.
  destruct (goes_through_false w Hgo) as (o & sc & Hsc & Ho).
  assert (w' = exec (show (toast_error "Erro ao reordenar trabalhos") ;; Trabalhos.loadData)
                    (with_script sc (with_fila (arrayMove (fila w) oldIndex newIndex) w)))
    as ->.
  { unfold w', exec, Trabalhos.handleDragEnd.
    rewrite bool_decide_eq_false_2 by done.
    unfold bind at 1, gets. rewrite Hold, Hnew.
    unfold bind at 1, setTrabalhos, modify, try_catch, bind at 1.
    rewrite (call_next _ _ o sc) by exact Hsc.
    destruct o; [by destruct Ho| |]; done. }
  subst reload. rewrite Hsc. cbn [tail]. unfold all_reach. cbn [script with_script].
  unfold exec, Trabalhos.loadData, show, bind, finally, try_catch, setFilaLoading, modify,
    setTrabalhos, promise_all, call, select_pessoas, select_fila.
  destruct sc as [|[] [|[] sc']]; cbn; rewrite <- ?(assoc_L (++)); split_and!; try done;
    try (rewrite bool_decide_eq_true_2 by (repeat constructor); done);
    rewrite bool_decide_eq_false_2; try done;
    intros H; repeat (apply Forall_cons in H as [? H]); done.
Qed.

Lemma handleDragEnd_fila_reverts_witness :
  let w := page backlog_of_three [rejects; reaches; errors] in
  let w' := exec (Trabalhos.handleDragEnd "t3" (Some "t1")) w in
  db w' = db w
  ∧ fila w' = arrayMove (fila w) 2 0
  ∧ toasts w' = [toast_error "Erro ao reordenar trabalhos";
                 toast_error "Erro ao carregar dados"].
Proof.
  apply (handleDragEnd_fila_reverts "t3" "t1" 2 0
           (page backlog_of_three [rejects; reaches; errors])); done.
Defined.

(** ** Loading the queue *)

Lemma loadData_reached (w : World) :
  script w = [] ->
  Trabalhos.loadData w
  = (Val tt, with_fila_loading false
               (with_fila (merge_sort prioridade_le (pendentes (db w))) w)).
Proof.
  intros Hsc. destruct w as [d sc sl lo ap fi fl ts ti]. simpl in Hsc. subst sc.
  reflexivity.
Qed.

(** X10: [loadData] never writes and always ends the loading state.  When
    both of its reads reach the database the page shows the pending work
    items, all of them, in ascending rank; when one of them fails the list
    of the page stays as it was and an error toast is shown. *)
Theorem loadData_all_or_nothing (w : World) :
  let w' := exec Trabalhos.loadData w in
  db w' = db w
  ∧ fila_loading w' = false
  ∧ (if all_reach 2 w
     then fila w' = merge_sort prioridade_le (pendentes (db w))
          ∧ toasts w' = toasts w
          ∧ Sorted prioridade_le (fila w')
          ∧ fila w' ≡ₚ filter (fun t => t_concluido t = false) (trabalhos (db w))
     else fila w' = fila w
          ∧ toasts w' = (toasts w ++ [toast_error "Erro ao carregar dados"])%list).
Proof.
  intros w'. subst w'.
  assert (Sorted prioridade_le (merge_sort prioridade_le (pendentes (db w)))) as Hs
    by (apply Sorted_merge_sort; apply _).
  pose proof (merge_sort_Permutation prioridade_le (pendentes (db w))) as Hp.
  unfold pendentes in Hp at 2.
  unfold all_reach, exec, Trabalhos.loadData, show, bind, finally, try_catch,
    setFilaLoading, modify, setTrabalhos, promise_all, call, select_pessoas, select_fila.
  destruct (script w) as [|[] [|[] sc']]; cbn; split_and!; try done;
    try (rewrite bool_decide_eq_true_2 by (repeat constructor); done);
    rewrite bool_decide_eq_false_2; try done;
    intros H; repeat (apply Forall_cons in H as [? H]); done.
Qed.

(** ** Launching a work item *)

Lemma vazio_false (s : string) : s ≠ "" -> vazio s = false.
Proof. intros H. unfold vazio. by apply bool_decide_eq_false_2. Qed.

Lemma foldl_max_spec (a : Z) (l : list Z) :
  a <= foldl Z.max a l
  ∧ Forall (fun x => x <= foldl Z.max a l) l
  ∧ (foldl Z.max a l = a ∨ foldl Z.max a l ∈ l).
Proof.
  revert a. induction l as [|x l IH]; intros a; simpl.
  - split_and!; [lia | constructor | by left].
  - destruct (IH (Z.max a x)) as (H1 & H2 & H3). split_and!.
    + lia.
    + constructor; [lia | done].
    + destruct H3 as [H3|H3].
      * rewrite H3. destruct (Z.max_spec a x) as [[_ ->]|[_ ->]]; [right; by left | by left].
      * right. by right.
Qed.

Lemma maxPrioridade_bound (ts : list Trabalho) :
  Forall (fun t => t_prioridade t <= TrabalhosForm.maxPrioridade ts) ts.
Proof.
  destruct ts as [|t ts]; [constructor|]. simpl.
  destruct (foldl_max_spec (t_prioridade t) (map t_prioridade ts)) as (H1 & H2 & _).
  constructor; [done|]. change (map t_prioridade ts) with (t_prioridade <$> ts) in H2.
  rewrite Forall_fmap in H2. exact H2.
Qed.

Lemma maxPrioridade_elem (ts : list Trabalho) :
  ts ≠ [] -> TrabalhosForm.maxPrioridade ts ∈ t_prioridade <$> ts.
Proof.
  destruct ts as [|t ts]; [done|]. intros _. simpl.
  destruct (foldl_max_spec (t_prioridade t) (map t_prioridade ts)) as (_ & _ & [->|H]).
  - by left.
  - by right.
Qed.

Lemma maxPrioridade_contiguous (ts : list Trabalho) :
  t_prioridade <$> ts ≡ₚ seqZ 0 (Z.of_nat (length ts)) ->
  TrabalhosForm.maxPrioridade ts + 1 = Z.of_nat (length ts).
Proof.
  intros Hp. destruct (decide (ts = [])) as [->|Hne]; [done|].
  pose proof (maxPrioridade_elem ts Hne) as Hin. rewrite Hp in Hin.
  apply elem_of_seqZ in Hin.
  assert (Z.of_nat (length ts) - 1 ∈ t_prioridade <$> ts) as Hlast.
  { rewrite Hp. apply elem_of_seqZ. destruct ts; [done|]. simpl length. lia. }
  apply list_elem_of_fmap in Hlast as (t & Ht & Hin').
  pose proof (proj1 (Forall_forall _ _) (maxPrioridade_bound ts) t Hin'). simpl in *. lia.
Qed.

Lemma sorted_last (l' l : list Trabalho) (x : Trabalho) :
  StronglySorted prioridade_le l' ->
  l' ≡ₚ l ++ [x] ->
  Forall (fun t => t_prioridade t < t_prioridade x) l ->
  last l' = Some x.
Proof.
  intros Hs Hp Hlt. destruct (last l') as [y|] eqn:E.
  2:{ apply last_None in E. subst l'. apply Permutation_nil_l in Hp. by destruct l. }
  apply last_Some in E as [l'' ->]. f_equal.
  assert (y ∈ (l ++ [x])%list) as Hy by (rewrite <- Hp; apply elem_of_app; right; by left).
  apply elem_of_app in Hy as [Hy|Hy]; [|by apply list_elem_of_singleton in Hy].
  pose proof (proj1 (Forall_forall _ _) Hlt y Hy) as Hyx. simpl in Hyx.
  assert (x ∈ (l'' ++ [y])%list) as Hx by (rewrite Hp; apply elem_of_app; right; by left).
  apply elem_of_app in Hx as [Hx|Hx].
  - pose proof (StronglySorted_app_1_elem_of prioridade_le l'' [y] x y Hs Hx) as Hle.
    unfold prioridade_le in Hle. specialize (Hle ltac:(by left)). lia.
  - apply list_elem_of_singleton in Hx. subst. lia.
Qed.

(** X11: a launch with all fields filled, an amount that parses and fits
    [DECIMAL(10,2)], a rank (one above the highest of the list of the
    page) that fits [INTEGER], a person that exists, on a page whose list
    is the pending set, with every call reaching the database: the store
    gains exactly the new work item, with
    nothing paid, not completed, and a rank above every pending rank; the
    reloaded queue ends with it; contiguous ranks stay contiguous;
    referential integrity and money conservation are kept; the work items
    stay sound exactly when the total is positive; the form is cleared. *)
Theorem handleSubmit_joins_the_end
  (parseFloat : string -> option money) (new_id : uuid) (form : TrabalhosForm.Form)
  (total : money) (w : World) :
  TrabalhosForm.pessoaId form ≠ "" ->
  TrabalhosForm.descricao form ≠ "" ->
  TrabalhosForm.valorTotal form ≠ "" ->
  parseFloat (TrabalhosForm.valorTotal form) = Some total ->
  Z.abs total < 10 ^ 10 ->
  - 2 ^ 31 <= TrabalhosForm.maxPrioridade (fila w) + 1 < 2 ^ 31 ->
  TrabalhosForm.pessoaId form ∈ p_id <$> pessoas (db w) ->
  new_id ∉ t_id <$> trabalhos (db w) ->
  script w = [] ->
  fila w ≡ₚ pendentes (db w) ->
  let novo := mkTrabalho new_id (TrabalhosForm.pessoaId form) (TrabalhosForm.descricao form)
                total 0 false (TrabalhosForm.maxPrioridade (fila w) + 1) in
  let res := TrabalhosForm.handleSubmit parseFloat new_id form w in
  res.1 = Val (TrabalhosForm.mkForm "" "" "" false)
  ∧ db res.2 = set_trabalhos (trabalhos (db w) ++ [novo]) (db w)
  ∧ Forall (fun t => t_prioridade t < t_prioridade novo) (pendentes (db w))
  ∧ last (fila res.2) = Some novo
  ∧ (ranks_contiguous (db w) -> ranks_contiguous (db res.2))
  ∧ (integridade (db w) -> integridade (db res.2))
  ∧ (integridade (db w) -> conservation (db w) -> conservation (db res.2))
  ∧ (items_ok (db w) -> (items_ok (db res.2) <-> 0 < total))
  ∧ toasts res.2 = (toasts w ++ [toast_success "Trabalho lançado com sucesso!"])%list.
Proof.
  intros Hp Hd Hv Hparse Hfits Hrank Hfk Hfresh Hsc Hsync novo res.
  assert (res = (Val (TrabalhosForm.mkForm "" "" "" false),
                 with_toasts (toasts w ++ [toast_success "Trabalho lançado com sucesso!"])
                   (with_fila_loading false
                      (with_fila (merge_sort prioridade_le (pendentes (db w) ++ [novo]))
                         (with_db (set_trabalhos (trabalhos (db w) ++ [novo]) (db w)) w)))))
    as ->.
  { unfold res, TrabalhosForm.handleSubmit.
    rewrite (vazio_false _ Hp), (vazio_false _ Hd), (vazio_false _ Hv). cbn [orb].
    unfold bind at 1, try_catch, bind at 1, gets, bind at 1.
    rewrite (call_reached _ w Hsc).
    unfold insert_trabalho. rewrite Hparse.
    rewrite (bool_decide_eq_true_2 _ Hfits), (bool_decide_eq_true_2 _ Hrank).
    rewrite (bool_decide_eq_true_2 _ Hfk), (bool_decide_eq_true_2 _ Hfresh). cbn [andb].
    fold novo. unfold bind at 1.
    rewrite loadData_reached by done.
    unfold pendentes, set_trabalhos. cbn [db with_db trabalhos].
    rewrite filter_app. unfold show, bind, modify, ret. cbn. done. }
  cbn [fst snd db with_toasts with_db with_fila_loading with_fila fila toasts].
  assert (Forall (fun t => t_prioridade t < t_prioridade novo) (pendentes (db w))) as Hlt.
  { rewrite <- Hsync. eapply Forall_impl; [apply maxPrioridade_bound|].
    intros t Ht. simpl in *. lia. }
  split_and!; try done.
  - apply sorted_last with (l := pendentes (db w)); [|apply merge_sort_Permutation|done].
    apply StronglySorted_merge_sort; apply _.
  - unfold ranks_contiguous, pendentes, set_trabalhos. cbn [trabalhos].
    rewrite filter_app, (filter_cons_True (fun t => t_concluido t = false) novo) by done.
    rewrite filter_nil. fold (pendentes (db w)). intros Hc.
    rewrite fmap_app, length_app, Nat2Z.inj_add. simpl length.
    rewrite seqZ_app by lia. rewrite Hc. simpl.
    assert (TrabalhosForm.maxPrioridade (fila w) + 1 = Z.of_nat (length (pendentes (db w))))
      as ->; [|done].
    rewrite <- Hsync. apply maxPrioridade_contiguous. by rewrite Hsync.
  - intros (Hfk' & Hs & Hh). unfold integridade, fk_ok, set_trabalhos.
    cbn [pessoas trabalhos pagamentos_semanais historico_pagamentos].
    split_and!.
    + apply Forall_app. split; [done|]. by constructor.
    + eapply Forall_impl; [exact Hs|]. intros s Hin. simpl in *.
      rewrite fmap_app. apply elem_of_app. by left.
    + eapply Forall_impl; [exact Hh|]. intros h [? Hin]. simpl in *. split; [done|].
      rewrite fmap_app. apply elem_of_app. by left.
  - intros (_ & _ & Hh) Hcons. unfold conservation, set_trabalhos, paid_in_history.
    cbn [trabalhos historico_pagamentos].
    apply Forall_app. split; [exact Hcons|]. constructor; [|constructor].
    cbn [t_valor_pago t_id novo]. rewrite filter_none; [done|].
    eapply Forall_impl; [exact Hh|]. intros h [_ Hin] E. simpl in *.
    apply Hfresh. by rewrite <- E.
  - intros Hok. unfold items_ok, set_trabalhos. cbn [trabalhos].
    rewrite Forall_app, Forall_singleton. unfold item_ok at 2.
    cbn [t_valor_pago t_valor_total t_concluido novo]. split.
    + intros (_ & Hb & Hc). symmetry in Hc. rewrite Z.geb_leb in Hc.
      apply Z.leb_gt in Hc. lia.
    + intros Hpos. split; [done|]. split; [lia|].
      symmetry. rewrite Z.geb_leb. apply Z.leb_gt. lia.
Qed.

(** X12: a launch with an empty field shows "Preencha todos os campos" and
    does nothing else: no storage call, form and store unchanged. *)
Theorem handleSubmit_missing_field
  (parseFloat : string -> option money) (new_id : uuid) (form : TrabalhosForm.Form)
  (w : World) :
  TrabalhosForm.pessoaId form = "" ∨ TrabalhosForm.descricao form = ""
  ∨ TrabalhosForm.valorTotal form = "" ->
  TrabalhosForm.handleSubmit parseFloat new_id form w
  = (Val form, with_toasts (toasts w ++ [toast_error "Preencha todos os campos"]) w).
Proof.
  intros H. unfold TrabalhosForm.handleSubmit, vazio.
  assert (bool_decide (TrabalhosForm.pessoaId form = "")
          || bool_decide (TrabalhosForm.descricao form = "")
          || bool_decide (TrabalhosForm.valorTotal form = "") = true) as ->; [|done].
  destruct H as [H|[H|H]]; rewrite (bool_decide_eq_true_2 _ H);
    by rewrite ?orb_true_r.
Qed.

(** X13: a launch whose insert does not reach the database, or is refused
    by it (an amount that is no number, a person that is not there), shows
    the error toast, leaves the store alone, keeps the fields of the form
    and ends the submitting state; the queue is not reloaded. *)
Theorem handleSubmit_refused
  (parseFloat : string -> option money) (new_id : uuid) (form : TrabalhosForm.Form)
  (w : World) :
  TrabalhosForm.pessoaId form ≠ "" ->
  TrabalhosForm.descricao form ≠ "" ->
  TrabalhosForm.valorTotal form ≠ "" ->
  goes_through w = false
  ∨ parseFloat (TrabalhosForm.valorTotal form) = None
  ∨ TrabalhosForm.pessoaId form ∉ p_id <$> pessoas (db w) ->
  TrabalhosForm.handleSubmit parseFloat new_id form w
  = (Val (TrabalhosForm.mkForm (TrabalhosForm.pessoaId form) (TrabalhosForm.descricao form)
            (TrabalhosForm.valorTotal form) false),
     with_toasts (toasts w ++ [toast_error "Erro ao lançar trabalho"])
       (with_script (tail (script w)) w)).
Proof.
  intros Hp Hd Hv H. unfold TrabalhosForm.handleSubmit.
  rewrite (vazio_false _ Hp), (vazio_false _ Hd), (vazio_false _ Hv). cbn [orb].
  unfold bind at 1, try_catch, bind at 1, gets, bind at 1.
  rewrite call_eq. destruct (next_rejects w); [done|].
  match goal with
  | |- context [if goes_through w then ?q else None] =>
      assert ((if goes_through w then q else None) = None) as ->; [|done]
  end.
  destruct H as [->|H]; [done|]. destruct (goes_through w); [|done].
  unfold insert_trabalho. destruct H as [->|H]; [done|].
  destruct (parseFloat _); [|done].
  by rewrite (bool_decide_eq_false_2 _ H), andb_false_r.
Qed.

Lemma handleSubmit_joins_the_end_witness :
  let form := TrabalhosForm.mkForm "p1" "banner" "30.00" false in
  let w := page backlog_of_three [] in
  let novo := mkTrabalho "t4" "p1" "banner" 3000 0 false 3 in
  let res := TrabalhosForm.handleSubmit (fun _ => Some 3000) "t4" form w in
  res.1 = Val (TrabalhosForm.mkForm "" "" "" false)
  ∧ db res.2 = set_trabalhos (trabalhos (db w) ++ [novo]) (db w)
  ∧ Forall (fun t => t_prioridade t < t_prioridade novo) (pendentes (db w))
  ∧ last (fila res.2) = Some novo
  ∧ (ranks_contiguous (db w) -> ranks_contiguous (db res.2))
  ∧ (integridade (db w) -> integridade (db res.2))
  ∧ (integridade (db w) -> conservation (db w) -> conservation (db res.2))
  ∧ (items_ok (db w) -> (items_ok (db res.2) <-> 0 < 3000))
  ∧ toasts res.2 = (toasts w ++ [toast_success "Trabalho lançado com sucesso!"])%list.
Proof.
  apply (handleSubmit_joins_the_end (fun _ => Some 3000) "t4"
           (TrabalhosForm.mkForm "p1" "banner" "30.00" false) 3000
           (page backlog_of_three []));
    try done; apply (bool_decide_unpack _); vm_compute; exact I.
Defined.

Lemma handleSubmit_missing_field_witness :
  let form := TrabalhosForm.mkForm "p1" "" "30.00" false in
  let w := page backlog_of_three [] in
  TrabalhosForm.handleSubmit (fun _ => Some 3000) "t4" form w
  = (Val form, with_toasts (toasts w ++ [toast_error "Preencha todos os campos"]) w).
Proof.
  apply (handleSubmit_missing_field (fun _ => Some 3000) "t4"
           (TrabalhosForm.mkForm "p1" "" "30.00" false) (page backlog_of_three [])).
  right. left. reflexivity.
Defined.

Lemma handleSubmit_refused_witness :
  let form := TrabalhosForm.mkForm "p7" "banner" "30.00" true in
  let w := page backlog_of_three [] in
  TrabalhosForm.handleSubmit (fun _ => Some 3000) "t4" form w
  = (Val (TrabalhosForm.mkForm "p7" "banner" "30.00" false),
     with_toasts (toasts w ++ [toast_error "Erro ao lançar trabalho"])
       (with_script (tail (script w)) w)).
Proof.
  apply (handleSubmit_refused (fun _ => Some 3000) "t4"
           (TrabalhosForm.mkForm "p7" "banner" "30.00" true) (page backlog_of_three []));
    try done.
  right. right. apply (bool_decide_unpack _). vm_compute. exact I.
Defined.

(** ** People *)

Lemma loadPessoas_run (pg : Pessoas.Page) (w : World) :
  Pessoas.loadPessoas pg w
  = if goes_through w
    then (Val (Pessoas.with_loading false (Pessoas.with_lista (pessoas (db w)) pg)),
          with_script (tail (script w)) w)
    else (Val (Pessoas.with_loading false pg),
          with_toasts (toasts w ++ [toast_error "Erro ao carregar pessoas"])
            (with_script (tail (script w)) w)).
Proof.
  unfold Pessoas.loadPessoas, bind, try_catch, show, modify, ret, select_pessoas.
  rewrite call_eq.
  destruct (goes_through w) eqn:Hgo;
    [rewrite (goes_through_not_rejects w Hgo) | by destruct (next_rejects w)].
  destruct w as [d sc sl lo ap fi fl ts ti]. reflexivity.
Qed.

Lemma filter_filter_implied {A} (P Q : A -> Prop) `{forall x, Decision (P x)}
  `{forall x, Decision (Q x)} (l : list A) :
  Forall (fun x => P x -> Q x) l -> filter P (filter Q l) = filter P l.
Proof.
  induction 1 as [|x l Hx Hl IH]; [done|].
  rewrite !filter_cons. destruct (decide (Q x)) as [HQ|HQ].
  - rewrite filter_cons. destruct (decide (P x)); by rewrite IH.
  - destruct (decide (P x)) as [HP|HP]; [by destruct HQ; apply Hx | done].
Qed.

Lemma delete_pessoa_integridade (x : uuid) (d d' : DB) (u : unit) :
  delete_pessoa x d = Some (u, d') -> integridade d -> integridade d'.
Proof.
  intros [= _ <-] (Hfk & Hs & Hh). unfold integridade, fk_ok. cbn [pessoas trabalhos
    pagamentos_semanais historico_pagamentos].
  assert (forall k, k ∈ t_id <$> trabalhos d -> k ∉ map t_id (trabalhos_de x d) ->
            k ∈ t_id <$> filter (fun t => t_pessoa_id t ≠ x) (trabalhos d)) as Hkeep.
  { intros k Hk Hgone. apply list_elem_of_fmap in Hk as (t & -> & Ht).
    apply list_elem_of_fmap. exists t. split; [done|].
    apply list_elem_of_filter. split; [|done]. intros Hx. apply Hgone.
    apply list_elem_of_fmap. exists t. split; [done|].
    unfold trabalhos_de. by apply list_elem_of_filter. }
  assert (forall k, k ∈ p_id <$> pessoas d -> k ≠ x ->
            k ∈ p_id <$> filter (fun p => p_id p ≠ x) (pessoas d)) as Hkeep_p.
  { intros k Hk Hne. apply list_elem_of_fmap in Hk as (p & -> & Hp).
    apply list_elem_of_fmap. exists p. split; [done|]. by apply list_elem_of_filter. }
  split_and!.
  - apply Forall_forall. intros t Ht. apply list_elem_of_filter in Ht as [Hne Ht].
    apply Hkeep_p; [|done]. by apply (proj1 (Forall_forall _ _) Hfk).
  - apply Forall_forall. intros s Hin. apply list_elem_of_filter in Hin as [Hgone Hin].
    apply Hkeep; [|done]. by apply (proj1 (Forall_forall _ _) Hs).
  - apply Forall_forall. intros h Hin. apply list_elem_of_filter in Hin as [[Hne Hgone] Hin].
    destruct (proj1 (Forall_forall _ _) Hh h Hin) as [Hp Ht]. split.
    + by apply Hkeep_p.
    + by apply Hkeep.
Qed.

Lemma delete_pessoa_conservation (x : uuid) (d d' : DB) (u : unit) :
  delete_pessoa x d = Some (u, d') ->
  historico_coerente d -> conservation d -> conservation d'.
Proof.
  intros [= _ <-] Hco Hcons. unfold conservation, paid_in_history.
  cbn [trabalhos historico_pagamentos].
  apply Forall_forall. intros t Ht. apply list_elem_of_filter in Ht as [Hne Ht].
  rewrite (proj1 (Forall_forall _ _) Hcons t Ht). unfold paid_in_history.
  f_equal. f_equal. symmetry. apply filter_filter_implied.
  apply Forall_forall. intros h Hh Hid.
  pose proof (proj1 (Forall_forall _ _) Hco h Hh) as Hrow.
  pose proof (proj1 (Forall_forall _ _) Hrow t Ht (eq_sym Hid)) as Hpt.
  split; [congruence|].
  intros Hgone. apply list_elem_of_fmap in Hgone as (t' & Hid' & Ht').
  unfold trabalhos_de in Ht'. apply list_elem_of_filter in Ht' as [Hx Ht'].
  pose proof (proj1 (Forall_forall _ _) Hrow t' Ht' (eq_sym Hid')). congruence.
Qed.

(** X14: a confirmed removal whose delete reaches the database succeeds
    whatever slots are pending: afterwards no person, work item or history
    row names the person, no slot names one of the person's work items, the
    work items of everyone else are untouched, referential integrity holds
    if it held, money conservation holds if it held and the history was
    coherent; the selection is cleared and the success toast shown. *)
Theorem handleRemovePessoa_cascades (x : uuid) (pg : Pessoas.Page) (w : World) :
  goes_through w = true ->
  let res := Pessoas.handleRemovePessoa true x pg w in
  let d' := db res.2 in
  (x ∉ p_id <$> pessoas d')
  ∧ (x ∉ t_pessoa_id <$> trabalhos d')
  ∧ (x ∉ h_pessoa_id <$> historico_pagamentos d')
  ∧ Forall (fun s => s_trabalho_id s ∉ t_id <$> trabalhos_de x (db w))
           (pagamentos_semanais d')
  ∧ trabalhos d' = filter (fun t => t_pessoa_id t ≠ x) (trabalhos (db w))
  ∧ (integridade (db w) -> integridade d')
  ∧ (historico_coerente (db w) -> conservation (db w) -> conservation d')
  ∧ (exists pg', res.1 = Val pg'
       ∧ Pessoas.pessoaSelecionada pg' = None ∧ Pessoas.submitting pg' = false)
  ∧ toast_success "Pessoa removida com sucesso!" ∈ toasts res.2.
Proof.
  intros Hgo res d'.
  assert (exists pg1 w1,
            res = (Val (Pessoas.with_submitting false pg1), w1)
            ∧ Pessoas.pessoaSelecionada pg1 = None
            ∧ delete_pessoa x (db w) = Some (tt, db w1)
            ∧ toast_success "Pessoa removida com sucesso!" ∈ toasts w1)
    as (pg1 & w1 & -> & Hsel & Hdel & Htoast).
  { unfold res, Pessoas.handleRemovePessoa. cbn [negb].
    unfold bind at 1, try_catch, bind at 1.
    rewrite call_eq, (goes_through_not_rejects w Hgo), Hgo.
    cbn [delete_pessoa]. unfold bind at 1, show, modify.
    rewrite loadPessoas_run.
    match goal with |- context [if ?b then _ else _] => destruct b end;
      eexists _, _; (split; [reflexivity|]); cbn;
      (split; [done|]); (split; [done|]);
      rewrite ?elem_of_app, !elem_of_cons; auto. }
  subst d'. cbn [fst snd]. injection Hdel as Hdb.
  split_and!.
  - rewrite <- Hdb. cbn. intros (p & Hp & Hin)%list_elem_of_fmap.
    by apply list_elem_of_filter in Hin as [Hne _].
  - rewrite <- Hdb. cbn. intros (t & Hp & Hin)%list_elem_of_fmap.
    by apply list_elem_of_filter in Hin as [Hne _].
  - rewrite <- Hdb. cbn. intros (h & Hp & Hin)%list_elem_of_fmap.
    by apply list_elem_of_filter in Hin as [[Hne _] _].
  - rewrite <- Hdb. cbn. apply Forall_forall. intros s Hin.
    by apply list_elem_of_filter in Hin as [Hne _].
  - by rewrite <- Hdb.
  - apply (delete_pessoa_integridade x _ _ tt). by rewrite <- Hdb.
  - apply (delete_pessoa_conservation x _ _ tt). by rewrite <- Hdb.
  - exists (Pessoas.with_submitting false pg1). by destruct pg1.
  - done.
Qed.

Lemma handleRemovePessoa_cascades_witness :
  let w := page two_slots [] in
  let res := Pessoas.handleRemovePessoa true "p1"
               (Pessoas.mkPage [ana] false false (Some ana) None false "" "") w in
  let d' := db res.2 in
  ("p1" ∉ p_id <$> pessoas d')
  ∧ ("p1" ∉ t_pessoa_id <$> trabalhos d')
  ∧ ("p1" ∉ h_pessoa_id <$> historico_pagamentos d')
  ∧ Forall (fun s => s_trabalho_id s ∉ t_id <$> trabalhos_de "p1" (db w))
           (pagamentos_semanais d')
  ∧ trabalhos d' = filter (fun t => t_pessoa_id t ≠ "p1") (trabalhos (db w))
  ∧ (integridade (db w) -> integridade d')
  ∧ (historico_coerente (db w) -> conservation (db w) -> conservation d')
  ∧ (exists pg', res.1 = Val pg'
       ∧ Pessoas.pessoaSelecionada pg' = None ∧ Pessoas.submitting pg' = false)
  ∧ toast_success "Pessoa removida com sucesso!" ∈ toasts res.2.
Proof.
  apply (handleRemovePessoa_cascades "p1"
           (Pessoas.mkPage [ana] false false (Some ana) None false "" "")
           (page two_slots [])).
  reflexivity.
Defined.



(** X16: registering a person never touches work items, slots or history.
    With both fields filled, a fresh id and a call that reaches the
    database the people table gains exactly the new person, the fields are
    cleared and referential integrity is kept; in every other case the
    people table is unchanged, the fields are kept and the last toast is an
    error. *)
Theorem handleSubmit_pessoa (new_id : uuid) (pg : Pessoas.Page) (w : World) :
  let res := Pessoas.handleSubmit new_id pg w in
  let nova := mkPessoa new_id (Pessoas.nome pg) (Pessoas.funcao pg) in
  trabalhos (db res.2) = trabalhos (db w)
  ∧ pagamentos_semanais (db res.2) = pagamentos_semanais (db w)
  ∧ historico_pagamentos (db res.2) = historico_pagamentos (db w)
  ∧ (if bool_decide (Pessoas.nome pg ≠ "" ∧ Pessoas.funcao pg ≠ ""
                     ∧ new_id ∉ p_id <$> pessoas (db w))
        && goes_through w
     then pessoas (db res.2) = (pessoas (db w) ++ [nova])%list
          ∧ (exists pg', res.1 = Val pg'
               ∧ Pessoas.nome pg' = "" ∧ Pessoas.funcao pg' = "")
          ∧ (integridade (db w) -> integridade (db res.2))
     else pessoas (db res.2) = pessoas (db w)
          ∧ (exists pg', res.1 = Val pg'
               ∧ Pessoas.nome pg' = Pessoas.nome pg
               ∧ Pessoas.funcao pg' = Pessoas.funcao pg)
          ∧ exists msg, last (toasts res.2) = Some (toast_error msg)).
Proof.
  intros res nova.
  assert (forall d P, integridade d ->
            integridade (mkDB (pessoas d ++ [P]) (trabalhos d) (pagamentos_semanais d)
                              (historico_pagamentos d))) as Hint.
  { intros d P (Hfk & Hs & Hh). unfold integridade, fk_ok. cbn. split_and!; try done.
    - eapply Forall_impl; [exact Hfk|]. intros t Ht. simpl in *.
      rewrite fmap_app. apply elem_of_app. by left.
    - eapply Forall_impl; [exact Hh|]. intros h [Hp Ht]. simpl in *. split; [|done].
      rewrite fmap_app. apply elem_of_app. by left. }
  destruct (decide (Pessoas.nome pg ≠ "" ∧ Pessoas.funcao pg ≠ ""
                    ∧ new_id ∉ p_id <$> pessoas (db w))) as [(Hn & Hf & Hfresh)|Hno].
  - rewrite (bool_decide_eq_true_2 _ (conj Hn (conj Hf Hfresh))). cbn [andb].
    destruct (goes_through w) eqn:Hgo.
    + assert (exists pg1 w1,
                res = (Val (Pessoas.with_submitting false
                              (Pessoas.with_loading false
                                 (Pessoas.with_lista pg1
                                    (Pessoas.with_campos "" ""
                                       (Pessoas.with_submitting true pg))))), w1)
                ∧ db w1 = mkDB (pessoas (db w) ++ [nova]) (trabalhos (db w))
                               (pagamentos_semanais (db w)) (historico_pagamentos (db w)))
        as (pg1 & w1 & -> & Hdb).
      { unfold res, Pessoas.handleSubmit.
        rewrite (vazio_false _ Hn), (vazio_false _ Hf). cbn [orb].
        unfold bind at 1, try_catch, bind at 1.
        rewrite call_eq, (goes_through_not_rejects w Hgo), Hgo.
        unfold insert_pessoa. rewrite (bool_decide_eq_true_2 _ Hfresh).
        unfold bind at 1. rewrite loadPessoas_run.
        match goal with |- context [if ?b then _ else _] => destruct b end;
          unfold show, bind, modify, ret; cbn.
        * by eexists _, _.
        * exists (Pessoas.lista pg). by eexists. }
      cbn [fst snd]. rewrite Hdb. cbn. split_and!; try done.
      * eexists. split; [reflexivity|]. done.
      * apply Hint.
    + assert (res = (Val (Pessoas.with_submitting false pg),
                     with_toasts (toasts w ++ [toast_error "Erro ao cadastrar pessoa"])
                       (with_script (tail (script w)) w))) as ->.
      { unfold res, Pessoas.handleSubmit.
        rewrite (vazio_false _ Hn), (vazio_false _ Hf). cbn [orb].
        unfold bind at 1, try_catch, bind at 1.
        rewrite call_eq, Hgo. by destruct (next_rejects w), pg. }
      cbn. split_and!; try done.
      * by eexists.
      * eexists. apply last_snoc.
  - rewrite (bool_decide_eq_false_2 _ Hno). cbn [andb].
    assert (exists w1 msg,
              res = (Val (if vazio (Pessoas.nome pg) || vazio (Pessoas.funcao pg)
                          then pg else Pessoas.with_submitting false pg), w1)
              ∧ db w1 = db w ∧ last (toasts w1) = Some (toast_error msg))
      as (w1 & msg & -> & Hdb & Hlast).
    { unfold res, Pessoas.handleSubmit.
      destruct (vazio (Pessoas.nome pg) || vazio (Pessoas.funcao pg)) eqn:Hv.
      { unfold bind, show, modify, ret. cbn. eexists _, _.
        split; [reflexivity|]. split; [done|]. apply last_snoc. }
      apply orb_false_elim in Hv as [Hn Hf].
      unfold vazio in Hn, Hf.
      apply bool_decide_eq_false_1 in Hn. apply bool_decide_eq_false_1 in Hf.
      unfold bind at 1, try_catch, bind at 1.
      rewrite call_eq. destruct (next_rejects w).
      { unfold show, bind, modify, ret. cbn. eexists _, _.
        split; [by destruct pg|]. split; [done|]. apply last_snoc. }
      assert ((if goes_through w
               then insert_pessoa new_id (Pessoas.nome pg) (Pessoas.funcao pg) (db w)
               else None) = None) as ->.
      { destruct (goes_through w); [|done]. unfold insert_pessoa.
        rewrite bool_decide_eq_false_2; [done|]. intros Hfresh. by apply Hno. }
      unfold show, bind, modify, ret, throw. cbn. eexists _, _.
      split; [by destruct pg|]. split; [done|]. apply last_snoc. }
    cbn [fst snd]. rewrite Hdb. split_and!; try done.
    + eexists. split; [reflexivity|]. by destruct (_ || _).
    + by exists msg.
Qed.

(** ** The details of a person *)

Lemma foldl_soma {A} (f : A -> Z) (l : list A) (a : Z) :
  foldl (fun sum x => sum + f x) a l = a + foldr Z.add 0 (f <$> l).
Proof.
  revert a. induction l as [|x l IH]; intros a; [simpl; lia|].
  rewrite fmap_cons. cbn [foldl foldr]. rewrite IH. lia.
Qed.

Lemma soma_app (l k : list Z) :
  foldr Z.add 0 (l ++ k) = foldr Z.add 0 l + foldr Z.add 0 k.
Proof. induction l as [|x l IH]; simpl; lia. Qed.

Lemma soma_reverse (l : list Z) : foldr Z.add 0 (reverse l) = foldr Z.add 0 l.
Proof.
  induction l as [|x l IH]; [done|]. rewrite reverse_cons, soma_app, IH. simpl. lia.
Qed.

Lemma soma_zero {A} (f : A -> Z) (l : list A) :
  Forall (fun x => f x = 0) l -> foldr Z.add 0 (f <$> l) = 0.
Proof. induction 1 as [|x l Hx _ IH]; [done|]. rewrite fmap_cons. cbn [foldr]. lia. Qed.

Lemma soma_nonneg {A} (f : A -> Z) (l : list A) :
  Forall (fun x => 0 <= f x) l -> 0 <= foldr Z.add 0 (f <$> l).
Proof. induction 1 as [|x l Hx _ IH]; [done|]. rewrite fmap_cons. cbn [foldr]. lia. Qed.

Lemma soma_add {A} (f g : A -> Z) (l : list A) :
  foldr Z.add 0 ((fun x => f x + g x) <$> l)
  = foldr Z.add 0 (f <$> l) + foldr Z.add 0 (g <$> l).
Proof. induction l as [|x l IH]; [done|]. rewrite !fmap_cons. cbn [foldr]. lia. Qed.

(** Among rows with distinct keys, the rows that carry the key of [t0]
    and satisfy [P] are [t0] alone, if it satisfies [P]. *)
Lemma soma_unica (P : Trabalho -> Prop) `{forall t, Decision (P t)}
  (T : list Trabalho) (t0 : Trabalho) (v : Z) :
  NoDup (t_id <$> T) -> t0 ∈ T ->
  foldr Z.add 0 ((fun t => if bool_decide (t_id t0 = t_id t) then v else 0) <$> filter P T)
  = if decide (P t0) then v else 0.
Proof.
  intros Hnd Hin. induction T as [|t T IH]; [by apply elem_of_nil in Hin|].
  rewrite fmap_cons in Hnd. apply NoDup_cons in Hnd as [Hnotin Hnd].
  assert (t_id t0 ∉ t_id <$> T ->
          foldr Z.add 0 ((fun t => if bool_decide (t_id t0 = t_id t) then v else 0)
                         <$> filter P T) = 0) as Hzero.
  { intros Hno. apply soma_zero, Forall_forall. intros t' Ht'.
    apply list_elem_of_filter in Ht' as [_ Ht'].
    rewrite bool_decide_eq_false_2; [done|]. intros E. apply Hno.
    rewrite E. apply list_elem_of_fmap. eauto. }
  apply elem_of_cons in Hin as [->|Hin].
  - rewrite filter_cons. destruct (decide (P t)); [|by apply Hzero].
    rewrite fmap_cons. cbn [foldr].
    rewrite bool_decide_eq_true_2 by done. rewrite Hzero by done. lia.
  - assert (t_id t0 ≠ t_id t) as Hne.
    { intros E. apply Hnotin. rewrite <- E. apply list_elem_of_fmap. eauto. }
    rewrite filter_cons. destruct (decide (P t)).
    + rewrite fmap_cons. cbn [foldr].
      rewrite (bool_decide_eq_false_2 _ Hne). rewrite IH by done. lia.
    + by apply IH.
Qed.

Lemma pago_por_pessoa (x : uuid) (T : list Trabalho) (H : list HistoricoPagamento) :
  NoDup (t_id <$> T) ->
  Forall (fun h => h_trabalho_id h ∈ t_id <$> T) H ->
  Forall (fun h => Forall (fun t => t_id t = h_trabalho_id h ->
                                    t_pessoa_id t = h_pessoa_id h) T) H ->
  foldr Z.add 0 (h_valor <$> filter (fun h => h_pessoa_id h = x) H)
  = foldr Z.add 0
      ((fun t => foldr Z.add 0 (h_valor <$> filter (fun h => h_trabalho_id h = t_id t) H))
       <$> filter (fun t => t_pessoa_id t = x) T).
Proof.
  intros Hnd Hfk Hco. induction H as [|h H IH].
  { simpl. symmetry. by apply soma_zero, Forall_forall. }
  apply Forall_cons in Hfk as [Hh Hfk]. apply Forall_cons in Hco as [Hhc Hco].
  specialize (IH Hfk Hco).
  apply list_elem_of_fmap in Hh as (t0 & Hid & Ht0).
  pose proof (proj1 (Forall_forall _ _) Hhc t0 Ht0 (eq_sym Hid)) as Hp.
  transitivity ((if decide (t_pessoa_id t0 = x) then h_valor h else 0)
                + foldr Z.add 0 (h_valor <$> filter (fun h => h_pessoa_id h = x) H)).
  { rewrite filter_cons. rewrite <- Hp.
    destruct (decide (t_pessoa_id t0 = x)); rewrite ?fmap_cons; cbn [foldr]; lia. }
  rewrite IH.
  pose proof (soma_unica (fun t => t_pessoa_id t = x) T t0 (h_valor h) Hnd Ht0) as Hu.
  cbv beta in Hu. rewrite <- Hu.
  rewrite <- soma_add. f_equal. apply list_fmap_ext. intros i t _. simpl.
  rewrite filter_cons. rewrite Hid.
  destruct (decide (t_id t0 = t_id t)) as [E|E].
  - rewrite (bool_decide_eq_true_2 _ E). rewrite fmap_cons. cbn [foldr]. done.
  - rewrite (bool_decide_eq_false_2 _ E). lia.
Qed.

Lemma a_pagar_por_pessoa (x : uuid) (T : list Trabalho) :
  Forall item_ok T ->
  foldr Z.add 0 ((fun t => t_valor_total t - t_valor_pago t)
                 <$> filter (fun t => t_pessoa_id t = x ∧ t_concluido t = false) T)
  = foldr Z.add 0 ((fun t => t_valor_total t - t_valor_pago t)
                   <$> filter (fun t => t_pessoa_id t = x) T).
Proof.
  induction 1 as [|t T [Hb Hc] _ IH]; [done|].
  rewrite !filter_cons.
  destruct (decide (t_pessoa_id t = x)) as [Hx|Hx].
  - destruct (decide (t_pessoa_id t = x ∧ t_concluido t = false)) as [[_ Ho]|Hno].
    + rewrite !fmap_cons. cbn [foldr]. by rewrite IH.
    + rewrite !fmap_cons. cbn [foldr]. rewrite IH.
      assert (t_concluido t = true) as Hclosed.
      { destruct (t_concluido t); [done|]. by destruct Hno. }
      rewrite Hclosed in Hc. symmetry in Hc. apply Z.geb_le in Hc. lia.
  - rewrite decide_False by (by intros [? _]). exact IH.
Qed.

(** X17: a click on a person, with both reads reaching the database,
    selects the person and shows details computed from the store, which is
    not written: the history shown is the person's history, [totalPago] is
    its sum, [totalAPagar] is not negative when the work items are sound,
    and in a consistent store the two add up to the sum of the totals of
    all the person's work items. *)
Theorem handlePessoaClick_totals (pessoa : Pessoa) (pg : Pessoas.Page) (w : World) :
  all_reach 2 w = true ->
  let res := Pessoas.handlePessoaClick pessoa pg w in
  let suas := filter (fun h => h_pessoa_id h = p_id pessoa) (historico_pagamentos (db w)) in
  exists pg' det,
    res.1 = Val pg'
    ∧ db res.2 = db w
    ∧ Pessoas.pessoaSelecionada pg' = Some pessoa
    ∧ Pessoas.detalhes pg' = Some det
    ∧ Pessoas.loadingDetalhes pg' = false
    ∧ Pessoas.historico det ≡ₚ suas
    ∧ Pessoas.totalPago det = foldr Z.add 0 (h_valor <$> suas)
    ∧ (items_ok (db w) -> 0 <= Pessoas.totalAPagar det)
    ∧ (items_ok (db w) -> integridade (db w) -> NoDup (t_id <$> trabalhos (db w)) ->
       historico_coerente (db w) -> conservation (db w) ->
       Pessoas.totalAPagar det + Pessoas.totalPago det
       = foldr Z.add 0 (t_valor_total <$> trabalhos_de (p_id pessoa) (db w))).
Proof.
  intros Hall res suas.
  set (abertos := filter (fun t => t_pessoa_id t = p_id pessoa ∧ t_concluido t = false)
                         (trabalhos (db w))).
  assert (exists w1,
            res = (Val (Pessoas.with_loadingDetalhes false
                          (Pessoas.with_detalhes
                             (Some (Pessoas.mkPessoaDetalhes (Pessoas.soma_a_pagar abertos)
                                      (Pessoas.soma_pago (reverse suas)) (reverse suas)))
                             (Pessoas.with_loadingDetalhes true
                                (Pessoas.with_pessoaSelecionada (Some pessoa) pg)))), w1)
            ∧ db w1 = db w) as (w1 & -> & Hdb).
  { unfold res, Pessoas.handlePessoaClick, Pessoas.loadDetalhes, bind, try_catch,
      promise_all, call, select_abertos, select_historico, ret.
    unfold all_reach in Hall. apply bool_decide_eq_true_1 in Hall.
    destruct (script w) as [|o1 [|o2 sc]]; cbn.
    - by eexists.
    - apply Forall_cons in Hall as [<- _]. cbn. by eexists.
    - apply Forall_cons in Hall as [<- Hall]. apply Forall_cons in Hall as [<- _].
      cbn. by eexists. }
  eexists _, _. cbn [fst snd]. split; [reflexivity|]. split; [done|].
  cbn [Pessoas.pessoaSelecionada Pessoas.detalhes Pessoas.loadingDetalhes
       Pessoas.with_loadingDetalhes Pessoas.with_detalhes Pessoas.with_pessoaSelecionada].
  split; [done|]. split; [reflexivity|].
  cbn [Pessoas.totalPago Pessoas.totalAPagar Pessoas.historico].
  split_and!; try done.
  - apply reverse_Permutation.
  - unfold Pessoas.soma_pago. rewrite foldl_soma, fmap_reverse, soma_reverse. apply Z.add_0_l.
  - intros Hok. unfold Pessoas.soma_a_pagar. rewrite foldl_soma.
    assert (0 <= foldr Z.add 0 ((fun t => t_valor_total t - t_valor_pago t) <$> abertos));
      [|lia].
    apply soma_nonneg, Forall_forall. intros t Ht.
    apply list_elem_of_filter in Ht as [_ Ht].
    destruct (proj1 (Forall_forall _ _) Hok t Ht) as [Hb _]. lia.
  - intros Hok (_ & _ & Hfk) Hnd Hco Hcons.
    unfold Pessoas.soma_a_pagar, Pessoas.soma_pago.
    rewrite !foldl_soma, fmap_reverse, soma_reverse. unfold abertos.
    rewrite (a_pagar_por_pessoa _ _ Hok).
    unfold suas. rewrite (pago_por_pessoa (p_id pessoa) (trabalhos (db w))); [|done| |done].
    2:{ eapply Forall_impl; [exact Hfk|]. by intros h [_ ?]. }
    unfold trabalhos_de.
    assert (foldr Z.add 0
              ((fun t => foldr Z.add 0
                           (h_valor <$> filter (fun h => h_trabalho_id h = t_id t)
                                               (historico_pagamentos (db w))))
               <$> filter (fun t => t_pessoa_id t = p_id pessoa) (trabalhos (db w)))
            = foldr Z.add 0 (t_valor_pago
                             <$> filter (fun t => t_pessoa_id t = p_id pessoa)
                                        (trabalhos (db w)))) as ->.
    { f_equal. apply Forall_fmap_ext_1, Forall_forall. intros t Ht.
      apply list_elem_of_filter in Ht as [_ Ht].
      symmetry. exact (proj1 (Forall_forall _ _) Hcons t Ht). }
    rewrite !Z.add_0_l, <- soma_add.
    f_equal. apply list_fmap_ext. intros i t _. simpl. lia.
Qed.

Lemma handlePessoaClick_totals_witness :
  let pg := Pessoas.mkPage [ana] false false None None false "" "" in
  let w := page backlog_with_gap [] in
  let res := Pessoas.handlePessoaClick ana pg w in
  let suas := filter (fun h => h_pessoa_id h = "p1") (historico_pagamentos (db w)) in
  exists pg' det,
    res.1 = Val pg'
    ∧ db res.2 = db w
    ∧ Pessoas.pessoaSelecionada pg' = Some ana
    ∧ Pessoas.detalhes pg' = Some det
    ∧ Pessoas.loadingDetalhes pg' = false
    ∧ Pessoas.historico det ≡ₚ suas
    ∧ Pessoas.totalPago det = foldr Z.add 0 (h_valor <$> suas)
    ∧ (items_ok (db w) -> 0 <= Pessoas.totalAPagar det)
    ∧ (items_ok (db w) -> integridade (db w) -> NoDup (t_id <$> trabalhos (db w)) ->
       historico_coerente (db w) -> conservation (db w) ->
       Pessoas.totalAPagar det + Pessoas.totalPago det
       = foldr Z.add 0 (t_valor_total <$> trabalhos_de "p1" (db w))).
Proof.
  apply (handlePessoaClick_totals ana
           (Pessoas.mkPage [ana] false false None None false "" "")
           (page backlog_with_gap [])).
  reflexivity.
Defined.

(** X18: a click on a person when one of the two reads fails selects the
    person, shows the error toast, ends the loading state and leaves the
    details that were shown before in place. *)
Theorem handlePessoaClick_failed (pessoa : Pessoa) (pg : Pessoas.Page) (w : World) :
  all_reach 2 w = false ->
  Pessoas.handlePessoaClick pessoa pg w
  = (Val (Pessoas.with_loadingDetalhes false
            (Pessoas.with_pessoaSelecionada (Some pessoa) pg)),
     with_toasts (toasts w ++ [toast_error "Erro ao carregar detalhes da pessoa"])
       (with_script (drop 2 (script w)) w)).
Proof.
  intros Hall. unfold all_reach in Hall. apply bool_decide_eq_false_1 in Hall.
  unfold Pessoas.handlePessoaClick, Pessoas.loadDetalhes, bind, try_catch,
    promise_all, call, select_abertos, select_historico, ret, show, modify.
  destruct (script w) as [|[] [|[] sc]]; cbn; try done;
    destruct Hall; repeat constructor.
Qed.

Lemma handlePessoaClick_failed_witness :
  let pg := Pessoas.mkPage [ana] false false None None false "" "" in
  let w := page two_slots [reaches; errors] in
  Pessoas.handlePessoaClick ana pg w
  = (Val (Pessoas.with_loadingDetalhes false
            (Pessoas.with_pessoaSelecionada (Some ana) pg)),
     with_toasts (toasts w ++ [toast_error "Erro ao carregar detalhes da pessoa"])
       (with_script (drop 2 (script w)) w)).
Proof.
  apply (handlePessoaClick_failed ana
           (Pessoas.mkPage [ana] false false None None false "" "")
           (page two_slots [reaches; errors])).
  reflexivity.
Defined.

(** ** The per-row approval when every call reaches the database *)

Lemma loadSlots_reached (w : World) :
  script w = [] ->
  Dashboard.loadSlots w = (Val tt, with_loading false (with_slots (listSlots (db w)) w)).
Proof.
  intros Hsc. destruct w as [d sc sl lo ap fi fl ts ti]. simpl in Hsc. subst sc.
  reflexivity.
Qed.










Lemma handleApprove_per_row_run (w : World) (d' : DB) :
  script w = [] -> filled (slots w) ≠ [] ->
  forM (filled (slots w)) DashboardPerRow.approve_slot (with_approving true w)
  = (Val tt, with_db d' (with_approving true w)) ->
  exec DashboardPerRow.handleApprove w
  = let d'' := set_pagamentos_semanais
                 (filter (fun s => s_id s = nil_uuid) (pagamentos_semanais d')) d' in
    with_approving false
      (with_timers (S (timers w))
         (with_toasts (toasts w ++ [toast_success "Pagamentos aprovados com sucesso!"])
            (with_loading false (with_slots (listSlots d'') (with_db d'' w))))).
Proof.
  intros Hsc Hne Hfor.
  unfold exec, DashboardPerRow.handleApprove.
  unfold bind at 1, setApproving, modify, finally, try_catch.
  unfold bind at 1, gets. cbn [slots with_approving].
  rewrite bool_decide_eq_false_2 by (intros Hl; by apply Hne, nil_length_inv).
  unfold bind at 1. rewrite Hfor.
  unfold bind at 1. rewrite call_reached by done.
  unfold delete_all_slots. unfold bind at 1. rewrite loadSlots_reached by done.
  unfold bind, show, modify, setTimeout_fillEmptySlots.
  destruct w as [d sc sl lo ap fi fl ts ti]. reflexivity.
Qed.





Lemma select_trabalho_gone (x : uuid) (d : DB) :
  x ∉ t_id <$> trabalhos d -> select_trabalho x d = None.
Proof.
  intros Hno. unfold select_trabalho.
  rewrite filter_none; [done|]. apply Forall_forall. intros t Ht E. apply Hno.
  rewrite <- E. apply list_elem_of_fmap. eauto.
Qed.

Lemma approve_slot_item_gone (slot : PagamentoSemanal) (w : World) :
  s_trabalho_id slot ∉ t_id <$> trabalhos (db w) ->
  db (exec (DashboardPerRow.approve_slot slot) w) = db w.
Proof.
  intros Hno. unfold exec, DashboardPerRow.approve_slot.
  unfold bind at 1. rewrite call_eq. destruct (next_rejects w); [done|].
  rewrite (select_trabalho_gone _ _ Hno).
  assert ((if goes_through w then @None (Trabalho * DB) else None) = None) as ->
    by (by destruct (goes_through w)).
  set (w1 := with_script (tail (script w)) w).
  unfold bind at 1. rewrite call_eq. destruct (next_rejects w1); [done|].
  change (insert_historico (t_pessoa_id <$> None) slot (db w1)) with (@None (unit * DB)).
  assert ((if goes_through w1 then @None (unit * DB) else None) = None) as ->
    by (by destruct (goes_through w1)).
  set (w2 := with_script (tail (script w1)) w1).
  unfold bind at 1. rewrite call_eq. destruct (next_rejects w2); [done|].
  change (db w2) with (db w). rewrite (select_trabalho_gone _ _ Hno).
  assert ((if goes_through w2 then @None (Trabalho * DB) else None) = None) as ->
    by (by destruct (goes_through w2)).
  done.
Qed.

Lemma approve_slot_gone_reached (slot : PagamentoSemanal) (w : World) :
  script w = [] -> s_trabalho_id slot ∉ t_id <$> trabalhos (db w) ->
  DashboardPerRow.approve_slot slot w = (Val tt, w).
Proof.
  intros Hsc Hno. unfold DashboardPerRow.approve_slot.
  unfold bind at 1. rewrite call_reached, select_trabalho_gone by done.
  unfold bind at 1. rewrite call_reached by done.
  change (insert_historico (t_pessoa_id <$> None) slot (db w)) with (@None (unit * DB)).
  cbv beta iota.
  unfold bind at 1. rewrite call_reached, select_trabalho_gone by done.
  done.
Qed.

(** X20: the per-row approval of a board whose slots all name work items
    that are no longer in the store records nothing, whatever the
    transport does: people, work items and history are unchanged.  When
    every call reaches the database it still deletes the slots and shows
    the success toast. *)
Theorem handleApprove_per_row_items_gone (w : World) :
  Forall (fun s => s_trabalho_id s ∉ t_id <$> trabalhos (db w)) (filled (slots w)) ->
  let w' := exec DashboardPerRow.handleApprove w in
  pessoas (db w') = pessoas (db w)
  ∧ trabalhos (db w') = trabalhos (db w)
  ∧ historico_pagamentos (db w') = historico_pagamentos (db w)
  ∧ (script w = [] -> filled (slots w) ≠ [] ->
     pagamentos_semanais (db w')
     = filter (fun s => s_id s = nil_uuid) (pagamentos_semanais (db w))
     ∧ toasts w' = (toasts w ++ [toast_success "Pagamentos aprovados com sucesso!"])%list).
Proof.
  intros Hgone w'.
  set (R := fun d => pessoas d = pessoas (db w) ∧ trabalhos d = trabalhos (db w)
                     ∧ historico_pagamentos d = historico_pagamentos (db w)).
  assert (forall l, Forall (fun s => s_trabalho_id s ∉ t_id <$> trabalhos (db w)) l ->
            maintains (on_db R) (forM l DashboardPerRow.approve_slot)) as Hloop.
  { intros l Hl. induction Hl as [|s l Hs Hl IH]; [apply maintains_ret|].
    cbn [forM]. apply maintains_bind; [|intros ?; exact IH].
    intros w0 Hw0. unfold on_db.
    change (R (db (exec (DashboardPerRow.approve_slot s) w0))).
    rewrite approve_slot_item_gone; [exact Hw0|].
    destruct Hw0 as (_ & -> & _). exact Hs. }
  assert (maintains (on_db R)
            (forM (filled (slots w)) DashboardPerRow.approve_slot ;;
             call delete_all_slots ;;
             Dashboard.loadSlots ;;
             show (toast_success "Pagamentos aprovados com sucesso!") ;;
             setTimeout_fillEmptySlots)) as Hbody.
  { unfold show, setTimeout_fillEmptySlots.
    apply maintains_bind; [by apply Hloop|]. intros ?. maintain.
    - intros w1 sc x d Hw1 [= _ <-]. exact Hw1.
    - apply loadSlots_store. }
  assert (R (db w')) as (H1 & H2 & H3).
  { subst w'. unfold exec, DashboardPerRow.handleApprove.
    unfold bind at 1, setApproving, modify, finally, try_catch.
    unfold bind at 1, gets. cbn [slots with_approving].
    case_bool_decide.
    - by unfold show, modify.
    - pose proof (Hbody (with_approving true w)) as Hb. unfold on_db in Hb.
      specialize (Hb ltac:(by unfold R)).
      destruct (bind (forM _ _) _ (with_approving true w)) as [[[]|] w2];
        simpl in *; exact Hb. }
  split_and!; try done.
  intros Hsc Hne.
  assert (forall l (w0 : World), script w0 = [] ->
            Forall (fun s => s_trabalho_id s ∉ t_id <$> trabalhos (db w0)) l ->
            forM l DashboardPerRow.approve_slot w0 = (Val tt, w0)) as Hfor.
  { intros l w0 Hsc0. induction 1 as [|s l Hs Hl IH]; [done|].
    cbn [forM]. unfold bind. by rewrite approve_slot_gone_reached. }
  subst w'. rewrite (handleApprove_per_row_run w (db w) Hsc Hne).
  - done.
  - rewrite Hfor by done. by destruct w.
Qed.

Lemma handleApprove_per_row_items_gone_witness :
  let w := with_db (mkDB [] [] [] []) (page two_slots []) in
  let w' := exec DashboardPerRow.handleApprove w in
  pessoas (db w') = pessoas (db w)
  ∧ trabalhos (db w') = trabalhos (db w)
  ∧ historico_pagamentos (db w') = historico_pagamentos (db w)
  ∧ (script w = [] -> filled (slots w) ≠ [] ->
     pagamentos_semanais (db w')
     = filter (fun s => s_id s = nil_uuid) (pagamentos_semanais (db w))
     ∧ toasts w' = (toasts w ++ [toast_success "Pagamentos aprovados com sucesso!"])%list).
Proof.
  apply (handleApprove_per_row_items_gone
           (with_db (mkDB [] [] [] []) (page two_slots []))).
  apply (bool_decide_unpack _). vm_compute. exact I.
Defined.

(** ** A reordering of the queue whose write reaches the database *)

Lemma updates_of_moved_fila (active : uuid) (l : list Trabalho) (oldIndex newIndex : nat) :
  findIndex (fun t => t_id t = active) l = Some oldIndex ->
  Trabalhos.updates_of (arrayMove l oldIndex newIndex) ≠ [].
Proof.
  intros Hold. apply findIndex_Some in Hold as (t & Ht & _).
  apply lookup_lt_Some in Ht. intros E. apply (f_equal length) in E.
  unfold Trabalhos.updates_of in E. rewrite length_imap, arrayMove_length in E.
  simpl in E. lia.
Qed.

(** X22: a queue reordering whose write reaches the database is refused
    there, for the rows it sends lack the columns that are [NOT NULL]: the
    store is unchanged, no rank is written, the handler never shows
    "Prioridade atualizada!" but its error toast, and reloads.  The page
    falls back to the stored queue, in the order of the ranks as they
    were, unless one of the two reads of the reload fails, in which case
    it keeps showing the moved list (and a second toast). *)
Theorem handleDragEnd_fila_refused
  (active over_id : uuid) (oldIndex newIndex : nat) (w : World) :
  active ≠ over_id ->
  findIndex (fun t => t_id t = active) (fila w) = Some oldIndex ->
  findIndex (fun t => t_id t = over_id) (fila w) = Some newIndex ->
  goes_through w = true ->
  let w' := exec (Trabalhos.handleDragEnd active (Some over_id)) w in
  let reload := all_reach 2 (with_script (tail (script w)) w) in
  db w' = db w
  ∧ fila w' = (if reload then merge_sort prioridade_le (pendentes (db w))
               else arrayMove (fila w) oldIndex newIndex)
  ∧ toasts w' = (toasts w ++ toast_error "Erro ao reordenar trabalhos"
                   :: (if reload then [] else [toast_error "Erro ao carregar dados"]))%list.
Proof.
  intros Hne Hold Hnew Hgo w' reload.
  assert (w' = exec (show (toast_error "Erro ao reordenar trabalhos") ;; Trabalhos.loadData)
                    (with_script (tail (script w))
                       (with_fila (arrayMove (fila w) oldIndex newIndex) w)))
    as ->.
  { unfold w', exec, Trabalhos.handleDragEnd.
    rewrite bool_decide_eq_false_2 by done.
    unfold bind at 1, gets. rewrite Hold, Hnew.
    unfold bind at 1, setTrabalhos, modify, try_catch, bind at 1.
    rewrite call_eq.
    change (next_rejects (with_fila _ w)) with (next_rejects w).
    change (goes_through (with_fila _ w)) with (goes_through w).
    rewrite (goes_through_not_rejects w Hgo), Hgo.
    rewrite upsert_prioridade_refused by (by eapply updates_of_moved_fila).
    done. }
  subst reload. generalize (tail (script w)). intros sc.
  unfold all_reach. cbn [script with_script].
  unfold exec, Trabalhos.loadData, show, bind, finally, try_catch, setFilaLoading, modify,
    setTrabalhos, promise_all, call, select_pessoas, select_fila.
  destruct sc as [|[] [|[] sc']]; cbn; rewrite <- ?(assoc_L (++)); split_and!; try done;
    try (rewrite bool_decide_eq_true_2 by (repeat constructor); done);
    rewrite bool_decide_eq_false_2; try done;
    intros H; repeat (apply Forall_cons in H as [? H]); done.
Qed.

Lemma handleDragEnd_fila_refused_witness :
  let w := page backlog_with_gap [] in
  let w' := exec (Trabalhos.handleDragEnd "t3" (Some "t1")) w in
  db w' = db w
  ∧ fila w' = merge_sort prioridade_le (pendentes (db w))
  ∧ toasts w' = [toast_error "Erro ao reordenar trabalhos"].
Proof.
  apply (handleDragEnd_fila_refused "t3" "t1" 1 0 (page backlog_with_gap [])); done.
Defined.




